(** * Reward settlement engine (reward_logic.py): model and properties

    The development follows [reward_logic.py]: column normalisation,
    exclusion detection, the three base-reward modes, the bonus calculators
    and the aggregation that sorts and labels the result table.  It goes on
    with what the page (app.py) shows of a result, and with the store of
    the activities (activity_store.py).

    Modelling conventions.
    - Text is a byte string holding UTF-8; substring search and ordering on
      UTF-8 bytes agree with Python's on code points.  [strip] removes ASCII
      white space and [lower] folds ASCII capitals (the CJK text the module
      matches against has neither case nor space characters).
    - Numbers are exact rationals ([Q]); NaN is a cell of its own.
    - A table cell is text, a number, a boolean, NaN or None.
    - The rule configuration is read through its declared schema
      ([RuleVersion] in activity_store.py): thresholds, amounts and rates
      are numbers, keys may be missing.
    - [compute_rewards] runs over a store of Python objects, so that what it
      copies and what it assigns to is explicit.
    - A frame has one column per label; two headers that resolve to the
      same name are outside the model.
    - The activity store runs over the state of its JSON file; what
      [json.dump] writes, [json.load] reads back. *)

From Stdlib Require Import Ascii String QArith Lia Permutation Sorted OrderedTypeEx.
From stdpp Require Import base option strings gmap list.

Local Open Scope string_scope.

(** ** Python text operations *)

Module Text.

Definition is_space (c : ascii) : bool :=
  let n := nat_of_ascii c in
  (n =? 32)%nat || ((9 <=? n)%nat && (n <=? 13)%nat).

Definition lower_char (c : ascii) : ascii :=
  let n := nat_of_ascii c in
  if ((65 <=? n)%nat && (n <=? 90)%nat)%bool then ascii_of_nat (n + 32) else c.

(** [str.lower()] *)
Fixpoint lower (s : string) : string :=
  match s with
  | EmptyString => EmptyString
  | String c s' => String (lower_char c) (lower s')
  end.

Fixpoint lstrip (s : string) : string :=
  match s with
  | EmptyString => EmptyString
  | String c s' => if is_space c then lstrip s' else s
  end.

Fixpoint rstrip (s : string) : string :=
  match s with
  | EmptyString => EmptyString
  | String c s' =>
      match rstrip s' with
      | EmptyString => if is_space c then EmptyString else String c EmptyString
      | t => String c t
      end
  end.

(** [str.strip()] *)
Definition strip (s : string) : string := rstrip (lstrip s).

(** [needle in hay] on strings *)
Fixpoint contains (needle hay : string) : bool :=
  String.prefix needle hay
  || match hay with
     | EmptyString => false
     | String _ hay' => contains needle hay'
     end.

(** [sep.join(parts)] *)
Fixpoint join (sep : string) (parts : list string) : string :=
  match parts with
  | [] => EmptyString
  | [p] => p
  | p :: ps => p +:+ sep +:+ join sep ps
  end.

(** [repr] of a list of plain strings, as an f-string prints it *)
Definition repr_list (l : list string) : string :=
  "[" +:+ join ", " (map (fun s => "'" +:+ s +:+ "'") l) +:+ "]".

End Text.

(** ** Cells, rows and frames *)

Inductive cell : Type :=
| CStr (s : string)
| CNum (q : Q)
| CBool (b : bool)
| CNaN
| CNone.

(** A row maps column labels to cells; a frame keeps the column order and
    the rows, each of which carries a cell for every column label. *)
Abbreviation row := (gmap string cell).

Record DataFrame : Type := mkFrame {
  columns : list string;
  rows : list row
}.

(** [pd.notna] *)
Definition notna (c : cell) : bool :=
  match c with
  | CNaN | CNone => false
  | _ => true
  end.

(** [row[col]] for a column of the frame *)
Definition cell_at (col : string) (r : row) : cell := default CNaN (r !! col).

(** [col in df.columns] *)
Definition has_column (col : string) (cols : list string) : bool :=
  bool_decide (col ∈ cols).

(** [df[col] = df.apply(f, axis=1)] and its column-wise relatives: every row
    receives its value under [col]; a new label goes last. *)
Definition assign (col : string) (f : row -> cell) (d : DataFrame) : DataFrame :=
  {| columns := if has_column col (columns d) then columns d else columns d ++ [col];
     rows := map (fun r => <[col := f r]> r) (rows d) |}.

(** ** Exceptions *)

Inductive exn : Type :=
| ValueError (msg : string)
| AttributeError.

Inductive result (A : Type) : Type :=
| Ok (a : A)
| Raise (e : exn).
Arguments Ok {A} a.
Arguments Raise {A} e.

Definition result_bind {A B} (m : result A) (k : A -> result B) : result B :=
  match m with
  | Ok a => k a
  | Raise e => Raise e
  end.

Fixpoint map_result {A B} (f : A -> result B) (l : list A) : result (list B) :=
  match l with
  | [] => Ok []
  | x :: l' =>
      result_bind (f x) (fun y =>
      result_bind (map_result f l') (fun ys => Ok (y :: ys)))
  end.

(** [assign] with a row function that may raise: the first failing row
    aborts the assignment. *)
Definition assign_result (col : string) (f : row -> result cell) (d : DataFrame)
  : result DataFrame :=
  result_bind (map_result (fun r => result_bind (f r) (fun v => Ok (<[col := v]> r))) (rows d))
    (fun rs =>
       Ok {| columns := if has_column col (columns d) then columns d else columns d ++ [col];
             rows := rs |}).

(** ** Rule configuration *)

(** One row of the tier table: label, play-count threshold and the amount
    columns, keyed by channel. *)
Record tier : Type := mkTier {
  tier_label : string;
  tier_threshold : Q;
  tier_amounts : gmap string Q
}.

Record quality_rule : Type := mkQualityRule {
  q_name : string;
  q_field : option string;
  q_threshold : option Q;
  q_add : option Q;
  q_only_short : option bool;
  q_channel : option string
}.

(** The keyword entry of a time rule is a list, or a single value. *)
Inductive keywords : Type :=
| KwList (l : list string)
| KwOne (s : string).

Record time_rule : Type := mkTimeRule {
  t_name : string;
  t_keywords : option keywords;
  t_min_plays : option Q;
  t_add : option Q
}.

Record pool_config : Type := mkPool {
  pool_total : option Q;
  pool_min_play : option Q
}.

Record base_params : Type := mkBaseParams {
  bp_tiers : option (list tier);
  bp_cpm : option (gmap string Q);
  bp_pool : option pool_config
}.

(** The dict form of a rule, with the keys [_extract_rule_config] reads. *)
Record rule_dict : Type := mkRuleDict {
  rd_base_mode : option string;
  rd_mode : option string;
  rd_base_params : option base_params;
  rd_table : option (list tier);
  rd_base_table : option (list tier);
  rd_quality_rules : option (list quality_rule);
  rd_excellent_rules : option (list quality_rule);
  rd_time_rules : option (list time_rule);
  rd_extra_rules : option (list time_rule)
}.

(** What the caller may pass as [rule]: a bare tier table, a dict, or
    anything else. *)
Inductive rule_object : Type :=
| RuleFrame (table : list tier)
| RuleDict (d : rule_dict)
| RuleOther.

(** The tuple [_extract_rule_config] returns. *)
Record rule_config : Type := mkConfig {
  base_table : list tier;
  quality_rules : list quality_rule;
  time_rules : list time_rule;
  base_mode : string;
  params : base_params
}.

(** ** Module constants *)

Definition amounts3 (a b c : Q) : gmap string Q :=
  <["抖音/视频号" := a]> (<["小红书" := b]> (<["B站" := c]> ∅)).

Definition DEFAULT_REWARD_TABLE : list tier :=
  [ mkTier "100w+" 1000000 (amounts3 300 900 1800);
    mkTier "50w+" 500000 (amounts3 150 450 900);
    mkTier "20w+" 200000 (amounts3 60 180 360);
    mkTier "10w+" 100000 (amounts3 30 90 180);
    mkTier "5w+" 50000 (amounts3 15 45 90);
    mkTier "3w+" 30000 (amounts3 10 30 60);
    mkTier "1w+" 10000 (amounts3 5 15 30) ].

Definition DEFAULT_QUALITY_RULES : list quality_rule :=
  [ mkQualityRule "短视频点赞≥10w" (Some "点赞") (Some 100000%Q) (Some 300%Q) (Some true) (Some "全部");
    mkQualityRule "播放≥200w" (Some "播放量") (Some 2000000%Q) (Some 1000%Q) (Some false) (Some "全部");
    mkQualityRule "评论≥5000" (Some "评论数") (Some 5000%Q) (Some 200%Q) (Some false) (Some "全部") ].

Definition DEFAULT_TIME_RULES : list time_rule :=
  [ mkTimeRule "热点/主题加50"
      (Some (KwList ["热点推荐"; "新春主题"; "长期主题"; "2月主题"]))
      (Some 10000%Q) (Some 50%Q) ].

Definition DEFAULT_BASE_MODE : string := "档位".

Definition DEFAULT_BASE_PARAMS : base_params :=
  {| bp_tiers := Some DEFAULT_REWARD_TABLE;
     bp_cpm := Some (amounts3 (3 # 10) (9 # 10) (18 # 10));
     bp_pool := Some (mkPool (Some 10000%Q) (Some 10000%Q)) |}.

Definition REQUIRED_BASE_COLUMNS : list string := ["渠道"; "播放量"; "作品类型"].
Definition IDENTITY_COLUMNS : list string := ["账号ID"; "账号名称"; "账号昵称"].
Definition OPTIONAL_TEXT_COLUMNS : list string :=
  ["作品标题"; "标题"; "内容"; "备注"; "视频标题"; "视频链接"].

Definition COLUMN_ALIASES : list (string * string) :=
  [ ("平台", "渠道"); ("平台渠道", "渠道"); ("channel", "渠道");
    ("播放数", "播放量"); ("播放", "播放量"); ("阅读数", "播放量");
    ("阅读量", "播放量"); ("播放量(次)", "播放量"); ("浏览量", "播放量");
    ("点赞数", "点赞"); ("点赞量", "点赞"); ("喜欢", "点赞"); ("love", "点赞");
    ("comments", "评论数"); ("评论", "评论数"); ("评论量", "评论数");
    ("视频类型", "作品类型"); ("类型", "作品类型");
    ("账号", "账号名称"); ("作者", "账号名称"); ("作者昵称", "账号名称");
    ("达人昵称", "账号名称"); ("博号昵称", "账号名称");
    ("昵称", "账号昵称");
    ("达人ID", "账号ID"); ("作者ID", "账号ID"); ("UID", "账号ID"); ("uid", "账号ID");
    ("期次", "期数"); ("批次", "期数"); ("轮次", "期数"); ("期别", "期数");
    ("热搜", "B站热搜"); ("热门", "B站热门");
    ("是否B站热搜", "B站热搜"); ("是否热搜", "B站热搜");
    ("是否B站热门", "B站热门"); ("是否热门", "B站热门") ].

Definition EXCLUDE_KEYWORDS : list string := ["bug"; "建议"; "拉踩"].

(** ** Python values *)

(** Truth value of a cell, as [not x] and [x or y] test it. *)
Definition truthy (c : cell) : bool :=
  match c with
  | CStr s => negb (String.eqb s EmptyString)
  | CNum q => negb (Qeq_bool q 0)
  | CBool b => b
  | CNaN => true
  | CNone => false
  end.

(** The number held by a cell of a numeric column; NaN and anything that is
    not a number count as nothing, as [sum] with [skipna] has it. *)
Definition number_of (c : cell) : Q :=
  match c with
  | CNum q => q
  | CBool true => 1
  | _ => 0
  end.

(** [x or 0] on a number *)
Definition or_zero (q : Q) : Q := if Qeq_bool q 0 then 0 else q.

(** [xs or ys] on lists read with [dict.get] *)
Definition or_list {A} (xs : option (list A)) (ys : list A) : list A :=
  match xs with
  | Some (x :: l) => x :: l
  | _ => ys
  end.

Definition str_eqb (a b : string) : bool := String.eqb a b.

(** [cell == text] *)
Definition cell_is (c : option cell) (text : string) : bool :=
  match c with
  | Some (CStr s) => str_eqb s text
  | _ => false
  end.

(** The number syntax of pandas and of Python is an interface of the model:
    [to_numeric_text s] is what [pd.to_numeric] reads in the text [s] ([None]
    when it coerces to NaN), [float_text s] is [float(s)] ([None] when it
    raises) and [str_number q] is [str] of a number. *)
Class NumberSyntax : Type := {
  to_numeric_text : string -> option Q;
  float_text : string -> option Q;
  str_number : Q -> string
}.

Section Engine.

Context `{NumberSyntax}.

(** [str(x)] *)
Definition str_cell (c : cell) : string :=
  match c with
  | CStr s => s
  | CNum q => str_number q
  | CBool true => "True"
  | CBool false => "False"
  | CNaN => "nan"
  | CNone => "None"
  end.

Definition normalize_channel (raw : cell) : string :=
  match raw with
  | CStr raw =>
      let text := Text.lower (Text.strip raw) in
      if existsb (fun k => Text.contains k text)
           ["抖音"; "douyin"; "视频号"; "wechat video"; "wx视频号"]
      then "抖音/视频号"
      else if Text.contains "小红书" text || Text.contains "xhs" text || str_eqb text "red"
      then "小红书"
      else if Text.contains "b站" text || Text.contains "bilibili" text
              || Text.contains "哔哩" text
      then "B站"
      else Text.strip raw
  | _ => EmptyString
  end.

(** [COLUMN_ALIASES.get(key, key)] on the trimmed header *)
Definition alias_of (col : string) : string :=
  let key := Text.strip col in
  match find (fun kv => str_eqb (fst kv) key) COLUMN_ALIASES with
  | Some kv => snd kv
  | None => key
  end.

Definition rename_row (cols : list string) (r : row) : row :=
  foldl (fun acc col =>
           match r !! col with
           | Some v => <[alias_of col := v]> acc
           | None => acc
           end) ∅ cols.

Definition align_columns (df : DataFrame) : DataFrame :=
  {| columns := map alias_of (columns df);
     rows := map (rename_row (columns df)) (rows df) |}.

(** [pd.to_numeric(.., errors="coerce").fillna(0)], cell by cell *)
Definition to_numeric (c : cell) : Q :=
  match c with
  | CNum q => q
  | CBool b => if b then 1 else 0
  | CStr s => default 0%Q (to_numeric_text s)
  | CNaN | CNone => 0
  end.

(** [sort_values("阈值", ascending=False)]: tiers of equal threshold keep
    their order. *)
Fixpoint insert_tier (t : tier) (l : list tier) : list tier :=
  match l with
  | [] => [t]
  | u :: l' =>
      if Qle_bool (tier_threshold u) (tier_threshold t)
      then t :: u :: l'
      else u :: insert_tier t l'
  end.

Definition sort_tiers (table : list tier) : list tier :=
  foldr insert_tier [] table.

Definition pick_base_reward (channel : cell) (plays : Q) (reward_table : list tier) : Q :=
  if negb (truthy channel) then 0
  else
    let chan := normalize_channel channel in
    let table := sort_tiers reward_table in
    match find (fun t => Qle_bool (tier_threshold t) plays) table with
    | Some t => or_zero (default 0%Q (tier_amounts t !! chan))
    | None => 0
    end.

Definition haystack (r : row) (text_columns : list string) : string :=
  Text.lower
    (Text.join " " (map (fun col => str_cell (default (CStr EmptyString) (r !! col)))
                      text_columns)).

Definition detect_exclusion (r : row) (text_columns : list string) : option string :=
  match find (fun kw => Text.contains (Text.lower kw) (haystack r text_columns))
             EXCLUDE_KEYWORDS with
  | Some kw => Some ("含排除关键词:" +:+ kw)
  | None => None
  end.

(** [value] is what [r.get(col)] returns: [None] for a missing column. *)
Definition bool_from_any (value : option cell) : bool :=
  match value with
  | None | Some CNone => false
  | Some (CBool b) => b
  | Some (CNum q) => negb (Qeq_bool q 0)
  | Some CNaN => true
  | Some (CStr s) =>
      let text := Text.lower (Text.strip s) in
      existsb (str_eqb text) ["1"; "true"; "yes"; "y"; "是"; "有"; "热搜"; "热门"]
  end.

Fixpoint coalesce_row (r : row) (cols : list string) : string :=
  match cols with
  | [] => EmptyString
  | col :: cols' =>
      match r !! col with
      | Some c =>
          if notna c && negb (str_eqb (Text.strip (str_cell c)) EmptyString)
          then Text.strip (str_cell c)
          else coalesce_row r cols'
      | None => coalesce_row r cols'
      end
  end.

Definition _extract_rule_config (rule : rule_object) : rule_config :=
  match rule with
  | RuleFrame table =>
      mkConfig table DEFAULT_QUALITY_RULES DEFAULT_TIME_RULES DEFAULT_BASE_MODE
               DEFAULT_BASE_PARAMS
  | RuleDict rule =>
      let base_mode :=
        default (default DEFAULT_BASE_MODE (rd_mode rule)) (rd_base_mode rule) in
      let base_params := default DEFAULT_BASE_PARAMS (rd_base_params rule) in
      let base_df :=
        or_list (bp_tiers base_params)
          (or_list (rd_table rule) (or_list (rd_base_table rule) DEFAULT_REWARD_TABLE)) in
      let quality_rules :=
        or_list (rd_quality_rules rule)
          (or_list (rd_excellent_rules rule) DEFAULT_QUALITY_RULES) in
      let time_rules :=
        or_list (rd_time_rules rule) (or_list (rd_extra_rules rule) DEFAULT_TIME_RULES) in
      mkConfig base_df quality_rules time_rules base_mode base_params
  | RuleOther =>
      mkConfig DEFAULT_REWARD_TABLE DEFAULT_QUALITY_RULES DEFAULT_TIME_RULES
               DEFAULT_BASE_MODE DEFAULT_BASE_PARAMS
  end.

(** *** The closures of [compute_rewards] *)

Definition pick_identity (r : row) : string :=
  let ident := coalesce_row r ["账号ID"; "账号名称"; "账号昵称"] in
  if str_eqb ident EmptyString then "未知账号" else ident.

(** [float(r.get("播放量", 0))]; the column holds numbers once coerced. *)
Definition plays_of (r : row) : Q := number_of (default (CNum 0) (r !! "播放量")).

(** [str] of the content type, the empty text when the column is missing *)
Definition type_text (r : row) : string :=
  str_cell (default (CStr EmptyString) (r !! "作品类型")).

Definition pool_of (p : base_params) : pool_config :=
  default (mkPool None None) (bp_pool p).

Definition sum_Q (l : list Q) : Q := foldr Qplus 0%Q l.

(** The pre-pass of the pool mode: the plays of the rows at or above the
    threshold, summed; [0.0] in the other modes. *)
Definition plays_sum (cfg : rule_config) (work : list row) : Q :=
  if str_eqb (base_mode cfg) "瓜分" then
    let min_play := default 0%Q (pool_min_play (pool_of (params cfg))) in
    sum_Q (map plays_of (List.filter (fun r => Qle_bool min_play (plays_of r)) work))
  else 0%Q.

Definition calc_base_reward (cfg : rule_config) (plays_sum_ref : Q) (r : row) : Q :=
  let mode :=
    if str_eqb (base_mode cfg) EmptyString then DEFAULT_BASE_MODE else base_mode cfg in
  if str_eqb mode "CPM" then
    let cpm_cfg : gmap string Q := default ∅ (bp_cpm (params cfg)) in
    let rate :=
      default (default 0%Q (cpm_cfg !! "默认"))
              (match default (CStr EmptyString) (r !! "渠道") with
               | CStr chan => cpm_cfg !! chan
               | _ => None
               end) in
    (plays_of r / 1000 * rate)%Q
  else if str_eqb mode "瓜分" then
    let pool_cfg := pool_of (params cfg) in
    let total := default 0%Q (pool_total pool_cfg) in
    let min_play := default 0%Q (pool_min_play pool_cfg) in
    if Qeq_bool plays_sum_ref 0 then 0%Q
    else if negb (Qle_bool min_play (plays_of r)) then 0%Q
    else (total * plays_of r / plays_sum_ref)%Q
  else
    pick_base_reward (cell_at "渠道" r) (number_of (cell_at "播放量" r)) (base_table cfg).

(** [rule_item.get("关键词") or []], wrapped in a list when it is not one *)
Definition keyword_list (k : option keywords) : list string :=
  match k with
  | Some (KwList l) => l
  | Some (KwOne s) => if str_eqb s EmptyString then [] else [s]
  | None => []
  end.

Definition is_empty {A} (l : list A) : bool :=
  match l with
  | [] => true
  | _ => false
  end.

Fixpoint time_loop (text : string) (plays : Q) (rules : list time_rule) (bonus_total : Q)
  : Q :=
  match rules with
  | [] => bonus_total
  | rule_item :: rest =>
      let min_plays := default 0%Q (t_min_plays rule_item) in
      let kw_list := keyword_list (t_keywords rule_item) in
      let add := default 0%Q (t_add rule_item) in
      if negb (Qle_bool min_plays plays) then time_loop text plays rest bonus_total
      else if negb (is_empty kw_list)
              && negb (existsb (fun kw => Text.contains kw text) kw_list)
      then time_loop text plays rest bonus_total
      else time_loop text plays rest (bonus_total + add)%Q
  end.

Definition calc_time_bonus (cfg : rule_config) (r : row) : Q :=
  time_loop (type_text r) (plays_of r) (time_rules cfg) 0%Q.

(** [max(extra_list) if extra_list else 0] *)
Definition max_or_zero (extra_list : list Z) : Z :=
  match extra_list with
  | [] => 0%Z
  | x :: l => foldl Z.max x l
  end.

Definition bilibili_candidates (r : row) : list Z :=
  let text := type_text r in
  let hot_flag := bool_from_any (r !! "B站热门") || bool_from_any (r !! "热门") in
  let top_flag := bool_from_any (r !! "B站热搜") || bool_from_any (r !! "热搜") in
  (if Text.contains "热搜" text then [100%Z] else [])
    ++ (if Text.contains "热门" text then [200%Z] else [])
    ++ (if top_flag then [100%Z] else [])
    ++ (if hot_flag then [200%Z] else []).

Definition bilibili_extra (r : row) : Z :=
  if negb (cell_is (Some (cell_at "渠道" r)) "B站") then 0%Z
  else max_or_zero (bilibili_candidates r).

(** The message of the [ValueError] that [float] raises on text. *)
Definition float_error_message (s : string) : string :=
  "could not convert string to float: '" +:+ s +:+ "'".

(** [float(r.get(field, 0) or 0)]: the number, [None] for NaN, or the
    [ValueError] of [float] on text that is not a number. *)
Definition float_or_zero (c : option cell) : result (option Q) :=
  match c with
  | None => Ok (Some 0%Q)
  | Some c =>
      if truthy c then
        match c with
        | CStr s =>
            match float_text s with
            | Some q => Ok (Some q)
            | None => Raise (ValueError (float_error_message s))
            end
        | CNum q => Ok (Some q)
        | CBool _ => Ok (Some 1%Q)
        | CNaN => Ok None
        | CNone => Ok (Some 0%Q)
        end
      else Ok (Some 0%Q)
  end.

(** [value >= threshold]; a comparison with NaN is false. *)
Definition value_ge (value : option Q) (threshold : Q) : bool :=
  match value with
  | Some v => Qle_bool threshold v
  | None => false
  end.

Definition is_short (r : row) : bool :=
  Text.contains "短视频" (type_text r)
  || cell_is (r !! "渠道") "抖音/视频号" || cell_is (r !! "渠道") "小红书".

(** The body of the loop of [quality_extra]: whether the rule adds its
    bonus on this row. *)
Definition quality_rule_applies (r : row) (rule_item : quality_rule) : result bool :=
  let field := default EmptyString (q_field rule_item) in
  let threshold := default 0%Q (q_threshold rule_item) in
  let only_short := default false (q_only_short rule_item) in
  let target_channel := default "全部" (q_channel rule_item) in
  if only_short && negb (is_short r) then Ok false
  else if negb (str_eqb target_channel "全部")
          && negb (cell_is (r !! "渠道") target_channel)
  then Ok false
  else
    result_bind (float_or_zero (r !! field)) (fun value =>
      Ok (value_ge value threshold)).

Fixpoint quality_loop (r : row) (rules : list quality_rule) (bonus : Q) : result Q :=
  match rules with
  | [] => Ok bonus
  | rule_item :: rest =>
      let add := default 0%Q (q_add rule_item) in
      result_bind (quality_rule_applies r rule_item) (fun hit =>
        if hit
        then quality_loop r rest (bonus + add)%Q
        else quality_loop r rest bonus)
  end.

Definition quality_extra (cfg : rule_config) (r : row) : result Q :=
  quality_loop r (quality_rules cfg) 0%Q.

Definition pick_title (r : row) : string :=
  let title := coalesce_row r ["视频标题"; "作品标题"; "标题"] in
  if str_eqb title EmptyString then "未命名作品" else title.

(** The f-string of the work key. *)
Definition work_key (r : row) : string :=
  str_cell (default (default (CStr "未知账号") (r !! "账号标识")) (r !! "账号名称"))
    +:+ "｜" +:+ pick_title r.

(** [work[[...]].sum(axis=1)] over the four reward columns *)
Definition total_of (r : row) : Q :=
  (number_of (cell_at "基础奖励" r) + number_of (cell_at "限时奖励" r)
   + number_of (cell_at "平台加成" r) + number_of (cell_at "优质加成" r))%Q.

(** *** The statements of [compute_rewards], as frame transformers *)

Definition missing_base (cols : list string) : list string :=
  List.filter (fun c => negb (has_column c cols)) REQUIRED_BASE_COLUMNS.

Definition has_identity (cols : list string) : bool :=
  existsb (fun col => has_column col cols) IDENTITY_COLUMNS.

Definition missing_base_message (missing : list string) : string :=
  "缺少必要字段: " +:+ Text.repr_list missing.

Definition missing_identity_message : string :=
  "缺少账号标识（账号ID/账号名称/账号昵称 至少一列）".

Definition validate (work : DataFrame) : result unit :=
  if negb (is_empty (missing_base (columns work)))
  then Raise (ValueError (missing_base_message (missing_base (columns work))))
  else if negb (has_identity (columns work))
  then Raise (ValueError missing_identity_message)
  else Ok tt.

Definition coerce_or_zero (col : string) (work : DataFrame) : DataFrame :=
  if has_column col (columns work)
  then assign col (fun r => CNum (to_numeric (cell_at col r))) work
  else assign col (fun _ => CNum 0) work.

(** [.fillna("默认").astype(str)] *)
Definition period_text (c : cell) : cell :=
  if notna c then CStr (str_cell c) else CStr "默认".

(** Channel, numeric columns and period. *)
Definition normalize_columns (work : DataFrame) : DataFrame :=
  let work := assign "渠道" (fun r => CStr (normalize_channel (cell_at "渠道" r))) work in
  let work := assign "播放量" (fun r => CNum (to_numeric (cell_at "播放量" r))) work in
  let work := coerce_or_zero "点赞" work in
  let work := coerce_or_zero "评论数" work in
  let work :=
    if has_column "期数" (columns work) then work
    else assign "期数" (fun _ => CStr "默认") work in
  assign "期数" (fun r => period_text (cell_at "期数" r)) work.

Definition text_columns (work : DataFrame) : list string :=
  List.filter (fun c => has_column c (columns work))
              (REQUIRED_BASE_COLUMNS ++ OPTIONAL_TEXT_COLUMNS).

Definition reason_cell (reason : option string) : cell :=
  match reason with
  | Some s => CStr s
  | None => CNone
  end.

(** Identity key and exclusion reason. *)
Definition mark_rows (work : DataFrame) : DataFrame :=
  let work := assign "账号标识" (fun r => CStr (pick_identity r)) work in
  let cols := text_columns work in
  assign "排除原因" (fun r => reason_cell (detect_exclusion r cols)) work.

Definition base_rewards (cfg : rule_config) (plays_sum_ref : Q) (work : DataFrame)
  : DataFrame :=
  assign "基础奖励" (fun r => CNum (calc_base_reward cfg plays_sum_ref r)) work.

Definition bonuses (cfg : rule_config) (work : DataFrame) : result DataFrame :=
  let work := assign "限时奖励" (fun r => CNum (calc_time_bonus cfg r)) work in
  let work := assign "平台加成" (fun r => CNum (inject_Z (bilibili_extra r))) work in
  assign_result "优质加成"
    (fun r => result_bind (quality_extra cfg r) (fun q => Ok (CNum q))) work.

(** Totals, work key, and the zero of excluded rows. *)
Definition totals (work : DataFrame) : DataFrame :=
  let work := assign "总奖励" (fun r => CNum (total_of r)) work in
  let work := assign "超额标记" (fun _ => CStr EmptyString) work in
  let work := assign "作品标识" (fun r => CStr (work_key r)) work in
  let work := assign "总奖励" (fun r => CNum (total_of r)) work in
  assign "总奖励"
    (fun r => if notna (cell_at "排除原因" r) then CNum 0 else cell_at "总奖励" r) work.

(** The four sort keys and their order: three texts ascending, then the
    total descending. *)
Definition text_at (col : string) (r : row) : string := str_cell (cell_at col r).

Definition total_at (r : row) : Q := number_of (cell_at "总奖励" r).

Definition sort_compare (a b : row) : comparison :=
  match String.compare (text_at "期数" a) (text_at "期数" b) with
  | Eq =>
      match String.compare (text_at "账号标识" a) (text_at "账号标识" b) with
      | Eq =>
          match String.compare (text_at "作品标识" a) (text_at "作品标识" b) with
          | Eq => Qcompare (total_at b) (total_at a)
          | c => c
          end
      | c => c
      end
  | c => c
  end.

Definition sort_leb (a b : row) : bool :=
  match sort_compare a b with
  | Gt => false
  | _ => true
  end.

(** The multi-key [sort_values] is a stable sort: a row goes in front of
    the first later row that does not precede it. *)
Fixpoint insert_row (x : row) (l : list row) : list row :=
  match l with
  | [] => [x]
  | y :: l' => if sort_leb x y then x :: y :: l' else y :: insert_row x l'
  end.

Definition sort_rows (l : list row) : list row := foldr insert_row [] l.

Definition sort_values (work : DataFrame) : DataFrame :=
  {| columns := columns work; rows := sort_rows (rows work) |}.

(** [reset_index(drop=True)]: the frame again, under fresh row labels. *)
Definition reset_index (work : DataFrame) : DataFrame :=
  {| columns := columns work; rows := rows work |}.

Definition status_of (r : row) : cell :=
  if notna (cell_at "排除原因" r) then cell_at "排除原因" r
  else if truthy (cell_at "超额标记" r) then cell_at "超额标记" r
  else CStr "计入".

Definition add_status (work : DataFrame) : DataFrame :=
  assign "状态" status_of work.

Definition display_cols : list string :=
  ["期数"; "渠道"; "账号标识"; "账号ID"; "账号名称"; "账号昵称"; "作品标识"; "作品类型";
   "播放量"; "点赞"; "评论数"; "基础奖励"; "限时奖励"; "平台加成"; "优质加成"; "总奖励";
   "状态"].

(** [work[labels]] *)
Definition select_columns (labels : list string) (work : DataFrame) : DataFrame :=
  {| columns := labels;
     rows := map (fun r : row => filter (fun kv => kv.1 ∈ labels) r) (rows work) |}.

Definition ordered_columns (work : DataFrame) : list string :=
  let present_display := List.filter (fun c => has_column c (columns work)) display_cols in
  let extra_cols :=
    List.filter (fun c => negb (has_column c present_display)) (columns work) in
  present_display ++ extra_cols.

(** *** The object store *)

(** Frames and rule objects live in a store and are passed by reference;
    a new object takes the next free address. *)
Inductive pyobj : Type :=
| ObjFrame (d : DataFrame)
| ObjRule (r : rule_object).

Definition store : Type := list pyobj.
Definition ref : Type := nat.

Definition M (A : Type) : Type := store -> result A * store.

Definition ret {A} (a : A) : M A := fun h => (Ok a, h).

Definition bind {A B} (m : M A) (k : A -> M B) : M B :=
  fun h =>
    match m h with
    | (Ok a, h') => k a h'
    | (Raise e, h') => (Raise e, h')
    end.

Definition lift {A} (r : result A) : M A := fun h => (r, h).

Notation "x <- m ;; k" := (bind m (fun x => k))
  (at level 100, m at next level, right associativity).
Notation "m ;;; k" := (bind m (fun _ => k))
  (at level 100, right associativity).

Definition new_frame (d : DataFrame) : M ref :=
  fun h => (Ok (List.length h), (h ++ [ObjFrame d])%list).

Definition get_frame (l : ref) : M DataFrame :=
  fun h =>
    match h !! l with
    | Some (ObjFrame d) => (Ok d, h)
    | _ => (Raise AttributeError, h)
    end.

Definition get_rule (l : ref) : M rule_object :=
  fun h =>
    match h !! l with
    | Some (ObjRule r) => (Ok r, h)
    | _ => (Raise AttributeError, h)
    end.

Definition set_frame (l : ref) (d : DataFrame) : M unit :=
  fun h => (Ok tt, <[l := ObjFrame d]> h).

(** An assignment into the frame at [l] *)
Definition update (l : ref) (f : DataFrame -> DataFrame) : M unit :=
  d <- get_frame l ;; set_frame l (f d).

Definition update_result (l : ref) (f : DataFrame -> result DataFrame) : M unit :=
  d <- get_frame l ;; d' <- lift (f d) ;; set_frame l d'.

(** A method that returns a new frame *)
Definition derive (l : ref) (f : DataFrame -> DataFrame) : M ref :=
  d <- get_frame l ;; new_frame (f d).

Definition compute_rewards (df rule : ref) : M ref :=
  rule_obj <- get_rule rule ;;
  let cfg := _extract_rule_config rule_obj in
  copy <- derive df id ;;
  work <- derive copy align_columns ;;
  (d <- get_frame work ;; lift (validate d)) ;;;
  update work normalize_columns ;;;
  update work mark_rows ;;;
  plays_sum_ref <- (d <- get_frame work ;; ret (plays_sum cfg (rows d))) ;;
  update work (base_rewards cfg plays_sum_ref) ;;;
  update_result work (bonuses cfg) ;;;
  update work totals ;;;
  sorted <- derive work sort_values ;;
  work <- derive sorted reset_index ;;
  update work add_status ;;;
  d <- get_frame work ;;
  derive work (select_columns (ordered_columns d)).

(** The table the call computes from the values of its arguments, in two
    parts: the statements up to the totals, which work row by row, and the
    sort with what follows it. *)
Definition scored_table (df : DataFrame) (rule : rule_object) : result DataFrame :=
  let cfg := _extract_rule_config rule in
  let work := align_columns df in
  result_bind (validate work) (fun _ =>
  let work := mark_rows (normalize_columns work) in
  let work := base_rewards cfg (plays_sum cfg (rows work)) work in
  result_bind (bonuses cfg work) (fun work => Ok (totals work))).

Definition finish_table (work : DataFrame) : DataFrame :=
  let work := add_status (reset_index (sort_values work)) in
  select_columns (ordered_columns work) work.

Definition rewards_table (df : DataFrame) (rule : rule_object) : result DataFrame :=
  result_bind (scored_table df rule) (fun work => Ok (finish_table work)).

(** The same table with the sort left out: the rows in the order of the
    dataset. *)
Definition rewards_table_unsorted (df : DataFrame) (rule : rule_object)
  : result DataFrame :=
  result_bind (scored_table df rule) (fun work =>
    let work := add_status work in
    Ok (select_columns (ordered_columns work) work)).

(** What a call returns, read back from the store. *)
Definition outcome (res : result ref * store) : result DataFrame :=
  match res with
  | (Ok l, h) =>
      match h !! l with
      | Some (ObjFrame d) => Ok d
      | _ => Raise AttributeError
      end
  | (Raise e, _) => Raise e
  end.

End Engine.

(** ** A number syntax to run the model on

    Plain decimal integers with an optional sign; enough for the tables
    below. *)

Fixpoint digits_value (s : string) (acc : Z) : option Z :=
  match s with
  | EmptyString => Some acc
  | String c s' =>
      let n := nat_of_ascii c in
      if ((48 <=? n)%nat && (n <=? 57)%nat)%bool
      then digits_value s' (10 * acc + Z.of_nat (n - 48))%Z
      else None
  end.

Definition decimal_text (s : string) : option Q :=
  match Text.strip s with
  | EmptyString => None
  | String "-" (String c s') => option_map (fun z => inject_Z (- z)) (digits_value (String c s') 0)
  | s' => option_map inject_Z (digits_value s' 0)
  end.

Fixpoint digits_of (fuel : nat) (n : N) (acc : string) : string :=
  match fuel with
  | O => acc
  | S fuel' =>
      let d := ascii_of_N (48 + N.modulo n 10) in
      if (n <? 10)%N then String d acc else digits_of fuel' (N.div n 10) (String d acc)
  end.

(** The integer part of the number, in decimal. *)
Definition decimal_str (q : Q) : string :=
  let z := (Qnum q / Zpos (Qden q))%Z in
  let body := digits_of (S (N.to_nat (N.log2 (Z.abs_N z)))) (Z.abs_N z) EmptyString in
  if (z <? 0)%Z then String "-" body else body.

Definition decimal_syntax : NumberSyntax :=
  {| to_numeric_text := decimal_text;
     float_text := decimal_text;
     str_number := decimal_str |}.

(** ** Sample data *)

Definition mk_row (l : list (string * cell)) : row := list_to_map l.

(** A Bilibili row whose content type carries both markers, without flag
    columns. *)
Definition both_markers_row : row :=
  mk_row [("渠道", CStr "B站"); ("播放量", CNum 60000); ("作品类型", CStr "热搜 热门")].

(** A row without a like column, and rows whose fan column is NaN or text. *)
Definition plain_row : row :=
  mk_row [("渠道", CStr "B站"); ("播放量", CNum 60000); ("作品类型", CStr "长视频")].
Definition nan_fans_row : row := <["粉丝数" := CNaN]> plain_row.
Definition text_fans_row : row := <["粉丝数" := CStr "abc"]> plain_row.

Definition zero_fans_rule : quality_rule :=
  mkQualityRule "粉丝" (Some "粉丝数") (Some 0%Q) (Some 100%Q) (Some false) (Some "全部").

(** Specification-side reading of the platform bonus: which of the two
    candidates a row triggers. *)
Definition trending `{NumberSyntax} (r : row) : bool :=
  Text.contains "热搜" (type_text r)
  || bool_from_any (r !! "B站热搜") || bool_from_any (r !! "热搜").

Definition popular `{NumberSyntax} (r : row) : bool :=
  Text.contains "热门" (type_text r)
  || bool_from_any (r !! "B站热门") || bool_from_any (r !! "热门").

(** The two gates of a quality rule: short-video-only and channel. *)
Definition gates_pass `{NumberSyntax} (r : row) (rule_item : quality_rule) : bool :=
  negb (default false (q_only_short rule_item) && negb (is_short r))
  && negb (negb (str_eqb (default "全部" (q_channel rule_item)) "全部")
           && negb (cell_is (r !! "渠道") (default "全部" (q_channel rule_item)))).

(** A frame with a negative play count. *)
Definition negative_plays_frame : DataFrame :=
  {| columns := ["渠道"; "播放量"; "作品类型"; "账号名称"];
     rows := [ mk_row [("渠道", CStr "B站"); ("播放量", CNum (-5)); ("作品类型", CStr "长视频");
                       ("账号名称", CStr "A")] ] |}.

(** Rows that agree on the four sort keys. *)
Definition same_key `{NumberSyntax} (a b : row) : bool :=
  match sort_compare a b with
  | Eq => true
  | _ => false
  end.

(** The columns the calculators and the exclusion detector read, and the
    columns the statements after the identity key write. *)
Definition read_columns : list string :=
  REQUIRED_BASE_COLUMNS ++ OPTIONAL_TEXT_COLUMNS ++ ["B站热门"; "热门"; "B站热搜"; "热搜"].

Definition written_columns : list string :=
  ["排除原因"; "基础奖励"; "限时奖励"; "平台加成"; "优质加成"; "总奖励"; "超额标记"; "作品标识";
   "状态"].

Definition late_columns : list string :=
  ["优质加成"; "总奖励"; "超额标记"; "作品标识"; "状态"].

(** Two rows that hold the same cells under the given labels. *)
Definition agree (labels : list string) (r r' : row) : Prop :=
  forall c, In c labels -> r !! c = r' !! c.

(** Every cell of every row sits under a column label of the frame. *)
Definition rows_within (w : DataFrame) : Prop :=
  Forall (fun r : row => forall c, is_Some (r !! c) -> c ∈ columns w) (rows w).

(** The last assignment, row by row. *)
Definition with_status `{NumberSyntax} (r : row) : row := <["状态" := status_of r]> r.

(** What holds of a row once the reward columns are filled in. *)
Definition scored_row_ok `{NumberSyntax} (cfg : rule_config) (plays_sum_ref : Q)
           (labels : list string) (s : row) : Prop :=
  s !! "排除原因" = Some (reason_cell (detect_exclusion s labels))
  /\ s !! "基础奖励" = Some (CNum (calc_base_reward cfg plays_sum_ref s))
  /\ s !! "限时奖励" = Some (CNum (calc_time_bonus cfg s))
  /\ s !! "平台加成" = Some (CNum (inject_Z (bilibili_extra s)))
  /\ (exists q r3,
        quality_extra cfg r3 = Ok q
        /\ (forall c, ~ In c late_columns -> r3 !! c = s !! c)
        /\ s !! "优质加成" = Some (CNum q))
  /\ s !! "超额标记" = Some (CStr EmptyString)
  /\ s !! "总奖励" = Some (if notna (cell_at "排除原因" s) then CNum 0 else CNum (total_of s)).

(** The assignments between the coercions and the sort, row by row. *)
Definition ident_row `{NumberSyntax} (r : row) : row :=
  <["账号标识" := CStr (pick_identity r)]> r.

Definition mark_row `{NumberSyntax} (labels : list string) (r : row) : row :=
  <["排除原因" := reason_cell (detect_exclusion r labels)]> r.

Definition base_row `{NumberSyntax} (cfg : rule_config) (plays_sum_ref : Q) (r : row) : row :=
  <["基础奖励" := CNum (calc_base_reward cfg plays_sum_ref r)]> r.

Definition bonus_row `{NumberSyntax} (cfg : rule_config) (r : row) : row :=
  let r := <["限时奖励" := CNum (calc_time_bonus cfg r)]> r in
  <["平台加成" := CNum (inject_Z (bilibili_extra r))]> r.

Definition totals_row `{NumberSyntax} (r : row) : row :=
  let r := <["总奖励" := CNum (total_of r)]> r in
  let r := <["超额标记" := CStr EmptyString]> r in
  let r := <["作品标识" := CStr (work_key r)]> r in
  let r := <["总奖励" := CNum (total_of r)]> r in
  <["总奖励" := if notna (cell_at "排除原因" r) then CNum 0 else cell_at "总奖励" r]> r.



(** The order of [sort_values], as a proposition on the four keys. *)
Definition key_le `{NumberSyntax} (a b : row) : Prop :=
  String.compare (text_at "期数" a) (text_at "期数" b) = Lt
  \/ (text_at "期数" a = text_at "期数" b
      /\ (String.compare (text_at "账号标识" a) (text_at "账号标识" b) = Lt
          \/ (text_at "账号标识" a = text_at "账号标识" b
              /\ (String.compare (text_at "作品标识" a) (text_at "作品标识" b) = Lt
                  \/ (text_at "作品标识" a = text_at "作品标识" b
                      /\ (total_at b <= total_at a)%Q))))).

(** Rows with the same four keys. *)
Definition key_eq `{NumberSyntax} (a b : row) : Prop :=
  text_at "期数" a = text_at "期数" b
  /\ text_at "账号标识" a = text_at "账号标识" b
  /\ text_at "作品标识" a = text_at "作品标识" b
  /\ (total_at a == total_at b)%Q.

(** The sum the pool mode divides by, from the play counts alone. *)
Definition qualifying_sum (cfg : rule_config) (plays : list Q) : Q :=
  if str_eqb (base_mode cfg) "瓜分" then
    sum_Q (List.filter (Qle_bool (default 0%Q (pool_min_play (pool_of (params cfg))))) plays)
  else 0%Q.

(** A dataset under aliased headers: two rows of one work, the second one
    carrying an exclusion keyword, and a third row of another account. *)
Definition sample_frame : DataFrame :=
  {| columns := ["平台"; "播放量"; "作品类型"; "账号名称"];
     rows := [ mk_row [("平台", CStr "Douyin"); ("播放量", CStr "150000");
                       ("作品类型", CStr "短视频"); ("账号名称", CStr "B")];
               mk_row [("平台", CStr "bilibili"); ("播放量", CNum 60000);
                       ("作品类型", CStr "热搜 热门 建议"); ("账号名称", CStr "B")];
               mk_row [("平台", CStr "xhs"); ("播放量", CNum 20000);
                       ("作品类型", CStr "图文"); ("账号名称", CStr "A")] ] |}.

(** A dataset without play counts and without any identity column. *)
Definition no_plays_frame : DataFrame :=
  {| columns := ["渠道"; "作品类型"];
     rows := [ mk_row [("渠道", CStr "B站"); ("作品类型", CStr "长视频")] ] |}.

(** Pool mode, 10000 to share among the rows of at least [min_play] plays. *)
Definition pool_rule (min_play : Q) : rule_object :=
  RuleDict {| rd_base_mode := Some "瓜分"; rd_mode := None;
              rd_base_params :=
                Some {| bp_tiers := None; bp_cpm := None;
                        bp_pool := Some (mkPool (Some 10000%Q) (Some min_play)) |};
              rd_table := None; rd_base_table := None;
              rd_quality_rules := None; rd_excellent_rules := None;
              rd_time_rules := None; rd_extra_rules := None |}.

(** A dataset whose only row has no plays. *)
Definition zero_plays_frame : DataFrame :=
  {| columns := ["渠道"; "播放量"; "作品类型"; "账号名称"];
     rows := [ mk_row [("渠道", CStr "B站"); ("播放量", CNum 0); ("作品类型", CStr "长视频");
                       ("账号名称", CStr "A")] ] |}.

(** The sum of the base-reward column. *)
Definition base_total (out : DataFrame) : Q :=
  sum_Q (map (fun r => number_of (cell_at "基础奖励" r)) (rows out)).

Definition is_ok {A} (r : result A) : bool :=
  match r with
  | Ok _ => true
  | Raise _ => false
  end.

(** The plays of the rows at or above the minimum, summed. *)
Definition qualifying_plays `{NumberSyntax} (min_play : Q) (out : DataFrame) : Q :=
  sum_Q (map plays_of (List.filter (fun r => Qle_bool min_play (plays_of r)) (rows out))).

(** ** Definitions for the further properties *)

(** The coercions of [compute_rewards], row by row; [cols] are the labels
    of the frame after alias resolution. *)
Definition normalize_row `{NumberSyntax} (cols : list string) (r : row) : row :=
  let r := <["渠道" := CStr (normalize_channel (cell_at "渠道" r))]> r in
  let r := <["播放量" := CNum (to_numeric (cell_at "播放量" r))]> r in
  let r := <["点赞" := if has_column "点赞" cols
                       then CNum (to_numeric (cell_at "点赞" r)) else CNum 0]> r in
  let r := <["评论数" := if has_column "评论数" cols
                         then CNum (to_numeric (cell_at "评论数" r)) else CNum 0]> r in
  let r := if has_column "期数" cols then r else <["期数" := CStr "默认"]> r in
  <["期数" := period_text (cell_at "期数" r)]> r.

(** A row of the frame before the sort, from its coerced row [n] and its
    quality bonus [q]. *)
Definition score_row `{NumberSyntax} (cfg : rule_config) (plays_sum_ref : Q)
           (labels : list string) (q : Q) (n : row) : row :=
  totals_row (<["优质加成" := CNum q]>
                (bonus_row cfg (base_row cfg plays_sum_ref (mark_row labels (ident_row n))))).

(** The columns [compute_rewards] adds when the dataset lacks them. *)
Definition produced_columns : list string :=
  ["点赞"; "评论数"; "期数"; "账号标识"; "排除原因"; "基础奖励"; "限时奖励"; "平台加成";
   "优质加成"; "总奖励"; "超额标记"; "作品标识"; "状态"].






(** ** The page (app.py) *)






(** ** More sample data *)

(** A Bilibili row whose popular flag is an empty cell. *)
Definition nan_flag_row : row :=
  mk_row [("渠道", CStr "B站"); ("播放量", CNum 60000); ("作品类型", CStr "长视频");
          ("B站热门", CNaN)].





(** ** The activity store (activity_store.py)

    The store keeps the activities in one JSON file.  A JSON value is
    modelled as such; what [json.dump] writes, [json.load] reads back.  The
    functions run over the state of the file; the identifier [uuid.uuid4()]
    returns in a call is an argument of the call. *)

Module Store.

#[local] Set Warnings "-register-all".

Inductive json : Type :=
| JNull
| JBool (b : bool)
| JNum (q : Q)
| JNaN
| JStr (s : string)
| JList (l : list json)
| JDict (d : gmap string json).

(** A Python dict with text keys. *)
Abbreviation dict := (gmap string json).

(** The file of the activities: missing, not JSON (with the message of the
    decoder), or holding a value. *)
Inductive file : Type :=
| NoFile
| BadFile (msg : string)
| JsonFile (v : json).

(** The exceptions of the module. *)
Inductive error : Type :=
| JSONDecodeError (msg : string)
| ValueError (msg : string)
| AttributeError
| TypeError
| KeyError.

(** A call runs over the file and returns or raises. *)
Definition IO (A : Type) : Type := file -> (A + error) * file.

Definition ret {A} (a : A) : IO A := fun f => (inl a, f).

Definition raise {A} (e : error) : IO A := fun f => (inr e, f).

Definition bind {A B} (m : IO A) (k : A -> IO B) : IO B :=
  fun f =>
    match m f with
    | (inl a, f') => k a f'
    | (inr e, f') => (inr e, f')
    end.

(** [str] of a value that is not text is left to an interface. *)
Class ValueSyntax : Type := { repr_json : json -> string }.

Definition str_json `{ValueSyntax} (v : json) : string :=
  match v with
  | JStr s => s
  | JNull => "None"
  | JBool true => "True"
  | JBool false => "False"
  | v => repr_json v
  end.

(** Truth value, as [not x] and [x or y] test it. *)
Definition truthy_json (v : json) : bool :=
  match v with
  | JNull => false
  | JBool b => b
  | JNum q => negb (Qeq_bool q 0)
  | JNaN => true
  | JStr s => negb (String.eqb s EmptyString)
  | JList l => negb (is_empty l)
  | JDict d => negb (bool_decide (d = ∅))
  end.

(** [d.get(key)]: [None] for a missing key *)
Definition get (key : string) (d : dict) : json := default JNull (d !! key).

(** [d.get(key, fallback)] *)
Definition get_or (key : string) (fallback : json) (d : dict) : json :=
  default fallback (d !! key).

(** [x or y] *)
Definition or_else (x y : json) : json := if truthy_json x then x else y.

(** [value == text] *)
Definition is_text (v : json) (text : string) : bool :=
  match v with
  | JStr s => String.eqb s text
  | _ => false
  end.

Definition mk_dict (l : list (string * json)) : dict := list_to_map l.

(** *** The constants imported from reward_logic.py, as JSON *)

Definition REWARD_VERSION : string := "v20250305".

Definition tier_record (label : string) (threshold a b c : Q) : json :=
  JDict (mk_dict [("梯度", JStr label); ("阈值", JNum threshold);
                  ("抖音/视频号", JNum a); ("小红书", JNum b); ("B站", JNum c)]).

(** [DEFAULT_REWARD_TABLE.to_dict(orient="records")] *)
Definition DEFAULT_REWARD_TABLE : json :=
  JList [ tier_record "100w+" 1000000 300 900 1800;
          tier_record "50w+" 500000 150 450 900;
          tier_record "20w+" 200000 60 180 360;
          tier_record "10w+" 100000 30 90 180;
          tier_record "5w+" 50000 15 45 90;
          tier_record "3w+" 30000 10 30 60;
          tier_record "1w+" 10000 5 15 30 ].

Definition quality_record (name field : string) (threshold add : Q) (only_short : bool)
  : json :=
  JDict (mk_dict [("名称", JStr name); ("字段", JStr field); ("阈值", JNum threshold);
                  ("加成", JNum add); ("仅短视频", JBool only_short);
                  ("适用渠道", JStr "全部")]).

Definition DEFAULT_QUALITY_RULES : json :=
  JList [ quality_record "短视频点赞≥10w" "点赞" 100000 300 true;
          quality_record "播放≥200w" "播放量" 2000000 1000 false;
          quality_record "评论≥5000" "评论数" 5000 200 false ].

Definition DEFAULT_TIME_RULES : json :=
  JList [ JDict (mk_dict [("名称", JStr "热点/主题加50");
                          ("关键词", JList [JStr "热点推荐"; JStr "新春主题"; JStr "长期主题";
                                            JStr "2月主题"]);
                          ("播放下限", JNum 10000); ("加成", JNum 50)]) ].

Definition DEFAULT_BASE_MODE : string := "档位".

Definition DEFAULT_BASE_PARAMS : json :=
  JDict (mk_dict [("mode", JStr DEFAULT_BASE_MODE);
                  ("tiers", DEFAULT_REWARD_TABLE);
                  ("cpm", JDict (mk_dict [("抖音/视频号", JNum (3 # 10));
                                          ("小红书", JNum (9 # 10));
                                          ("B站", JNum (18 # 10))]));
                  ("pool", JDict (mk_dict [("total", JNum 10000);
                                           ("min_play", JNum 10000)]))]).

(** *** The functions *)

Definition _default_rule : dict :=
  mk_dict [("id", JStr "rule_default"); ("name", JStr "默认规则");
           ("version", JStr REWARD_VERSION); ("table", DEFAULT_REWARD_TABLE);
           ("quality_rules", DEFAULT_QUALITY_RULES); ("time_rules", DEFAULT_TIME_RULES);
           ("base_mode", JStr DEFAULT_BASE_MODE); ("base_params", DEFAULT_BASE_PARAMS)].

(** [uuid] is the identifier [uuid.uuid4()] gives. *)
Definition _default_activity (uuid : string) : dict :=
  mk_dict [("id", JStr uuid); ("name", JStr "默认活动"); ("period", JStr "第一期");
           ("start_date", JStr EmptyString); ("end_date", JStr EmptyString);
           ("status", JStr "进行中"); ("remark", JStr "系统自动创建的默认活动");
           ("rule_versions", JList [JDict _default_rule])].

(** [json.dump(activities, f)] *)
Definition save_activities (activities : list dict) : IO unit :=
  fun _ => (inl tt, JsonFile (JList (map JDict activities))).

Definition ensure_activities_file (uuid : string) : IO unit :=
  fun f =>
    match f with
    | NoFile => save_activities [_default_activity uuid] f
    | _ => (inl tt, f)
    end.

(** One turn of the loop of [_normalize_rule_versions]: what is appended. *)
Definition normalize_item `{ValueSyntax} (item : json) : option dict :=
  match item with
  | JDict item =>
      Some (mk_dict
              [("id", JStr (str_json (get_or "id" (JStr "rule_default") item)));
               ("name", JStr (str_json (get_or "name" (JStr "默认规则") item)));
               ("version", JStr (str_json (get_or "version" (JStr REWARD_VERSION) item)));
               ("table", or_else (get "table" item) DEFAULT_REWARD_TABLE);
               ("quality_rules", or_else (get "quality_rules" item) DEFAULT_QUALITY_RULES);
               ("time_rules", or_else (get "time_rules" item) DEFAULT_TIME_RULES);
               ("base_mode", JStr (str_json (get_or "base_mode" (JStr DEFAULT_BASE_MODE) item)));
               ("base_params", get_or "base_params" DEFAULT_BASE_PARAMS item)])
  | _ => None
  end.

Definition _normalize_rule_versions `{ValueSyntax} (rules : json) : list dict :=
  match rules with
  | JList items =>
      let result := omap normalize_item items in
      if is_empty result then [_default_rule] else result
  | _ => [_default_rule]
  end.

(** The body of the loop of [load_activities] on one activity: the
    activity after it, and whether [changed] was set. *)
Definition migrate_first (r0 : dict) : dict * bool :=
  let '(r0, changed) :=
    if negb (is_text (get "version" r0) REWARD_VERSION)
    then (<["version" := JStr REWARD_VERSION]>
            (<["base_params" := DEFAULT_BASE_PARAMS]>
               (<["base_mode" := JStr DEFAULT_BASE_MODE]>
                  (<["time_rules" := DEFAULT_TIME_RULES]>
                     (<["quality_rules" := DEFAULT_QUALITY_RULES]>
                        (<["table" := DEFAULT_REWARD_TABLE]> r0))))), true)
    else (r0, false) in
  let '(r0, changed) :=
    if bool_decide (r0 !! "quality_rules" = None)
    then (<["quality_rules" := DEFAULT_QUALITY_RULES]> r0, true) else (r0, changed) in
  let '(r0, changed) :=
    if bool_decide (r0 !! "time_rules" = None)
    then (<["time_rules" := DEFAULT_TIME_RULES]> r0, true) else (r0, changed) in
  let '(r0, changed) :=
    if bool_decide (r0 !! "base_mode" = None)
    then (<["base_mode" := JStr DEFAULT_BASE_MODE]> r0, true) else (r0, changed) in
  if bool_decide (r0 !! "base_params" = None)
  then (<["base_params" := DEFAULT_BASE_PARAMS]> r0, true) else (r0, changed).

Definition migrate_activity `{ValueSyntax} (act : json) : (dict * bool) + error :=
  match act with
  | JDict act =>
      match _normalize_rule_versions (get "rule_versions" act) with
      | r0 :: rest =>
          let '(r0, changed) := migrate_first r0 in
          inl (<["rule_versions" := JList (map JDict (r0 :: rest))]> act, changed)
      | [] => inl (<["rule_versions" := JList []]> act, false)
      end
  | _ => inr AttributeError
  end.

Fixpoint migrate_all `{ValueSyntax} (data : list json) : (list dict * bool) + error :=
  match data with
  | [] => inl ([], false)
  | act :: rest =>
      match migrate_activity act with
      | inl (act, changed) =>
          match migrate_all rest with
          | inl (rest, changed') => inl (act :: rest, changed || changed')
          | inr e => inr e
          end
      | inr e => inr e
      end
  end.

(** [json.load(f)] on the file [ensure_activities_file] has left *)
Definition json_load : IO json :=
  fun f =>
    match f with
    | JsonFile v => (inl v, f)
    | BadFile msg => (inr (JSONDecodeError msg), f)
    | NoFile => (inr (JSONDecodeError EmptyString), f)
    end.

Definition load_activities `{ValueSyntax} (uuid : string) : IO (list dict) :=
  bind (ensure_activities_file uuid) (fun _ =>
  bind json_load (fun raw_data =>
  let data := match raw_data with JList l => l | _ => [] end in
  let data := if is_empty data then [JDict (_default_activity uuid)] else data in
  match migrate_all data with
  | inl (data, changed) =>
      if changed then bind (save_activities data) (fun _ => ret data) else ret data
  | inr e => raise e
  end)).

(** [payload.get(key, fallback)] on a mapping of texts *)
Definition payload_get (key fallback : string) (payload : gmap string string) : json :=
  JStr (default fallback (payload !! key)).

(** [uuid] is the identifier of the new activity, [uuid0] the one
    [load_activities] may need. *)
Definition add_activity `{ValueSyntax} (payload : gmap string string) (uuid0 uuid : string)
  : IO dict :=
  bind (load_activities uuid0) (fun activities =>
  let new_activity :=
    mk_dict [("id", JStr uuid);
             ("name", payload_get "name" "新活动" payload);
             ("period", payload_get "period" EmptyString payload);
             ("start_date", payload_get "start_date" EmptyString payload);
             ("end_date", payload_get "end_date" EmptyString payload);
             ("status", payload_get "status" "草稿" payload);
             ("remark", payload_get "remark" EmptyString payload);
             ("rule_versions", JList [JDict _default_rule])] in
  bind (save_activities (activities ++ [new_activity])) (fun _ => ret new_activity)).

(** [x = v] when the optional argument is given *)
Definition set_if (key : string) (v : option json) (d : dict) : dict :=
  match v with
  | Some v => <[key := v]> d
  | None => d
  end.

(** The assignments of [update_activity_rule] on the activity found. *)
Definition update_rule (act : dict) (table_records : json)
           (quality_rules time_rules base_mode base_params : option json)
  : dict + error :=
  let rules := or_else (get "rule_versions" act) (JList [JDict _default_rule]) in
  match rules with
  | JList (JDict r0 :: rest) =>
      let r0 := <["table" := table_records]> r0 in
      let r0 := set_if "quality_rules" quality_rules r0 in
      let r0 := set_if "time_rules" time_rules r0 in
      let r0 := set_if "base_mode" base_mode r0 in
      let r0 := set_if "base_params" base_params r0 in
      inl (<["rule_versions" := JList (JDict r0 :: rest)]> act)
  | JDict _ => inr KeyError
  | _ => inr TypeError
  end.

(** A loop that changes the first activity of the given id and stops. *)
Fixpoint update_first (activity_id : string) (f : dict -> dict + error)
         (activities : list dict) : list dict + error :=
  match activities with
  | [] => inl []
  | act :: rest =>
      if is_text (get "id" act) activity_id
      then match f act with
           | inl act => inl (act :: rest)
           | inr e => inr e
           end
      else match update_first activity_id f rest with
           | inl rest => inl (act :: rest)
           | inr e => inr e
           end
  end.

Definition update_activity_rule `{ValueSyntax} (activity_id : string) (table_records : json)
           (quality_rules time_rules base_mode base_params : option json) (uuid0 : string)
  : IO unit :=
  bind (load_activities uuid0) (fun activities =>
  match update_first activity_id
          (fun act => update_rule act table_records quality_rules time_rules base_mode
                                  base_params) activities with
  | inl activities => save_activities activities
  | inr e => raise e
  end).

(** [payload.get(key, act.get(key, empty))], [empty] being the empty text *)
Definition meta_field (key : string) (payload : gmap string string) (act : dict) : json :=
  match payload !! key with
  | Some s => JStr s
  | None => get_or key (JStr EmptyString) act
  end.

Definition update_meta (payload : gmap string string) (act : dict) : dict + error :=
  let act := <["name" := meta_field "name" payload act]> act in
  let act := <["period" := meta_field "period" payload act]> act in
  let act := <["start_date" := meta_field "start_date" payload act]> act in
  let act := <["end_date" := meta_field "end_date" payload act]> act in
  let act := <["status" := meta_field "status" payload act]> act in
  let act := <["remark" := meta_field "remark" payload act]> act in
  inl (if negb (truthy_json (get "rule_versions" act))
       then <["rule_versions" := JList [JDict _default_rule]]> act
       else act).

Definition update_activity_meta `{ValueSyntax} (activity_id : string)
           (payload : gmap string string) (uuid0 : string) : IO unit :=
  bind (load_activities uuid0) (fun activities =>
  match update_first activity_id (update_meta payload) activities with
  | inl activities => save_activities activities
  | inr e => raise e
  end).

Definition get_activity_by_id `{ValueSyntax} (activity_id : string) (uuid0 : string)
  : IO (option dict) :=
  bind (load_activities uuid0) (fun activities =>
  ret (find (fun act => is_text (get "id" act) activity_id) activities)).

Definition delete_activity `{ValueSyntax} (activity_id : string) (uuid0 : string) : IO unit :=
  bind (load_activities uuid0) (fun activities =>
  if (List.length activities <=? 1)%nat
  then raise (ValueError "至少保留一个活动，无法删除最后一个活动")
  else
    let filtered :=
      List.filter (fun act => negb (is_text (get "id" act) activity_id)) activities in
    if (List.length filtered =? List.length activities)%nat
    then ret tt
    else save_activities filtered).

(** *** What the loop of [load_activities] leaves *)

(** A rule dict as [_normalize_rule_versions] builds it. *)
Definition rule_of (id name version : string) (table quality_rules time_rules : json)
           (base_mode : string) (base_params : json) : dict :=
  mk_dict [("id", JStr id); ("name", JStr name); ("version", JStr version);
           ("table", table); ("quality_rules", quality_rules); ("time_rules", time_rules);
           ("base_mode", JStr base_mode); ("base_params", base_params)].

Definition normal_rule (r : dict) : Prop :=
  exists id name version table quality_rules time_rules base_mode base_params,
    truthy_json table = true /\ truthy_json quality_rules = true
    /\ truthy_json time_rules = true
    /\ r = rule_of id name version table quality_rules time_rules base_mode base_params.

(** An activity the loop leaves as it is. *)
Definition stable_activity `{ValueSyntax} (act : dict) : Prop :=
  migrate_activity (JDict act) = inl (act, false).

(** The file once [ensure_activities_file] has run. *)
Definition ensured (uuid : string) (f : file) : file :=
  match f with
  | NoFile => JsonFile (JList [JDict (_default_activity uuid)])
  | _ => f
  end.

(** The activities the file holds, as [load_activities] reads them. *)
Definition held (uuid : string) (f : file) : list json :=
  match ensured uuid f with
  | JsonFile (JList (a :: l)) => a :: l
  | _ => [JDict (_default_activity uuid)]
  end.

Definition has_id (activity_id : string) (act : dict) : bool :=
  is_text (get "id" act) activity_id.

Definition is_dict (v : json) : bool :=
  match v with
  | JDict _ => true
  | _ => false
  end.

(** The activity [add_activity] makes. *)
Definition new_activity (payload : gmap string string) (uuid : string) : dict :=
  mk_dict [("id", JStr uuid);
           ("name", payload_get "name" "新活动" payload);
           ("period", payload_get "period" EmptyString payload);
           ("start_date", payload_get "start_date" EmptyString payload);
           ("end_date", payload_get "end_date" EmptyString payload);
           ("status", payload_get "status" "草稿" payload);
           ("remark", payload_get "remark" EmptyString payload);
           ("rule_versions", JList [JDict _default_rule])].

(** *** Sample data *)

(** A value syntax to run the model on: numbers print by their integer
    part, lists and dicts are not printed. *)
Definition sample_values : ValueSyntax :=
  {| repr_json := fun v =>
                    match v with
                    | JNum q => decimal_str q
                    | JNaN => "nan"
                    | _ => EmptyString
                    end |}.

(** A file that holds two activities. *)
Definition two_activities : file :=
  JsonFile (JList [JDict (_default_activity "a"); JDict (_default_activity "b")]).

End Store.

(** ** Properties *)

Local Open Scope list_scope.

Section Calculators.

Context `{NumberSyntax}.



(** *** The tier lookup *)







(** *** The platform bonus *)

Lemma cell_is_true c text : cell_is (Some c) text = true <-> c = CStr text.
Proof.
  destruct c; simpl; try (split; [discriminate | congruence]).
  unfold str_eqb. rewrite String.eqb_eq. split; congruence.
Qed.

(** C5. The platform bonus is 0 for a row whose channel is not Bilibili;
    for a Bilibili row it is the maximum of the triggered candidates, 100
    (trending text marker or truthy trending flag) and 200 (popular text
    marker or truthy popular flag), 0 when none is triggered; a content
    type that carries both markers, with no flag set, gives 200. *)
Theorem bilibili_extra_is_max (r : row) :
  (cell_at "渠道" r <> CStr "B站" -> bilibili_extra r = 0%Z)
  /\ (cell_at "渠道" r = CStr "B站" ->
      bilibili_extra r
      = Z.max (if trending r then 100 else 0) (if popular r then 200 else 0))
  /\ (cell_at "渠道" r = CStr "B站" ->
      Text.contains "热搜" (type_text r) = true ->
      Text.contains "热门" (type_text r) = true ->
      bool_from_any (r !! "B站热搜") || bool_from_any (r !! "热搜") = false ->
      bool_from_any (r !! "B站热门") || bool_from_any (r !! "热门") = false ->
      bilibili_extra r = 200%Z).
Proof.
  unfold bilibili_extra, bilibili_candidates, trending, popular.
  repeat split.
  - intros Hne. destruct (cell_is _ _) eqn:E; [| reflexivity].
    apply cell_is_true in E. contradiction.
  - intros Hc. apply cell_is_true in Hc. rewrite Hc. simpl.
    destruct (Text.contains "热搜" _), (Text.contains "热门" _),
      (bool_from_any (r !! "B站热搜")), (bool_from_any (r !! "热搜")),
      (bool_from_any (r !! "B站热门")), (bool_from_any (r !! "热门")); reflexivity.
  - intros Hc Ht Hp Hf1 Hf2. apply cell_is_true in Hc.
    rewrite Hc, Ht, Hp, Hf1, Hf2. reflexivity.
Qed.

(** *** Quality rules *)

(** C6, as the code has it. A quality rule of threshold 0 whose two gates
    pass adds its bonus when the target field is absent from the row, or
    holds a value that [or 0] replaces (None, empty text, False, zero), or
    holds a number that is not negative. *)
Theorem quality_rule_zero_threshold (r : row) (rule_item : quality_rule) :
  gates_pass r rule_item = true ->
  (default 0 (q_threshold rule_item) == 0)%Q ->
  r !! default EmptyString (q_field rule_item) = None
  \/ (exists c, r !! default EmptyString (q_field rule_item) = Some c /\ truthy c = false)
  \/ (exists q, r !! default EmptyString (q_field rule_item) = Some (CNum q) /\ (0 <= q)%Q) ->
  quality_rule_applies r rule_item = Ok true.
Proof.
  unfold gates_pass, quality_rule_applies. intros Hg Hthr Hfield.
  apply andb_true_iff in Hg. destruct Hg as [Hg1 Hg2].
  apply negb_true_iff in Hg1, Hg2. rewrite Hg1, Hg2.
  assert (Hzero : Qle_bool (default 0%Q (q_threshold rule_item)) 0 = true).
  { apply Qle_bool_iff. rewrite Hthr. apply Qle_refl. }
  destruct Hfield as [-> | [(c & -> & Hc) | (q & -> & Hq)]]; simpl.
  - now rewrite Hzero.
  - rewrite Hc. simpl. now rewrite Hzero.
  - destruct (negb (Qeq_bool q 0)); simpl; [| now rewrite Hzero].
    f_equal. apply Qle_bool_iff. now rewrite Hthr.
Qed.

(** *** Numeric coercion *)

Lemma lookup_assign_same (col : string) (v : cell) (r : row) :
  <[col := v]> r !! col = Some v.
Proof. apply lookup_insert_eq. Qed.

(** C9, as the code has it. After the coercion pass every row holds a
    number as its play count: the number the cell already was (negative
    ones included), the number its text reads as, and 0 for text that is
    not a number, for NaN and for None. *)
Theorem play_count_coerced (work : DataFrame) :
  Forall2 (fun r0 r => r !! "播放量" = Some (CNum (to_numeric (cell_at "播放量" r0))))
          (rows work) (rows (normalize_columns work))
  /\ (forall q, to_numeric (CNum q) = q)
  /\ (forall s, to_numeric_text s = None -> to_numeric (CStr s) = 0%Q)
  /\ to_numeric CNaN = 0%Q
  /\ to_numeric CNone = 0%Q.
Proof.
  split; [| repeat split; try reflexivity; intros s Hs; simpl; now rewrite Hs].
  unfold normalize_columns, coerce_or_zero.
  repeat match goal with
         | |- context [if ?b then _ else _] => destruct b
         end; simpl; rewrite !List.map_map;
    (induction (rows work) as [| r l IH]; simpl; constructor; [| exact IH]);
    repeat (rewrite lookup_insert_ne by discriminate);
    rewrite lookup_insert_eq; unfold cell_at;
    repeat (rewrite lookup_insert_ne by discriminate); reflexivity.
Qed.

End Calculators.

Section Store.

Context `{NumberSyntax}.

Lemma lookup_fresh (h ext : store) (k : nat) :
  (h ++ ext) !! (List.length h + k)%nat = ext !! k.
Proof.
  rewrite lookup_app_r by lia. f_equal. lia.
Qed.

Lemma insert_fresh (h ext : store) (k : nat) (o : pyobj) :
  <[(List.length h + k)%nat := o]> (h ++ ext) = h ++ <[k := o]> ext.
Proof.
  rewrite insert_app_r_alt by lia. do 2 f_equal. lia.
Qed.

Lemma run_get_frame (h ext : store) (k : nat) (d : DataFrame) :
  ext !! k = Some (ObjFrame d) ->
  get_frame (List.length h + k) (h ++ ext) = (Ok d, h ++ ext).
Proof.
  intros E. unfold get_frame. now rewrite lookup_fresh, E.
Qed.

Lemma run_update (h ext : store) (k : nat) (d : DataFrame) (f : DataFrame -> DataFrame) :
  ext !! k = Some (ObjFrame d) ->
  update (List.length h + k) f (h ++ ext) = (Ok tt, h ++ <[k := ObjFrame (f d)]> ext).
Proof.
  intros E. unfold update, bind. rewrite (run_get_frame _ _ _ _ E).
  unfold set_frame. now rewrite insert_fresh.
Qed.

Lemma run_update_result (h ext : store) (k : nat) (d : DataFrame)
      (f : DataFrame -> result DataFrame) :
  ext !! k = Some (ObjFrame d) ->
  update_result (List.length h + k) f (h ++ ext)
  = match f d with
    | Ok d' => (Ok tt, h ++ <[k := ObjFrame d']> ext)
    | Raise e => (Raise e, h ++ ext)
    end.
Proof.
  intros E. unfold update_result, bind. rewrite (run_get_frame _ _ _ _ E).
  unfold lift. destruct (f d); [| reflexivity].
  unfold set_frame. now rewrite insert_fresh.
Qed.

Lemma run_derive (h ext : store) (k : nat) (d : DataFrame) (f : DataFrame -> DataFrame) :
  ext !! k = Some (ObjFrame d) ->
  derive (List.length h + k) f (h ++ ext)
  = (Ok (List.length h + List.length ext)%nat, h ++ (ext ++ [ObjFrame (f d)])).
Proof.
  intros E. unfold derive, bind. rewrite (run_get_frame _ _ _ _ E).
  unfold new_frame. now rewrite length_app, <- app_assoc.
Qed.

Lemma run_derive_old (h : store) (l : ref) (d : DataFrame) (f : DataFrame -> DataFrame) :
  h !! l = Some (ObjFrame d) ->
  derive l f h = (Ok (List.length h + 0)%nat, h ++ [ObjFrame (f d)]).
Proof.
  intros E. unfold derive, bind, get_frame. rewrite E.
  unfold new_frame. now rewrite Nat.add_0_r.
Qed.

(** The call on a store that holds a frame at [df] and a rule at [rule]:
    the store grows by the objects the call creates, and the outcome is
    the table computed from the two values. *)
Lemma compute_rewards_run (h : store) (df rule : ref) (d : DataFrame) (r : rule_object) :
  h !! df = Some (ObjFrame d) ->
  h !! rule = Some (ObjRule r) ->
  exists res ext,
    compute_rewards df rule h = (res, h ++ ext)
    /\ outcome (res, h ++ ext) = rewards_table d r.
Proof.
  intros Hd Hr. unfold compute_rewards, rewards_table, scored_table, finish_table.
  unfold bind at 1. unfold get_rule. rewrite Hr. cbv beta zeta.
  generalize (_extract_rule_config r) as cfg. intros cfg.
  generalize (bonuses cfg) as f_bonus, (base_rewards cfg) as f_base,
    (plays_sum cfg) as f_sum.
  generalize validate as f_check, normalize_columns as f_norm, mark_rows as f_mark,
    totals as f_total, sort_values as f_sort, reset_index as f_reset,
    add_status as f_status, select_columns as f_select, ordered_columns as f_order,
    align_columns as f_align.
  intros.
  unfold bind at 1. rewrite (run_derive_old _ _ _ _ Hd).
  unfold bind at 1. rewrite (run_derive h [_] 0 _ _ eq_refl).
  cbn [List.length app Nat.add].
  unfold bind at 1. unfold bind at 1.
  rewrite (run_get_frame h [_; _] 1 _ eq_refl). unfold lift.
  change (id d) with d.
  destruct (f_check (f_align d)) as [[] | e] eqn:Ev; cbn [result_bind].
  2:{ eexists _, _. split; reflexivity. }
  unfold bind at 1. rewrite (run_update h [_; _] 1 _ _ eq_refl). cbn [insert list_insert].
  unfold bind at 1. rewrite (run_update h [_; _] 1 _ _ eq_refl). cbn [insert list_insert].
  unfold bind at 1. unfold bind at 1.
  rewrite (run_get_frame h [_; _] 1 _ eq_refl). unfold ret.
  unfold bind at 1. rewrite (run_update h [_; _] 1 _ _ eq_refl). cbn [insert list_insert].
  unfold bind at 1. rewrite (run_update_result h [_; _] 1 _ _ eq_refl).
  destruct (f_bonus _) as [w | e] eqn:Eb; cbn [result_bind].
  2:{ eexists _, _. split; reflexivity. }
  cbn [insert list_insert].
  unfold bind at 1. rewrite (run_update h [_; _] 1 _ _ eq_refl). cbn [insert list_insert].
  unfold bind at 1. rewrite (run_derive h [_; _] 1 _ _ eq_refl).
  cbn [List.length app Nat.add].
  unfold bind at 1. rewrite (run_derive h [_; _; _] 2 _ _ eq_refl).
  cbn [List.length app Nat.add].
  unfold bind at 1. rewrite (run_update h [_; _; _; _] 3 _ _ eq_refl).
  cbn [insert list_insert].
  unfold bind at 1. rewrite (run_get_frame h [_; _; _; _] 3 _ eq_refl).
  rewrite (run_derive h [_; _; _; _] 3 _ _ eq_refl).
  cbn [List.length app Nat.add].
  eexists _, _. split; [reflexivity |].
  unfold outcome. now rewrite lookup_fresh.
Qed.

Lemma compute_rewards_no_rule (h : store) (df rule : ref) :
  (forall r, h !! rule <> Some (ObjRule r)) ->
  compute_rewards df rule h = (Raise AttributeError, h).
Proof.
  intros Hr. unfold compute_rewards. unfold bind at 1. unfold get_rule.
  destruct (h !! rule) as [[d | r] |]; try reflexivity.
  now destruct (Hr r).
Qed.

Lemma compute_rewards_no_frame (h : store) (df rule : ref) (r : rule_object) :
  h !! rule = Some (ObjRule r) ->
  (forall d, h !! df <> Some (ObjFrame d)) ->
  compute_rewards df rule h = (Raise AttributeError, h).
Proof.
  intros Hr Hd. unfold compute_rewards. unfold bind at 1. unfold get_rule.
  rewrite Hr. unfold bind at 1. unfold derive. unfold bind at 1. unfold get_frame.
  destruct (h !! df) as [[d | r'] |]; try reflexivity.
  now destruct (Hd d).
Qed.

(** The three ways a call can go, by what the store holds at the two
    arguments. *)
Lemma compute_rewards_cases (h : store) (df rule : ref) :
  compute_rewards df rule h = (Raise AttributeError, h)
  \/ exists d r res ext,
       h !! df = Some (ObjFrame d) /\ h !! rule = Some (ObjRule r)
       /\ compute_rewards df rule h = (res, h ++ ext)
       /\ outcome (res, h ++ ext) = rewards_table d r.
Proof.
  destruct (h !! rule) as [[d' | r] |] eqn:Hr.
  - left. apply compute_rewards_no_rule. intros r. congruence.
  - destruct (h !! df) as [[d | r'] |] eqn:Hd.
    + right. destruct (compute_rewards_run h df rule d r Hd Hr) as (res & ext & E & Ho).
      exists d, r, res, ext. auto.
    + left. eapply compute_rewards_no_frame; eauto. intros d. congruence.
    + left. eapply compute_rewards_no_frame; eauto. intros d. congruence.
  - left. apply compute_rewards_no_rule. intros r. congruence.
Qed.

(** C10. The call leaves every object of the store as it was: the store
    after the call is the store before it followed by the objects the call
    created, so the dataset and the rule the caller passed are unchanged,
    whether the call returns a table or raises. *)
Theorem compute_rewards_keeps_inputs (h : store) (df rule : ref) :
  (exists created, snd (compute_rewards df rule h) = h ++ created)
  /\ snd (compute_rewards df rule h) !! df = h !! df
  /\ snd (compute_rewards df rule h) !! rule = h !! rule.
Proof.
  destruct (compute_rewards_cases h df rule) as [E | (d & r & res & ext & Hd & Hr & E & _)];
    rewrite E; simpl.
  - split; [exists []; now rewrite app_nil_r | auto].
  - split; [eauto |].
    rewrite Hd, Hr. split; apply lookup_app_l_Some; assumption.
Qed.

(** C8. The table depends on the values of the dataset and of the rule
    only: two calls on stores that hold the same dataset and the same rule
    give the same outcome, and so does a second call made after the
    first, on the store the first one left. *)
Theorem compute_rewards_deterministic
        (h1 h2 : store) (df1 rule1 df2 rule2 : ref) (d : DataFrame) (r : rule_object) :
  h1 !! df1 = Some (ObjFrame d) -> h1 !! rule1 = Some (ObjRule r) ->
  h2 !! df2 = Some (ObjFrame d) -> h2 !! rule2 = Some (ObjRule r) ->
  outcome (compute_rewards df1 rule1 h1) = outcome (compute_rewards df2 rule2 h2)
  /\ outcome (compute_rewards df1 rule1 (snd (compute_rewards df1 rule1 h1)))
     = outcome (compute_rewards df1 rule1 h1).
Proof.
  intros Hd1 Hr1 Hd2 Hr2.
  destruct (compute_rewards_run h1 df1 rule1 d r Hd1 Hr1) as (res1 & ext1 & E1 & O1).
  destruct (compute_rewards_run h2 df2 rule2 d r Hd2 Hr2) as (res2 & ext2 & E2 & O2).
  rewrite E1, E2, O1, O2. split; [reflexivity |]. simpl.
  destruct (compute_rewards_run (h1 ++ ext1) df1 rule1 d r) as (res3 & ext3 & E3 & O3).
  - now apply lookup_app_l_Some.
  - now apply lookup_app_l_Some.
  - now rewrite E3, O3.
Qed.

End Store.

Section Validation.

Context `{NumberSyntax}.












End Validation.

Section Sorting.

Context `{NumberSyntax}.

Lemma string_compare_refl (s : string) : String.compare s s = Eq.
Proof. now apply String_as_OT.cmp_eq. Qed.

Lemma string_compare_lt_trans (a b c : string) :
  String.compare a b = Lt -> String.compare b c = Lt -> String.compare a c = Lt.
Proof.
  intros Hab Hbc. apply String_as_OT.cmp_lt.
  eapply String_as_OT.lt_trans; apply String_as_OT.cmp_lt; eassumption.
Qed.

Lemma string_compare_gt (a b : string) :
  String.compare a b = Gt -> String.compare b a = Lt.
Proof.
  intros E. rewrite String.compare_antisym, E. reflexivity.
Qed.

Ltac split_keys :=
  repeat match goal with
         | K : _ \/ _ |- _ => destruct K as [K | K]
         | K : _ /\ _ |- _ => destruct K
         end.

Ltac key_clash :=
  solve [ discriminate
        | match goal with
          | E : ?x = ?y, C : String.compare ?x ?y = _ |- _ =>
              rewrite E, string_compare_refl in C; discriminate C
          | L : (?p <= ?q)%Q, G : (?q < ?p)%Q |- _ =>
              exfalso; exact (Qlt_not_le _ _ G L)
          | E : (?p == ?q)%Q, G : (?q < ?p)%Q |- _ =>
              rewrite E in G; exfalso; exact (Qlt_irrefl _ G)
          | E : (?p == ?q)%Q, G : (?p < ?q)%Q |- _ =>
              rewrite E in G; exfalso; exact (Qlt_irrefl _ G)
          end ].

Lemma sort_leb_key_le (a b : row) : sort_leb a b = true <-> key_le a b.
Proof.
  unfold sort_leb, sort_compare, key_le.
  destruct (String.compare (text_at "期数" a) (text_at "期数" b)) eqn:E1;
    [apply String.compare_eq_iff in E1 | split; auto
    | split; intros K; split_keys; key_clash].
  destruct (String.compare (text_at "账号标识" a) (text_at "账号标识" b)) eqn:E2;
    [apply String.compare_eq_iff in E2 | split; auto
    | split; intros K; split_keys; key_clash].
  destruct (String.compare (text_at "作品标识" a) (text_at "作品标识" b)) eqn:E3;
    [apply String.compare_eq_iff in E3 | split; auto 10
    | split; intros K; split_keys; key_clash].
  destruct (Qcompare (total_at b) (total_at a)) eqn:E4.
  - apply Qeq_alt in E4. split; [| reflexivity]. intros _.
    right. split; [assumption |]. right. split; [assumption |]. right.
    split; [assumption |]. rewrite E4. apply Qle_refl.
  - apply Qlt_alt in E4. split; [| reflexivity]. intros _.
    right. split; [assumption |]. right. split; [assumption |]. right.
    split; [assumption |]. now apply Qlt_le_weak.
  - apply Qgt_alt in E4. split; intros K; split_keys; key_clash.
Qed.

Lemma same_key_key_eq (a b : row) : same_key a b = true <-> key_eq a b.
Proof.
  unfold same_key, sort_compare, key_eq.
  destruct (String.compare (text_at "期数" a) (text_at "期数" b)) eqn:E1;
    [apply String.compare_eq_iff in E1 | split; intros K; split_keys; key_clash ..].
  destruct (String.compare (text_at "账号标识" a) (text_at "账号标识" b)) eqn:E2;
    [apply String.compare_eq_iff in E2 | split; intros K; split_keys; key_clash ..].
  destruct (String.compare (text_at "作品标识" a) (text_at "作品标识" b)) eqn:E3;
    [apply String.compare_eq_iff in E3 | split; intros K; split_keys; key_clash ..].
  destruct (Qcompare (total_at b) (total_at a)) eqn:E4.
  - apply Qeq_alt in E4. split; [| reflexivity]. intros _. repeat split; auto.
    now symmetry.
  - apply Qlt_alt in E4. split; intros K; split_keys; key_clash.
  - apply Qgt_alt in E4. split; intros K; split_keys; key_clash.
Qed.

Lemma key_le_total (a b : row) : sort_leb a b = false -> key_le b a.
Proof.
  unfold sort_leb, sort_compare, key_le.
  destruct (String.compare (text_at "期数" a) (text_at "期数" b)) eqn:E1; try discriminate.
  2:{ intros _. left. now apply string_compare_gt. }
  apply String.compare_eq_iff in E1.
  destruct (String.compare (text_at "账号标识" a) (text_at "账号标识" b)) eqn:E2;
    try discriminate.
  2:{ intros _. right. split; [easy |]. left. now apply string_compare_gt. }
  apply String.compare_eq_iff in E2.
  destruct (String.compare (text_at "作品标识" a) (text_at "作品标识" b)) eqn:E3;
    try discriminate.
  2:{ intros _. right. split; [easy |]. right. split; [easy |]. left.
      now apply string_compare_gt. }
  apply String.compare_eq_iff in E3.
  destruct (Qcompare (total_at b) (total_at a)) eqn:E4; try discriminate.
  apply Qgt_alt in E4. intros _.
  right. split; [easy |]. right. split; [easy |]. right. split; [easy |].
  now apply Qlt_le_weak.
Qed.

Lemma key_le_trans (a b c : row) : key_le a b -> key_le b c -> key_le a c.
Proof.
  unfold key_le.
  intros [L1 | [E1 R1]] [L1' | [E1' R1']].
  - left. eapply string_compare_lt_trans; eassumption.
  - left. now rewrite <- E1'.
  - left. now rewrite E1.
  - right. split; [congruence |].
    destruct R1 as [L2 | [E2 R2]], R1' as [L2' | [E2' R2']].
    + left. eapply string_compare_lt_trans; eassumption.
    + left. now rewrite <- E2'.
    + left. now rewrite E2.
    + right. split; [congruence |].
      destruct R2 as [L3 | [E3 R3]], R2' as [L3' | [E3' R3']].
      * left. eapply string_compare_lt_trans; eassumption.
      * left. now rewrite <- E3'.
      * left. now rewrite E3.
      * right. split; [congruence |]. eapply Qle_trans; eassumption.
Qed.

Lemma key_eq_le (a b : row) : key_eq a b -> key_le a b.
Proof.
  intros (E1 & E2 & E3 & E4). unfold key_le.
  right. split; [easy |]. right. split; [easy |]. right. split; [easy |].
  rewrite E4. apply Qle_refl.
Qed.

Lemma key_eq_trans_sym (a x y : row) : key_eq a x -> key_eq a y -> key_eq x y.
Proof.
  intros (E1 & E2 & E3 & E4) (F1 & F2 & F3 & F4).
  repeat split; try congruence. now rewrite <- E4, <- F4.
Qed.

(** *** The insertion sort is a stable sort *)

Lemma insert_row_perm (x : row) (l : list row) : Permutation (insert_row x l) (x :: l).
Proof.
  induction l as [| y l IH]; simpl; [reflexivity |].
  destruct (sort_leb x y); [reflexivity |].
  rewrite IH. apply perm_swap.
Qed.

Lemma sort_rows_perm (l : list row) : Permutation (sort_rows l) l.
Proof.
  induction l as [| x l IH]; simpl; [reflexivity |].
  rewrite insert_row_perm. now constructor.
Qed.

Lemma insert_row_sorted (x : row) (l : list row) :
  StronglySorted key_le l -> StronglySorted key_le (insert_row x l).
Proof.
  induction 1 as [| y l Hs IH Hall]; simpl.
  - repeat constructor.
  - destruct (sort_leb x y) eqn:E.
    + apply sort_leb_key_le in E.
      constructor; [constructor; assumption |].
      constructor; [exact E |].
      rewrite List.Forall_forall in *. intros z Hz.
      eapply key_le_trans; [exact E | now apply Hall].
    + apply key_le_total in E.
      constructor; [exact IH |].
      rewrite List.Forall_forall in *. intros z Hz.
      apply (Permutation_in _ (insert_row_perm x l)) in Hz.
      destruct Hz as [<- | Hz]; [exact E | now apply Hall].
Qed.

Lemma sort_rows_sorted (l : list row) : StronglySorted key_le (sort_rows l).
Proof.
  induction l as [| x l IH]; simpl; [constructor |].
  now apply insert_row_sorted.
Qed.

Lemma insert_row_stable (a x : row) (l : list row) :
  List.filter (same_key a) (insert_row x l)
  = List.filter (same_key a) (x :: l).
Proof.
  induction l as [| y l IH]; [reflexivity |].
  cbn [insert_row]. destruct (sort_leb x y) eqn:E; [reflexivity |].
  cbn [List.filter] in *. rewrite IH.
  destruct (same_key a x) eqn:Ex, (same_key a y) eqn:Ey; try reflexivity.
  exfalso. apply same_key_key_eq in Ex, Ey.
  pose proof (key_eq_le _ _ (key_eq_trans_sym _ _ _ Ex Ey)) as Hle.
  apply sort_leb_key_le in Hle. congruence.
Qed.

Lemma sort_rows_stable (a : row) (l : list row) :
  List.filter (same_key a) (sort_rows l) = List.filter (same_key a) l.
Proof.
  induction l as [| x l IH]; [reflexivity |].
  cbn [sort_rows foldr]. fold (sort_rows l).
  rewrite insert_row_stable. cbn [List.filter]. now rewrite IH.
Qed.

End Sorting.

Section Frames.

Context `{NumberSyntax}.

Lemma has_column_true (c : string) (cols : list string) :
  has_column c cols = true <-> c ∈ cols.
Proof. unfold has_column. apply bool_decide_eq_true. Qed.

Lemma columns_assign (c col : string) (f : row -> cell) (w : DataFrame) :
  c ∈ columns (assign col f w) <-> c ∈ columns w \/ c = col.
Proof.
  unfold assign. cbn [columns].
  destruct (has_column col (columns w)) eqn:E.
  - apply has_column_true in E. split; [auto |]. intros [? | ->]; assumption.
  - rewrite elem_of_app, list_elem_of_singleton. reflexivity.
Qed.

Lemma rows_within_assign (col : string) (f : row -> cell) (w : DataFrame) :
  rows_within w -> rows_within (assign col f w).
Proof.
  unfold rows_within. intros Hw. cbn [rows assign].
  apply List.Forall_forall. intros r' Hr'. apply in_map_iff in Hr'.
  destruct Hr' as (r & <- & Hr). intros c Hc.
  apply columns_assign.
  destruct (decide (c = col)) as [-> | Hne]; [now right | left].
  rewrite lookup_insert_ne in Hc by congruence.
  rewrite List.Forall_forall in Hw. now apply (Hw r).
Qed.

Lemma rename_row_within (cols : list string) (r : row) (c : string) :
  is_Some (rename_row cols r !! c) -> c ∈ map alias_of cols.
Proof.
  unfold rename_row.
  assert (G : forall (l : list string) (acc : row),
             is_Some (foldl (fun acc col =>
                               match r !! col with
                               | Some v => <[alias_of col := v]> acc
                               | None => acc
                               end) acc l !! c) ->
             is_Some (acc !! c) \/ c ∈ map alias_of l).
  { induction l as [| col l IH]; intros acc Hc; cbn in *; [now left |].
    apply IH in Hc. destruct Hc as [Hc | Hc]; [| right; now right].
    destruct (r !! col); [| now left].
    destruct (decide (c = alias_of col)) as [-> | Hne]; [right; now left |].
    rewrite lookup_insert_ne in Hc by congruence. now left. }
  intros Hc. apply G in Hc. destruct Hc as [Hc | Hc]; [| exact Hc].
  rewrite lookup_empty in Hc. now destruct Hc.
Qed.

Lemma rows_within_align (df : DataFrame) : rows_within (align_columns df).
Proof.
  unfold rows_within, align_columns. cbn [rows columns].
  apply List.Forall_forall. intros r' Hr'. apply in_map_iff in Hr'.
  destruct Hr' as (r & <- & Hr). intros c. apply rename_row_within.
Qed.

Lemma map_result_map {A B C} (f : B -> result C) (g : A -> B) (l : list A) :
  map_result f (map g l) = map_result (fun x => f (g x)) l.
Proof.
  induction l as [| x l IH]; cbn; [reflexivity |]. now rewrite IH.
Qed.

Lemma map_result_Forall2 {A B} (f : A -> result B) (l : list A) (l' : list B) :
  map_result f l = Ok l' -> Forall2 (fun x y => f x = Ok y) l l'.
Proof.
  revert l'. induction l as [| x l IH]; cbn; intros l'.
  - intros [= <-]. constructor.
  - destruct (f x) as [y |] eqn:Ex; cbn; [| discriminate].
    destruct (map_result f l) as [ys |]; cbn; [| discriminate].
    intros [= <-]. constructor; auto.
Qed.

Lemma assign_result_inv (col : string) (f : row -> result cell) (w w' : DataFrame) :
  assign_result col f w = Ok w' ->
  columns w' = columns (assign col (fun _ => CNone) w)
  /\ Forall2 (fun r r' => exists v, f r = Ok v /\ r' = <[col := v]> r) (rows w) (rows w').
Proof.
  unfold assign_result. destruct (map_result _ _) as [rs |] eqn:Em; cbn; [| discriminate].
  intros [= <-]. cbn. split; [reflexivity |].
  apply map_result_Forall2 in Em.
  eapply Forall2_impl; [exact Em |]. cbn. intros r r' Hr.
  destruct (f r) as [v |]; cbn in Hr; [| discriminate].
  injection Hr as <-. eauto.
Qed.

Lemma Forall2_In_r {A B} (R : A -> B -> Prop) (l : list A) (l' : list B) (y : B) :
  Forall2 R l l' -> In y l' -> exists x, In x l /\ R x y.
Proof.
  induction 1 as [| x y' l l' Hxy Hl IH]; cbn; [contradiction |].
  intros [<- | Hy]; [eauto |].
  destruct (IH Hy) as (x' & Hx' & HR). eauto.
Qed.

Lemma rows_within_assign_result (col : string) (f : row -> result cell)
      (w w' : DataFrame) :
  assign_result col f w = Ok w' -> rows_within w -> rows_within w'.
Proof.
  intros Ha Hw. apply assign_result_inv in Ha. destruct Ha as [Hc Hr].
  unfold rows_within in *. rewrite Hc.
  rewrite List.Forall_forall in *. intros r' Hr'.
  destruct (Forall2_In_r _ _ _ _ Hr Hr') as (r & Hin & v & _ & ->).
  intros c Hc'. apply columns_assign.
  destruct (decide (c = col)) as [-> | Hne]; [now right | left].
  rewrite lookup_insert_ne in Hc' by congruence. now apply (Hw r).
Qed.

(** *** What the calculators read *)

Lemma read_written_disjoint (c k : string) :
  In c read_columns -> In k written_columns -> c <> k.
Proof.
  assert (G : forallb (fun c => forallb (fun k => negb (String.eqb c k)) written_columns)
                      read_columns = true) by (vm_compute; reflexivity).
  intros Hc Hk E. rewrite forallb_forall in G. specialize (G c Hc).
  rewrite forallb_forall in G. specialize (G k Hk).
  apply negb_true_iff, String.eqb_neq in G. contradiction.
Qed.

Lemma agree_refl (labels : list string) (r : row) : agree labels r r.
Proof. now intros c _. Qed.

Lemma agree_trans (labels : list string) (a b c : row) :
  agree labels a b -> agree labels b c -> agree labels a c.
Proof. intros Hab Hbc x Hx. rewrite (Hab x Hx). now apply Hbc. Qed.

Lemma agree_sym (labels : list string) (a b : row) : agree labels a b -> agree labels b a.
Proof. intros Hab x Hx. symmetry. now apply Hab. Qed.

Lemma agree_incl (l l' : list string) (a b : row) :
  incl l l' -> agree l' a b -> agree l a b.
Proof. intros Hi Hab x Hx. apply Hab, Hi, Hx. Qed.

Lemma agree_insert_written (k : string) (v : cell) (r : row) :
  In k written_columns -> agree read_columns (<[k := v]> r) r.
Proof.
  intros Hk c Hc. apply lookup_insert_ne. intros ->.
  now apply (read_written_disjoint c c Hc Hk).
Qed.

Lemma text_columns_read (w : DataFrame) : incl (text_columns w) read_columns.
Proof.
  intros c Hc. unfold text_columns in Hc. apply filter_In in Hc.
  destruct Hc as [Hc _]. unfold read_columns. rewrite app_assoc.
  apply in_or_app. now left.
Qed.

Lemma haystack_agree (labels : list string) (r r' : row) :
  agree labels r r' -> haystack r labels = haystack r' labels.
Proof.
  intros Ha. unfold haystack. do 2 f_equal.
  apply map_ext_in. intros c Hc. now rewrite (Ha c Hc).
Qed.

Lemma detect_exclusion_agree (labels : list string) (r r' : row) :
  agree labels r r' -> detect_exclusion r labels = detect_exclusion r' labels.
Proof.
  intros Ha. unfold detect_exclusion. now rewrite (haystack_agree _ _ _ Ha).
Qed.

Ltac read_same Ha :=
  repeat match goal with
         | |- context [?r !! ?c] =>
             lazymatch type of Ha with
             | agree _ r _ =>
                 rewrite (Ha c) by (cbn; repeat (first [left; reflexivity | right]))
             end
         end.

Lemma plays_of_agree (r r' : row) : agree read_columns r r' -> plays_of r = plays_of r'.
Proof. intros Ha. unfold plays_of. now read_same Ha. Qed.

Lemma type_text_agree (r r' : row) : agree read_columns r r' -> type_text r = type_text r'.
Proof. intros Ha. unfold type_text. now read_same Ha. Qed.

Lemma calc_base_reward_agree (cfg : rule_config) (S : Q) (r r' : row) :
  agree read_columns r r' -> calc_base_reward cfg S r = calc_base_reward cfg S r'.
Proof.
  intros Ha. unfold calc_base_reward, cell_at.
  rewrite (plays_of_agree _ _ Ha). now read_same Ha.
Qed.

Lemma calc_time_bonus_agree (cfg : rule_config) (r r' : row) :
  agree read_columns r r' -> calc_time_bonus cfg r = calc_time_bonus cfg r'.
Proof.
  intros Ha. unfold calc_time_bonus.
  now rewrite (plays_of_agree _ _ Ha), (type_text_agree _ _ Ha).
Qed.

Lemma bilibili_extra_agree (r r' : row) :
  agree read_columns r r' -> bilibili_extra r = bilibili_extra r'.
Proof.
  intros Ha. unfold bilibili_extra, bilibili_candidates, cell_at.
  rewrite (type_text_agree _ _ Ha). now read_same Ha.
Qed.

(** *** A scored row *)

Ltac look :=
  repeat first [ rewrite lookup_insert_eq
               | rewrite lookup_insert_ne by discriminate ].

Ltac written :=
  cbn; repeat (first [left; reflexivity | right]).

Lemma agree_mark_row (labels : list string) (r : row) :
  agree read_columns (mark_row labels r) r.
Proof. apply agree_insert_written. written. Qed.

Lemma agree_base_row (cfg : rule_config) (S : Q) (r : row) :
  agree read_columns (base_row cfg S r) r.
Proof. apply agree_insert_written. written. Qed.

Lemma agree_bonus_row (cfg : rule_config) (r : row) :
  agree read_columns (bonus_row cfg r) r.
Proof.
  unfold bonus_row.
  eapply agree_trans; apply agree_insert_written; written.
Qed.

Lemma agree_totals_row (r : row) : agree read_columns (totals_row r) r.
Proof.
  unfold totals_row.
  repeat (eapply agree_trans; [apply agree_insert_written; written |]).
  apply agree_refl.
Qed.

Lemma agree_with_status (r : row) : agree read_columns (with_status r) r.
Proof. apply agree_insert_written. written. Qed.

Lemma totals_row_other (r : row) (k : string) :
  k <> "总奖励" -> k <> "超额标记" -> k <> "作品标识" -> totals_row r !! k = r !! k.
Proof.
  intros H1 H2 H3. unfold totals_row. cbn zeta.
  now rewrite !lookup_insert_ne by congruence.
Qed.

Lemma totals_row_flag (r : row) : totals_row r !! "超额标记" = Some (CStr EmptyString).
Proof. unfold totals_row. cbn zeta. now look. Qed.

Lemma total_of_totals_row (r : row) : total_of (totals_row r) = total_of r.
Proof.
  unfold total_of, cell_at.
  rewrite (totals_row_other r "基础奖励"), (totals_row_other r "限时奖励"),
    (totals_row_other r "平台加成"), (totals_row_other r "优质加成");
    (reflexivity || discriminate).
Qed.

Lemma totals_row_total (r : row) :
  totals_row r !! "总奖励"
  = Some (if notna (cell_at "排除原因" (totals_row r)) then CNum 0
          else CNum (total_of (totals_row r))).
Proof.
  rewrite total_of_totals_row. unfold cell_at at 1.
  rewrite (totals_row_other r "排除原因") by discriminate.
  unfold totals_row. cbn zeta. rewrite lookup_insert_eq. f_equal.
  unfold cell_at at 1. look. fold (cell_at "排除原因" r).
  destruct (notna (cell_at "排除原因" r)); [reflexivity |].
  unfold cell_at at 1. look. cbn [default]. f_equal.
  unfold total_of, cell_at. now look.
Qed.

Lemma score_row_ok (cfg : rule_config) (S : Q) (labels : list string) (m1 : row) (q : Q) :
  incl labels read_columns ->
  quality_extra cfg (bonus_row cfg (base_row cfg S (mark_row labels m1))) = Ok q ->
  scored_row_ok cfg S labels
    (totals_row (<["优质加成" := CNum q]>
                   (bonus_row cfg (base_row cfg S (mark_row labels m1))))).
Proof.
  intros Hl Hq.
  set (m := mark_row labels m1) in *.
  set (r1 := base_row cfg S m) in *.
  set (r2 := <["限时奖励" := CNum (calc_time_bonus cfg r1)]> r1).
  set (r3 := bonus_row cfg r1) in *.
  set (s := totals_row (<["优质加成" := CNum q]> r3)).
  assert (Am : agree read_columns m m1) by apply agree_mark_row.
  assert (A1 : agree read_columns r1 m1).
  { eapply agree_trans; [apply agree_base_row | exact Am]. }
  assert (A2 : agree read_columns r2 m1).
  { eapply agree_trans; [apply agree_insert_written; written | exact A1]. }
  assert (A3 : agree read_columns r3 m1).
  { eapply agree_trans; [apply agree_bonus_row | exact A1]. }
  assert (As : agree read_columns s m1).
  { eapply agree_trans; [apply agree_totals_row |].
    eapply agree_trans; [apply agree_insert_written; written | exact A3]. }
  assert (E3 : r3 = <["平台加成" := CNum (inject_Z (bilibili_extra r2))]> r2) by reflexivity.
  unfold scored_row_ok. repeat split.
  - rewrite (detect_exclusion_agree labels s m1) by (eapply agree_incl; eauto).
    subst s. rewrite (totals_row_other _ _) by discriminate. rewrite E3. subst r2 r1 m.
    unfold base_row, mark_row. now look.
  - rewrite (calc_base_reward_agree cfg S s m1 As), <- (calc_base_reward_agree cfg S m m1 Am).
    subst s. rewrite (totals_row_other _ _) by discriminate. rewrite E3. subst r2 r1.
    unfold base_row. now look.
  - rewrite (calc_time_bonus_agree cfg s m1 As), <- (calc_time_bonus_agree cfg r1 m1 A1).
    subst s. rewrite (totals_row_other _ _) by discriminate. rewrite E3. subst r2. now look.
  - rewrite (bilibili_extra_agree s m1 As), <- (bilibili_extra_agree r2 m1 A2).
    subst s. rewrite (totals_row_other _ _) by discriminate. rewrite E3. now look.
  - exists q, r3. repeat split; try assumption.
    + intros c Hc. subst s. rewrite totals_row_other.
      * symmetry. apply lookup_insert_ne. intros <-. apply Hc. written.
      * intros ->. apply Hc. written.
      * intros ->. apply Hc. written.
      * intros ->. apply Hc. written.
    + subst s. rewrite (totals_row_other _ _) by discriminate. now look.
  - apply totals_row_flag.
  - apply totals_row_total.
Qed.

(** *** The frame, stage by stage *)

Lemma rows_assign (col : string) (f : row -> cell) (w : DataFrame) :
  rows (assign col f w) = map (fun r => <[col := f r]> r) (rows w).
Proof. reflexivity. Qed.

Lemma rows_normalize_length (w : DataFrame) :
  List.length (rows (normalize_columns w)) = List.length (rows w).
Proof.
  unfold normalize_columns, coerce_or_zero.
  repeat match goal with
         | |- context [if ?b then _ else _] => destruct b
         end; cbn [rows assign]; now rewrite !length_map.
Qed.

Lemma rows_within_normalize (w : DataFrame) :
  rows_within w -> rows_within (normalize_columns w).
Proof.
  intros Hw. unfold normalize_columns, coerce_or_zero.
  repeat match goal with
         | |- context [if ?b then _ else _] => destruct b
         end; repeat apply rows_within_assign; exact Hw.
Qed.

Lemma rows_within_mark (w : DataFrame) : rows_within w -> rows_within (mark_rows w).
Proof. intros Hw. unfold mark_rows. repeat apply rows_within_assign. exact Hw. Qed.

Lemma rows_within_bonuses (cfg : rule_config) (w w' : DataFrame) :
  bonuses cfg w = Ok w' -> rows_within w -> rows_within w'.
Proof.
  unfold bonuses. intros Hb Hw.
  eapply rows_within_assign_result; [exact Hb |].
  repeat apply rows_within_assign. exact Hw.
Qed.

Lemma rows_within_totals (w : DataFrame) : rows_within w -> rows_within (totals w).
Proof. intros Hw. unfold totals. repeat apply rows_within_assign. exact Hw. Qed.

Lemma rows_within_sort (w : DataFrame) : rows_within w -> rows_within (sort_values w).
Proof.
  unfold rows_within, sort_values. cbn [rows columns].
  rewrite !List.Forall_forall. intros Hw r Hr. apply Hw.
  eapply Permutation_in; [apply sort_rows_perm | exact Hr].
Qed.

Lemma columns_ordered (w : DataFrame) (c : string) :
  c ∈ ordered_columns w <-> c ∈ columns w.
Proof.
  unfold ordered_columns. cbn zeta.
  set (present := List.filter (fun c => has_column c (columns w)) display_cols).
  rewrite elem_of_app, !list_elem_of_In.
  split.
  - intros [Hc | Hc].
    + subst present. apply filter_In in Hc. destruct Hc as [_ Hc].
      apply has_column_true in Hc. now apply list_elem_of_In.
    + apply filter_In in Hc. tauto.
  - intros Hc. destruct (has_column c present) eqn:E.
    + left. apply has_column_true in E. now apply list_elem_of_In.
    + right. apply filter_In. split; [exact Hc | now rewrite E].
Qed.

Lemma ordered_columns_ext (w w' : DataFrame) :
  columns w = columns w' -> ordered_columns w = ordered_columns w'.
Proof. unfold ordered_columns. now intros ->. Qed.

Lemma select_all (w : DataFrame) :
  rows_within w -> rows (select_columns (ordered_columns w) w) = rows w.
Proof.
  unfold rows_within, select_columns. cbn [rows]. intros Hw.
  rewrite <- (map_id (rows w)) at 2. apply map_ext_in. intros r Hr.
  apply map_filter_id. intros c v Hc. change (c ∈ ordered_columns w).
  apply (proj2 (columns_ordered w c)).
  rewrite List.Forall_forall in Hw. apply (Hw r Hr). eauto.
Qed.

Lemma rows_totals (w : DataFrame) : rows (totals w) = map totals_row (rows w).
Proof. unfold totals. cbn [rows assign]. now rewrite !map_map. Qed.

Lemma rows_mark (w : DataFrame) :
  rows (mark_rows w)
  = map (fun r => mark_row (text_columns (assign "账号标识" (fun r => CStr (pick_identity r)) w))
                           (ident_row r))
        (rows w).
Proof. unfold mark_rows. cbn [rows assign]. now rewrite map_map. Qed.

Lemma bonuses_rows (cfg : rule_config) (w w' : DataFrame) :
  bonuses cfg w = Ok w' ->
  Forall2 (fun r r4 => exists q,
               quality_extra cfg (bonus_row cfg r) = Ok q
               /\ r4 = <["优质加成" := CNum q]> (bonus_row cfg r))
          (rows w) (rows w').
Proof.
  unfold bonuses. intros Hb. apply assign_result_inv in Hb. destruct Hb as [_ Hr].
  cbn [rows assign] in Hr. rewrite map_map in Hr.
  apply Forall2_fmap_l in Hr || idtac.
  revert Hr. generalize (rows w'). induction (rows w) as [| r l IH]; intros l' Hr.
  - inversion Hr. constructor.
  - cbn in Hr. inversion Hr as [| ? r4 ? l4 (v & Hv & ->) Hl]; subst. constructor.
    + fold (bonus_row cfg r) in *.
      destruct (quality_extra cfg (bonus_row cfg r)) as [q |]; cbn in Hv; [| discriminate].
      injection Hv as <-. eauto.
    + now apply IH.
Qed.

End Frames.

Section Tables.

Context `{NumberSyntax}.

Lemma columns_bonuses (cfg : rule_config) (w w' : DataFrame) (c : string) :
  bonuses cfg w = Ok w' ->
  c ∈ columns w' <-> c ∈ columns w \/ In c ["限时奖励"; "平台加成"; "优质加成"].
Proof.
  unfold bonuses. intros Hb. apply assign_result_inv in Hb. destruct Hb as [-> _].
  rewrite !columns_assign. cbn. intuition.
Qed.

Lemma columns_totals (w : DataFrame) (c : string) :
  c ∈ columns (totals w) <-> c ∈ columns w \/ In c ["总奖励"; "超额标记"; "作品标识"].
Proof.
  unfold totals. cbn zeta. rewrite !columns_assign. cbn. intuition.
Qed.

Lemma text_columns_same (w w' : DataFrame) :
  (forall c, In c (REQUIRED_BASE_COLUMNS ++ OPTIONAL_TEXT_COLUMNS) ->
             c ∈ columns w <-> c ∈ columns w') ->
  text_columns w = text_columns w'.
Proof.
  intros Hc. unfold text_columns. apply filter_ext_in. intros c Hin.
  specialize (Hc c Hin). unfold has_column.
  destruct (decide (c ∈ columns w)) as [Hw | Hw].
  - rewrite !bool_decide_eq_true_2; tauto.
  - rewrite !bool_decide_eq_false_2; tauto.
Qed.

Lemma text_not_written (c : string) :
  In c (REQUIRED_BASE_COLUMNS ++ OPTIONAL_TEXT_COLUMNS) -> ~ In c written_columns.
Proof.
  intros Hc Hw. apply (read_written_disjoint c c); [| exact Hw | reflexivity].
  unfold read_columns. rewrite app_assoc. apply in_or_app. now left.
Qed.

(** *** The pool sum does not depend on the order of the rows *)

Lemma sum_Q_perm (l l' : list Q) : Permutation l l' -> (sum_Q l == sum_Q l')%Q.
Proof.
  induction 1 as [| x l l' Hp IH | x y l | l l' l'' H1 IH1 H2 IH2]; cbn.
  - reflexivity.
  - now rewrite IH.
  - ring.
  - now rewrite IH1.
Qed.

Lemma filter_perm {A} (p : A -> bool) (l l' : list A) :
  Permutation l l' -> Permutation (List.filter p l) (List.filter p l').
Proof.
  induction 1 as [| x l l' Hp IH | x y l | l l' l'' H1 IH1 H2 IH2]; cbn.
  - reflexivity.
  - destruct (p x); [now constructor | exact IH].
  - destruct (p x), (p y); try reflexivity. apply perm_swap.
  - now rewrite IH1.
Qed.

Lemma plays_sum_qualifying (cfg : rule_config) (l : list row) :
  plays_sum cfg l = qualifying_sum cfg (map plays_of l).
Proof.
  unfold plays_sum, qualifying_sum. destruct (str_eqb _ _); [| reflexivity].
  f_equal. induction l as [| r l IH]; cbn; [reflexivity |].
  destruct (Qle_bool _ (plays_of r)); cbn; now rewrite IH.
Qed.

Lemma qualifying_sum_perm (cfg : rule_config) (l l' : list Q) :
  Permutation l l' -> (qualifying_sum cfg l == qualifying_sum cfg l')%Q.
Proof.
  intros Hp. unfold qualifying_sum. destruct (str_eqb _ _); [| reflexivity].
  apply sum_Q_perm, filter_perm, Hp.
Qed.

Lemma Forall2_map_eq {A B C} (f : A -> C) (g : B -> C) (l : list A) (l' : list B) :
  Forall2 (fun x y => g y = f x) l l' -> map g l' = map f l.
Proof.
  induction 1 as [| x y l l' Hxy Hl IH]; cbn; [reflexivity |]. now rewrite Hxy, IH.
Qed.

(** *** The rows of the result *)

Lemma rows_base_rewards (cfg : rule_config) (S : Q) (w : DataFrame) :
  rows (base_rewards cfg S w) = map (base_row cfg S) (rows w).
Proof. reflexivity. Qed.

Lemma Forall2_map_left {A B C} (R : B -> C -> Prop) (f : A -> B) (l : list A) (l' : list C) :
  Forall2 R (map f l) l' -> Forall2 (fun x y => R (f x) y) l l'.
Proof.
  revert l'. induction l as [| x l IH]; intros l' Hf; inversion Hf; subst;
    constructor; auto.
Qed.

Lemma Forall2_map_right {A B C} (R : A -> C -> Prop) (g : B -> C) (l : list A) (l' : list B) :
  Forall2 (fun x y => R x (g y)) l l' -> Forall2 R l (map g l').
Proof. induction 1; cbn; constructor; auto. Qed.

Lemma rows_add_status (w : DataFrame) : rows (add_status w) = map with_status (rows w).
Proof. reflexivity. Qed.

Lemma rows_sorted_frame (w : DataFrame) :
  rows (reset_index (sort_values w)) = sort_rows (rows w).
Proof. reflexivity. Qed.

Lemma columns_sorted_frame (w : DataFrame) :
  columns (reset_index (sort_values w)) = columns w.
Proof. reflexivity. Qed.

Lemma rows_within_sorted_frame (w : DataFrame) :
  rows_within w -> rows_within (reset_index (sort_values w)).
Proof. intros Hw. apply (rows_within_sort w Hw). Qed.

Lemma rows_align_length (df : DataFrame) :
  List.length (rows (align_columns df)) = List.length (rows df).
Proof. unfold align_columns. cbn [rows]. apply length_map. Qed.

Lemma columns_mark (w : DataFrame) (c : string) :
  c ∈ columns (mark_rows w)
  <-> c ∈ columns (assign "账号标识" (fun r => CStr (pick_identity r)) w) \/ c = "排除原因".
Proof. unfold mark_rows. cbn zeta. apply columns_assign. Qed.

Lemma columns_base_rewards (cfg : rule_config) (S : Q) (w : DataFrame) (c : string) :
  c ∈ columns (base_rewards cfg S w) <-> c ∈ columns w \/ c = "基础奖励".
Proof. unfold base_rewards. apply columns_assign. Qed.

Lemma columns_add_status (w : DataFrame) (c : string) :
  c ∈ columns (add_status w) <-> c ∈ columns w \/ c = "状态".
Proof. unfold add_status. apply columns_assign. Qed.

Lemma scored_plays (cfg : rule_config) (S : Q) (m : row) (q : Q) :
  plays_of (totals_row (<["优质加成" := CNum q]> (bonus_row cfg (base_row cfg S m))))
  = plays_of m.
Proof.
  apply plays_of_agree.
  eapply agree_trans; [apply agree_totals_row |].
  eapply agree_trans; [apply agree_insert_written; cbn; tauto |].
  eapply agree_trans; [apply agree_bonus_row | apply agree_base_row].
Qed.

Lemma result_bind_ok {A B} (m : result A) (k : A -> result B) (b : B) :
  result_bind m k = Ok b -> exists a, m = Ok a /\ k a = Ok b.
Proof. destruct m as [a | e]; cbn; [eauto | discriminate]. Qed.

(** The frame before the sort. *)
Lemma scored_table_rows (df : DataFrame) (rule : rule_object) (w5 : DataFrame) :
  scored_table df rule = Ok w5 ->
  exists (S0 : Q) (labels : list string),
    rows_within w5
    /\ S0 = qualifying_sum (_extract_rule_config rule) (map plays_of (rows w5))
    /\ List.length (rows w5) = List.length (rows df)
    /\ (forall w', (forall c, c ∈ columns w' <-> c ∈ columns w5 \/ c = "状态") ->
                   text_columns w' = labels)
    /\ Forall (scored_row_ok (_extract_rule_config rule) S0 labels) (rows w5).
Proof.
  intros Ht. unfold scored_table in Ht. cbv zeta in Ht.
  remember (_extract_rule_config rule) as cfg eqn:Ecfg. clear Ecfg.
  apply result_bind_ok in Ht. destruct Ht as (_ & _ & Ht).
  pose proof (rows_within_align df) as Hw0.
  pose proof (rows_align_length df) as Hlen0.
  remember (align_columns df) as w0 eqn:E0. clear E0.
  pose proof (rows_within_normalize w0 Hw0) as Hwn.
  pose proof (rows_normalize_length w0) as Hlenn.
  remember (normalize_columns w0) as wn eqn:En. clear En.
  pose proof (rows_within_mark wn Hwn) as Hw2.
  pose proof (rows_mark wn) as Hrows2.
  pose proof (fun c => columns_mark wn c) as Hcols2.
  remember (assign "账号标识" (fun r => CStr (pick_identity r)) wn) as w1 eqn:E1. clear E1.
  remember (text_columns w1) as labels eqn:El.
  remember (mark_rows wn) as w2 eqn:E2. clear E2.
  remember (plays_sum cfg (rows w2)) as S0 eqn:ES.
  pose proof (rows_within_assign "基础奖励"
                (fun r => CNum (calc_base_reward cfg S0 r)) w2 Hw2) as Hw3.
  change (rows_within (base_rewards cfg S0 w2)) in Hw3.
  pose proof (rows_base_rewards cfg S0 w2) as Hrows3.
  pose proof (fun c => columns_base_rewards cfg S0 w2 c) as Hcols3.
  remember (base_rewards cfg S0 w2) as w3 eqn:E3. clear E3.
  apply result_bind_ok in Ht. destruct Ht as (w4 & Eb & Ht).
  pose proof (rows_within_bonuses cfg w3 w4 Eb Hw3) as Hw4.
  pose proof (bonuses_rows cfg w3 w4 Eb) as Hrows4.
  pose proof (fun c => columns_bonuses cfg w3 w4 c Eb) as Hcols4. clear Eb.
  pose proof (rows_within_totals w4 Hw4) as Hw5.
  pose proof (rows_totals w4) as Hrows5.
  pose proof (fun c => columns_totals w4 c) as Hcols5.
  injection Ht as <-.
  assert (Hrows : Forall2 (fun m s => exists q,
                               quality_extra cfg (bonus_row cfg (base_row cfg S0 m)) = Ok q
                               /\ s = totals_row (<["优质加成" := CNum q]>
                                                    (bonus_row cfg (base_row cfg S0 m))))
                          (rows w2) (rows (totals w4))).
  { rewrite Hrows5. rewrite Hrows3 in Hrows4.
    apply Forall2_map_left in Hrows4. apply Forall2_map_right.
    eapply Forall2_impl; [exact Hrows4 |]. cbn beta.
    intros m r4 (q & Hq & ->). eauto. }
  assert (Hplays : map plays_of (rows (totals w4)) = map plays_of (rows w2)).
  { apply Forall2_map_eq. eapply Forall2_impl; [exact Hrows |].
    cbn beta. intros m s (q & _ & ->). apply scored_plays. }
  exists S0, labels. split; [exact Hw5 |]. split; [| split; [| split]].
  - now rewrite ES, plays_sum_qualifying, Hplays.
  - rewrite <- (Forall2_length _ _ _ Hrows).
    rewrite Hrows2, length_map. congruence.
  - intros w' Hw'. rewrite El. apply text_columns_same. intros c Hc.
    rewrite Hw', Hcols5, Hcols4, Hcols3, Hcols2.
    pose proof (text_not_written c Hc) as Hn. cbn [In].
    split; [intros Hx | tauto].
    decompose [or] Hx; try assumption; try contradiction;
      exfalso; apply Hn; subst c; cbn; repeat (first [left; reflexivity | right]).
  - apply List.Forall_forall. intros s Hs.
    destruct (Forall2_In_r _ _ _ _ Hrows Hs) as (m & Hm & q & Hq & ->).
    rewrite Hrows2 in Hm. apply in_map_iff in Hm. destruct Hm as (n & <- & _).
    apply score_row_ok; [| exact Hq].
    rewrite El. apply text_columns_read.
Qed.

(** The status column and the selection of the columns, on rows in any
    order. *)
Lemma status_and_select (w5 : DataFrame) (arranged : list row) :
  rows_within w5 -> Permutation arranged (rows w5) ->
  let w := add_status {| columns := columns w5; rows := arranged |} in
  rows (select_columns (ordered_columns w) w) = map with_status arranged
  /\ forall c, c ∈ columns (select_columns (ordered_columns w) w)
               <-> c ∈ columns w5 \/ c = "状态".
Proof.
  intros Hw Hp w. split.
  - rewrite select_all; [reflexivity |].
    subst w. unfold add_status. apply rows_within_assign.
    unfold rows_within in *. cbn [rows columns].
    rewrite List.Forall_forall in *. intros r Hr. apply Hw.
    eapply Permutation_in; eassumption.
  - intros c. cbn [columns select_columns]. rewrite columns_ordered.
    subst w. now rewrite columns_add_status.
Qed.

Lemma rewards_table_rows (df : DataFrame) (rule : rule_object) (out : DataFrame) :
  rewards_table df rule = Ok out ->
  exists (S0 : Q) (scored : list row) (u : DataFrame),
    (S0 == plays_sum (_extract_rule_config rule) (rows out))%Q
    /\ List.length scored = List.length (rows df)
    /\ rows out = map with_status (sort_rows scored)
    /\ Forall (scored_row_ok (_extract_rule_config rule) S0 (text_columns out)) scored
    /\ rewards_table_unsorted df rule = Ok u
    /\ columns u = columns out
    /\ rows u = map with_status scored.
Proof.
  intros Ht. unfold rewards_table in Ht. unfold rewards_table_unsorted.
  apply result_bind_ok in Ht. destruct Ht as (w5 & Hs & Ht). rewrite Hs. cbn [result_bind].
  destruct (scored_table_rows df rule w5 Hs) as (S0 & labels & Hw & HS & Hlen & Hl & Hok).
  injection Ht as <-.
  destruct (status_and_select w5 (sort_rows (rows w5)) Hw (sort_rows_perm _))
    as [Hrows Hcols].
  assert (Hself : Permutation (rows w5) (rows w5)) by reflexivity.
  destruct (status_and_select w5 (rows w5) Hw Hself) as [Hrows' Hcols'].
  change (add_status {| columns := columns w5; rows := sort_rows (rows w5) |})
    with (add_status (reset_index (sort_values w5))) in Hrows, Hcols.
  fold (finish_table w5) in Hrows, Hcols.
  replace {| columns := columns w5; rows := rows w5 |} with w5 in Hrows', Hcols'
    by (now destruct w5).
  exists S0, (rows w5), (select_columns (ordered_columns (add_status w5)) (add_status w5)).
  rewrite (Hl _ Hcols).
  split; [| split; [exact Hlen | split; [exact Hrows | split; [exact Hok |]]]].
  - rewrite HS, plays_sum_qualifying, Hrows.
    apply qualifying_sum_perm. rewrite map_map.
    rewrite (map_ext (fun r => plays_of (with_status r)) plays_of).
    2:{ intros r. apply plays_of_agree, agree_with_status. }
    apply Permutation_map. symmetry. apply sort_rows_perm.
  - split; [reflexivity |]. split; [| exact Hrows'].
    unfold finish_table. cbn [columns select_columns].
    apply ordered_columns_ext. unfold add_status, assign, reset_index, sort_values.
    cbn [columns]. reflexivity.
Qed.

End Tables.

Section Results.

Context `{NumberSyntax}.

Lemma with_status_other (s : row) (c : string) :
  c <> "状态" -> with_status s !! c = s !! c.
Proof. intros Hc. unfold with_status. now rewrite lookup_insert_ne by congruence. Qed.

Lemma total_of_with_status (s : row) : total_of (with_status s) = total_of s.
Proof.
  unfold total_of, cell_at.
  rewrite (with_status_other s "基础奖励"), (with_status_other s "限时奖励"),
    (with_status_other s "平台加成"), (with_status_other s "优质加成");
    (reflexivity || discriminate).
Qed.

Lemma with_status_ok (cfg : rule_config) (S : Q) (labels : list string) (s : row) :
  incl labels read_columns ->
  scored_row_ok cfg S labels s ->
  scored_row_ok cfg S labels (with_status s)
  /\ with_status s !! "状态"
     = Some (if notna (cell_at "排除原因" (with_status s))
             then cell_at "排除原因" (with_status s) else CStr "计入").
Proof.
  intros Hl (Hreason & Hbase & Htime & Hplat & (q & r3 & Hq & Hr3 & Hqual) & Hflag & Htotal).
  pose proof (agree_with_status s) as Ha.
  assert (Hcell : cell_at "排除原因" (with_status s) = cell_at "排除原因" s).
  { unfold cell_at. now rewrite with_status_other by discriminate. }
  split.
  - unfold scored_row_ok. repeat split.
    + rewrite with_status_other by discriminate.
      now rewrite (detect_exclusion_agree labels _ s) by (eapply agree_incl; eauto).
    + rewrite with_status_other by discriminate.
      now rewrite (calc_base_reward_agree cfg S _ s Ha).
    + rewrite with_status_other by discriminate.
      now rewrite (calc_time_bonus_agree cfg _ s Ha).
    + rewrite with_status_other by discriminate.
      now rewrite (bilibili_extra_agree _ s Ha).
    + exists q, r3. repeat split; [exact Hq | | now rewrite with_status_other by discriminate].
      intros c Hc. rewrite with_status_other; [now apply Hr3 |].
      intros ->. apply Hc. cbn. tauto.
    + now rewrite with_status_other by discriminate.
    + rewrite with_status_other by discriminate.
      now rewrite Hcell, total_of_with_status.
  - rewrite Hcell. unfold with_status. rewrite lookup_insert_eq. f_equal.
    unfold status_of. destruct (notna (cell_at "排除原因" s)); [reflexivity |].
    unfold cell_at at 1 2. now rewrite Hflag.
Qed.

(** Every row of the result carries the values the calculators give on
    it, and its status. *)
Lemma result_rows_ok (df : DataFrame) (rule : rule_object) (out : DataFrame) :
  rewards_table df rule = Ok out ->
  exists S0 : Q,
    (S0 == plays_sum (_extract_rule_config rule) (rows out))%Q
    /\ Forall (fun r =>
                 scored_row_ok (_extract_rule_config rule) S0 (text_columns out) r
                 /\ r !! "状态"
                    = Some (if notna (cell_at "排除原因" r)
                            then cell_at "排除原因" r else CStr "计入"))
              (rows out).
Proof.
  intros Ht.
  destruct (rewards_table_rows df rule out Ht) as (S0 & scored & u & HS & _ & Hr & Hok & _).
  exists S0. split; [exact HS |]. rewrite Hr.
  apply List.Forall_forall. intros r Hin. apply in_map_iff in Hin.
  destruct Hin as (s & <- & Hs).
  apply with_status_ok; [apply text_columns_read |].
  rewrite List.Forall_forall in Hok. apply Hok.
  eapply Permutation_in; [apply sort_rows_perm | exact Hs].
Qed.

Lemma find_first {A} (p : A -> bool) (l : list A) :
  match find p l with
  | Some x => exists pre post,
                l = pre ++ x :: post /\ p x = true /\ Forall (fun y => p y = false) pre
  | None => Forall (fun y => p y = false) l
  end.
Proof.
  induction l as [| y l IH]; cbn; [constructor |].
  destruct (p y) eqn:Ey.
  - exists [], l. repeat split; [exact Ey | constructor].
  - destruct (find p l) as [x |].
    + destruct IH as (pre & post & -> & Hx & Hpre).
      exists (y :: pre), post. repeat split; [exact Hx | now constructor].
    + now constructor.
Qed.


(** *** The order of the result *)

Lemma text_at_with_status (c : string) (s : row) :
  c <> "状态" -> text_at c (with_status s) = text_at c s.
Proof. intros Hc. unfold text_at, cell_at. now rewrite with_status_other. Qed.

Lemma total_at_with_status (s : row) : total_at (with_status s) = total_at s.
Proof. unfold total_at, cell_at. now rewrite with_status_other by discriminate. Qed.

Lemma sort_compare_with_status_r (a x : row) :
  sort_compare a (with_status x) = sort_compare a x.
Proof.
  unfold sort_compare.
  now rewrite !text_at_with_status, total_at_with_status by discriminate.
Qed.

Lemma key_le_with_status (a b : row) :
  key_le a b -> key_le (with_status a) (with_status b).
Proof.
  unfold key_le.
  now rewrite !text_at_with_status, !total_at_with_status by discriminate.
Qed.

Lemma StronglySorted_map {A B} (R : A -> A -> Prop) (R' : B -> B -> Prop) (f : A -> B)
      (l : list A) :
  (forall a b, R a b -> R' (f a) (f b)) ->
  StronglySorted R l -> StronglySorted R' (map f l).
Proof.
  intros Hf. induction 1 as [| x l Hs IH Hall]; cbn; constructor; [exact IH |].
  rewrite List.Forall_forall in *. intros y Hy. apply in_map_iff in Hy.
  destruct Hy as (z & <- & Hz). auto.
Qed.

Lemma filter_map_swap {A B} (p : B -> bool) (f : A -> B) (l : list A) :
  List.filter p (map f l) = map f (List.filter (fun x => p (f x)) l).
Proof.
  induction l as [| x l IH]; cbn; [reflexivity |].
  destruct (p (f x)); cbn; now rewrite IH.
Qed.

(** C7. The rows of the result are the rows of the unsorted table (the
    rows in the order of the dataset) rearranged: they are in the order
    period ascending, identity key ascending, title key ascending, total
    descending, and the rows that agree on the four keys stand in the
    order they have in the unsorted table. *)
Theorem result_sorted_stably (df : DataFrame) (rule : rule_object) (out : DataFrame) :
  rewards_table df rule = Ok out ->
  exists u : DataFrame,
    rewards_table_unsorted df rule = Ok u
    /\ columns u = columns out
    /\ List.length (rows u) = List.length (rows df)
    /\ Permutation (rows out) (rows u)
    /\ StronglySorted key_le (rows out)
    /\ forall a, List.filter (same_key a) (rows out) = List.filter (same_key a) (rows u).
Proof.
  intros Ht.
  destruct (rewards_table_rows df rule out Ht)
    as (S0 & scored & u & _ & Hlen & Hr & _ & Hu & Hc & Hru).
  exists u. rewrite Hr, Hru.
  split; [exact Hu |]. split; [exact Hc |].
  split; [now rewrite length_map |].
  split; [apply Permutation_map, sort_rows_perm |].
  split.
  - apply (StronglySorted_map key_le); [apply key_le_with_status | apply sort_rows_sorted].
  - intros a. rewrite !filter_map_swap. f_equal.
    rewrite (filter_ext (fun x => same_key a (with_status x)) (same_key a)).
    2:{ intros x. unfold same_key. now rewrite sort_compare_with_status_r. }
    rewrite (filter_ext (fun x => same_key a (with_status x)) (same_key a)).
    2:{ intros x. unfold same_key. now rewrite sort_compare_with_status_r. }
    apply sort_rows_stable.
Qed.

(** *** The pool mode *)

Lemma str_eqb_eq (a b : string) : str_eqb a b = true -> a = b.
Proof. apply String.eqb_eq. Qed.

Lemma calc_base_reward_pool (cfg : rule_config) (S : Q) (r : row) :
  str_eqb (base_mode cfg) "瓜分" = true ->
  calc_base_reward cfg S r
  = if Qeq_bool S 0 then 0%Q
    else if negb (Qle_bool (default 0%Q (pool_min_play (pool_of (params cfg)))) (plays_of r))
         then 0%Q
         else (default 0%Q (pool_total (pool_of (params cfg))) * plays_of r / S)%Q.
Proof.
  intros Hm. apply str_eqb_eq in Hm. unfold calc_base_reward. rewrite Hm. reflexivity.
Qed.

Lemma filter_none {A} (p : A -> bool) (l : list A) :
  Forall (fun x => p x = false) l -> List.filter p l = [].
Proof.
  induction 1 as [| x l Hx Hl IH]; cbn; [reflexivity |]. now rewrite Hx.
Qed.

Lemma sum_Q_cons (x : Q) (l : list Q) : sum_Q (x :: l) = (x + sum_Q l)%Q.
Proof. reflexivity. Qed.

Lemma pool_shares_sum (total min_play S : Q) (l : list row) :
  ~ (S == 0)%Q ->
  (sum_Q (map (fun r => if negb (Qle_bool min_play (plays_of r)) then 0
                        else total * plays_of r / S) l)
   == total * sum_Q (map plays_of (List.filter (fun r => Qle_bool min_play (plays_of r)) l))
      / S)%Q.
Proof.
  intros HS. induction l as [| r l IH]; cbn [map List.filter].
  - unfold sum_Q. cbn [foldr]. now field.
  - destruct (Qle_bool min_play (plays_of r)); cbn [negb map];
      rewrite !sum_Q_cons, IH; now field.
Qed.

(** C1, as the code has it. In the pool mode, when the play counts of the
    qualifying rows (those at or above the minimum) sum to a number that
    is not 0, the base rewards of all rows sum to the pool total; when
    that sum is 0, which is the case when no row qualifies, every base
    reward is 0. *)
Theorem pool_share_sum (df : DataFrame) (rule : rule_object) (out : DataFrame) :
  rewards_table df rule = Ok out ->
  str_eqb (base_mode (_extract_rule_config rule)) "瓜分" = true ->
  let cfg := _extract_rule_config rule in
  let min_play := default 0%Q (pool_min_play (pool_of (params cfg))) in
  let total := default 0%Q (pool_total (pool_of (params cfg))) in
  let S := sum_Q (map plays_of
                      (List.filter (fun r => Qle_bool min_play (plays_of r)) (rows out))) in
  (~ (S == 0)%Q ->
   (sum_Q (map (fun r => number_of (cell_at "基础奖励" r)) (rows out)) == total)%Q)
  /\ ((S == 0)%Q -> Forall (fun r => r !! "基础奖励" = Some (CNum 0)) (rows out))
  /\ (Forall (fun r => Qle_bool min_play (plays_of r) = false) (rows out) -> S = 0%Q).
Proof.
  intros Ht Hm cfg min_play total S.
  destruct (result_rows_ok df rule out Ht) as (S0 & HS & Hrows). fold cfg in HS, Hrows.
  assert (HS' : (S0 == S)%Q).
  { rewrite HS. unfold plays_sum. fold cfg in Hm. rewrite Hm. reflexivity. }
  assert (Hbase : forall r, In r (rows out) ->
                            r !! "基础奖励" = Some (CNum (calc_base_reward cfg S0 r))).
  { intros r Hr. rewrite List.Forall_forall in Hrows.
    destruct (Hrows r Hr) as [(_ & Hb & _) _]. exact Hb. }
  split; [| split].
  - intros Hne.
    assert (Hne0 : ~ (S0 == 0)%Q) by now rewrite HS'.
    rewrite (map_ext_in _ (fun r => if negb (Qle_bool min_play (plays_of r)) then 0%Q
                                    else (total * plays_of r / S0)%Q)).
    + rewrite (pool_shares_sum total min_play S0 (rows out) Hne0).
      fold S. rewrite HS'. now field.
    + intros r Hr. unfold cell_at. rewrite (Hbase r Hr). cbn [default number_of].
      rewrite (calc_base_reward_pool cfg S0 r Hm).
      destruct (Qeq_bool S0 0) eqn:E; [| reflexivity].
      apply Qeq_bool_iff in E. contradiction.
  - intros Hz. apply List.Forall_forall. intros r Hr. rewrite (Hbase r Hr).
    rewrite (calc_base_reward_pool cfg S0 r Hm).
    assert (E : Qeq_bool S0 0 = true) by (apply Qeq_bool_iff; now rewrite HS').
    now rewrite E.
  - intros Hnone. subst S. now rewrite (filter_none _ _ Hnone).
Qed.

End Results.

(** ** The model at work on the sample data *)

Section Examples.

#[local] Existing Instance decimal_syntax.

Example sample_totals :
  match rewards_table sample_frame RuleOther with
  | Ok out => map (fun r : row => (r !! "账号标识", r !! "总奖励", r !! "状态")) (rows out)
              = [ (Some (CStr "A"), Some (CNum 15), Some (CStr "计入"));
                  (Some (CStr "B"), Some (CNum 30), Some (CStr "计入"));
                  (Some (CStr "B"), Some (CNum 0), Some (CStr "含排除关键词:建议")) ]
  | Raise _ => False
  end.
Proof. vm_compute. reflexivity. Qed.

(** C1 at work: the pool of 10000 shared by the two sample rows of at
    least 30000 plays. *)
Lemma pool_share_sum_witness :
  exists out,
    rewards_table sample_frame (pool_rule 30000) = Ok out
    /\ str_eqb (base_mode (_extract_rule_config (pool_rule 30000))) "瓜分" = true
    /\ (base_total out == 10000)%Q.
Proof.
  assert (Hok : is_ok (rewards_table sample_frame (pool_rule 30000)) = true)
    by (vm_compute; reflexivity).
  assert (Hs : match rewards_table sample_frame (pool_rule 30000) with
               | Ok out => Qeq_bool (qualifying_plays 30000 out) 0
               | Raise _ => true
               end = false) by (vm_compute; reflexivity).
  destruct (rewards_table sample_frame (pool_rule 30000)) as [out | e] eqn:E;
    [| discriminate Hok].
  exists out. split; [reflexivity |]. split; [reflexivity |].
  destruct (pool_share_sum sample_frame (pool_rule 30000) out E eq_refl) as [Hsum _].
  apply Hsum. intros Hz. apply Qeq_bool_iff in Hz.
  exact (eq_true_false_abs _ Hz Hs).
Defined.

(** C1 as stated fails: with a minimum of 0 the row without plays
    qualifies, and the base rewards sum to 0, not to the pool of 10000. *)
Lemma pool_share_zero_sum_counterexample :
  match rewards_table zero_plays_frame (pool_rule 0) with
  | Ok out =>
      existsb (fun r => Qle_bool 0 (plays_of r)) (rows out) = true
      /\ Qeq_bool (base_total out) 10000 = false
  | Raise _ => False
  end.
Proof. vm_compute. split; reflexivity. Qed.




(** C5 at work: both markers in the content type, no flag columns. *)
Lemma bilibili_extra_is_max_witness :
  cell_at "渠道" both_markers_row = CStr "B站"
  /\ Text.contains "热搜" (type_text both_markers_row) = true
  /\ Text.contains "热门" (type_text both_markers_row) = true
  /\ bilibili_extra both_markers_row = 200%Z.
Proof.
  destruct (bilibili_extra_is_max both_markers_row) as (_ & _ & H3).
  split; [reflexivity |]. split; [reflexivity |]. split; [reflexivity |].
  apply H3; reflexivity.
Defined.

(** C6 at work: a rule of threshold 0 on a field the row does not have. *)
Lemma quality_rule_zero_threshold_witness :
  gates_pass plain_row zero_fans_rule = true
  /\ plain_row !! "粉丝数" = None
  /\ quality_rule_applies plain_row zero_fans_rule = Ok true.
Proof.
  split; [reflexivity |]. split; [reflexivity |].
  apply quality_rule_zero_threshold; [reflexivity | reflexivity |].
  left. reflexivity.
Defined.

(** C6 as stated fails: with the gates open and threshold 0, a NaN cell
    under the target field does not qualify, and a text cell that is not
    a number makes the calculator raise. *)
Lemma quality_rule_non_numeric_counterexample :
  gates_pass nan_fans_row zero_fans_rule = true
  /\ q_threshold zero_fans_rule = Some 0%Q
  /\ nan_fans_row !! "粉丝数" = Some CNaN
  /\ quality_rule_applies nan_fans_row zero_fans_rule = Ok false
  /\ gates_pass text_fans_row zero_fans_rule = true
  /\ text_fans_row !! "粉丝数" = Some (CStr "abc")
  /\ quality_rule_applies text_fans_row zero_fans_rule
     = Raise (ValueError (float_error_message "abc")).
Proof. repeat split; vm_compute; reflexivity. Qed.

(** C7 at work on the sample dataset. *)
Lemma result_sorted_stably_witness :
  exists out u,
    rewards_table sample_frame RuleOther = Ok out
    /\ rewards_table_unsorted sample_frame RuleOther = Ok u
    /\ Permutation (rows out) (rows u)
    /\ StronglySorted key_le (rows out).
Proof.
  assert (Hok : is_ok (rewards_table sample_frame RuleOther) = true)
    by (vm_compute; reflexivity).
  destruct (rewards_table sample_frame RuleOther) as [out | e] eqn:E;
    [| discriminate Hok].
  destruct (result_sorted_stably sample_frame RuleOther out E)
    as (u & Hu & _ & _ & Hp & Hs & _).
  exists out, u. auto.
Defined.

(** C8 at work: the sample dataset and a rule, held at different
    addresses of two stores. *)
Lemma compute_rewards_deterministic_witness :
  outcome (compute_rewards 0 1 [ObjFrame sample_frame; ObjRule RuleOther])
  = outcome (compute_rewards 2 0 [ObjRule RuleOther; ObjFrame no_plays_frame;
                                  ObjFrame sample_frame]).
Proof.
  exact (proj1 (compute_rewards_deterministic
                  [ObjFrame sample_frame; ObjRule RuleOther]
                  [ObjRule RuleOther; ObjFrame no_plays_frame; ObjFrame sample_frame]
                  0 1 2 0 sample_frame RuleOther eq_refl eq_refl eq_refl eq_refl)).
Defined.

(** C9 as stated fails: a negative play count stays negative through the
    coercion pass. *)
Lemma negative_play_count_counterexample :
  map (fun r : row => r !! "播放量") (rows (normalize_columns negative_plays_frame))
  = [Some (CNum (-5))]
  /\ (-5 < 0)%Q.
Proof. split; [vm_compute; reflexivity | reflexivity]. Qed.

End Examples.

(** ** Column and channel normalisation *)

Section Normalisation.

Lemma lstrip_head (s : string) :
  match Text.lstrip s with
  | EmptyString => True
  | String c _ => Text.is_space c = false
  end.
Proof.
  induction s as [| c s IH]; cbn; [exact I |].
  destruct (Text.is_space c) eqn:E; [exact IH | exact E].
Qed.

Lemma lstrip_fixed (s : string) :
  match s with
  | EmptyString => True
  | String c _ => Text.is_space c = false
  end -> Text.lstrip s = s.
Proof. destruct s as [| c s]; cbn; [reflexivity |]. now intros ->. Qed.

Lemma rstrip_head (c : ascii) (s : string) :
  Text.is_space c = false -> exists t, Text.rstrip (String c s) = String c t.
Proof.
  intros E. cbn. destruct (Text.rstrip s); [rewrite E |]; eauto.
Qed.

Lemma rstrip_rstrip (s : string) : Text.rstrip (Text.rstrip s) = Text.rstrip s.
Proof.
  induction s as [| c s IH]; cbn; [reflexivity |].
  destruct (Text.rstrip s) as [| d t] eqn:E.
  - destruct (Text.is_space c) eqn:Ec; cbn; [reflexivity | now rewrite Ec].
  - cbn [Text.rstrip]. cbn [Text.rstrip] in IH. 
    destruct (match Text.rstrip t with
              | EmptyString => if Text.is_space d then EmptyString else String d EmptyString
              | String a s0 => String d (String a s0)
              end) eqn:E2; [discriminate IH |].
    now rewrite IH.
Qed.

Lemma strip_strip (s : string) : Text.strip (Text.strip s) = Text.strip s.
Proof.
  unfold Text.strip.
  assert (Hl : Text.lstrip (Text.rstrip (Text.lstrip s)) = Text.rstrip (Text.lstrip s)).
  { apply lstrip_fixed. pose proof (lstrip_head s) as Hh.
    destruct (Text.lstrip s) as [| c t]; [exact I |].
    destruct (rstrip_head c t Hh) as (u & ->). exact Hh. }
  rewrite Hl. apply rstrip_rstrip.
Qed.

Lemma normalize_channel_cases (s : string) :
  let text := Text.lower (Text.strip s) in
  normalize_channel (CStr s) = "抖音/视频号"
  \/ normalize_channel (CStr s) = "小红书"
  \/ normalize_channel (CStr s) = "B站"
  \/ (normalize_channel (CStr s) = Text.strip s
      /\ existsb (fun k => Text.contains k text)
           ["抖音"; "douyin"; "视频号"; "wechat video"; "wx视频号"] = false
      /\ Text.contains "小红书" text || Text.contains "xhs" text || str_eqb text "red" = false
      /\ Text.contains "b站" text || Text.contains "bilibili" text
         || Text.contains "哔哩" text = false).
Proof.
  intros text. unfold normalize_channel. fold text.
  destruct (existsb _ _); [now left |].
  destruct (_ || _ || str_eqb _ "red"); [now right; left |].
  destruct (_ || _ || _); [now right; right; left |].
  right; right; right. auto.
Qed.

(** X1. [normalize_channel] is idempotent, and what it returns carries no
    white space at either end. *)
Theorem normalize_channel_idempotent (raw : cell) :
  normalize_channel (CStr (normalize_channel raw)) = normalize_channel raw
  /\ Text.strip (normalize_channel raw) = normalize_channel raw.
Proof.
  destruct raw as [s | q | b | |]; try (split; reflexivity).
  destruct (normalize_channel_cases s) as [E | [E | [E | (E & E1 & E2 & E3)]]];
    rewrite E; try (split; reflexivity).
  split; [| apply strip_strip].
  unfold normalize_channel. rewrite strip_strip, E1, E2, E3. reflexivity.
Qed.

(** *** Alias resolution *)

Lemma alias_of_cases (col : string) :
  (exists kv, In kv COLUMN_ALIASES /\ fst kv = Text.strip col /\ alias_of col = snd kv)
  \/ (alias_of col = Text.strip col
      /\ Forall (fun kv => fst kv <> Text.strip col) COLUMN_ALIASES).
Proof.
  unfold alias_of. cbv zeta.
  destruct (find _ COLUMN_ALIASES) as [kv |] eqn:E.
  - left. exists kv. apply find_some in E. destruct E as [Hin Hk].
    repeat split; [exact Hin |]. now apply String.eqb_eq in Hk.
  - right. split; [reflexivity |]. apply List.Forall_forall. intros kv Hin Hk.
    pose proof (find_none _ _ E kv Hin) as Hn. cbn in Hn.
    unfold str_eqb in Hn. rewrite Hk, String.eqb_refl in Hn. discriminate.
Qed.

Lemma alias_targets_fixed :
  Forall (fun kv => alias_of (snd kv) = snd kv) COLUMN_ALIASES.
Proof. repeat constructor. Qed.

Lemma alias_targets_not_keys :
  Forall (fun kv => Forall (fun kv' => fst kv' <> snd kv) COLUMN_ALIASES) COLUMN_ALIASES.
Proof. repeat (constructor; [repeat (constructor; [discriminate |]); constructor |]); constructor. Qed.

Lemma alias_of_idempotent (col : string) : alias_of (alias_of col) = alias_of col.
Proof.
  destruct (alias_of_cases col) as [(kv & Hin & _ & ->) | [E Hno]].
  - pose proof alias_targets_fixed as Hf. rewrite List.Forall_forall in Hf. now apply Hf.
  - rewrite E. destruct (alias_of_cases (Text.strip col)) as [(kv & Hin & Hk & _) | [E' _]].
    + rewrite strip_strip in Hk. rewrite List.Forall_forall in Hno.
      now destruct (Hno kv Hin).
    + now rewrite E', strip_strip.
Qed.

Lemma alias_of_not_key (col : string) (kv : string * string) :
  In kv COLUMN_ALIASES -> alias_of col <> fst kv.
Proof.
  intros Hin. destruct (alias_of_cases col) as [(kv' & Hin' & _ & ->) | [E Hno]].
  - pose proof alias_targets_not_keys as Hf. rewrite List.Forall_forall in Hf.
    specialize (Hf kv' Hin'). rewrite List.Forall_forall in Hf.
    intros Heq. now apply (Hf kv Hin).
  - rewrite E. rewrite List.Forall_forall in Hno. intros Heq. now apply (Hno kv Hin).
Qed.

Lemma rename_row_fixed (cols : list string) (m : row) :
  Forall (fun c => alias_of c = c) cols ->
  (forall c, is_Some (m !! c) -> c ∈ cols) ->
  rename_row cols m = m.
Proof.
  intros Hfix Hdom. unfold rename_row.
  assert (G : forall (l : list string) (acc : row),
             Forall (fun c => alias_of c = c) l ->
             forall k,
               foldl (fun acc col =>
                        match m !! col with
                        | Some v => <[alias_of col := v]> acc
                        | None => acc
                        end) acc l !! k
               = if bool_decide (k ∈ l)
                 then match m !! k with Some v => Some v | None => acc !! k end
                 else acc !! k).
  { induction l as [| col l IH]; intros acc Hl k; cbn [foldl].
    - rewrite bool_decide_eq_false_2 by apply not_elem_of_nil. reflexivity.
    - inversion Hl as [| ? ? Hcol Hl']; subst. rewrite (IH _ Hl' k), Hcol.
      destruct (decide (k = col)) as [-> | Hne].
      + rewrite (bool_decide_eq_true_2 (col ∈ col :: l)) by left.
        destruct (m !! col) as [v |] eqn:Em.
        * rewrite lookup_insert_eq. now destruct (bool_decide (col ∈ l)).
        * destruct (bool_decide (col ∈ l)); reflexivity.
      + assert (Hiff : bool_decide (k ∈ col :: l) = bool_decide (k ∈ l)).
        { apply bool_decide_ext. rewrite elem_of_cons. tauto. }
        rewrite Hiff.
        assert (Hacc : match m !! col with
                       | Some v => <[col := v]> acc
                       | None => acc
                       end !! k = acc !! k).
        { destruct (m !! col); [now rewrite lookup_insert_ne by congruence | reflexivity]. }
        now rewrite Hacc. }
  apply map_eq. intros k. rewrite (G cols ∅ Hfix k), lookup_empty.
  destruct (bool_decide (k ∈ cols)) eqn:Ek.
  - now destruct (m !! k).
  - destruct (m !! k) as [v |] eqn:Em; [| reflexivity].
    apply bool_decide_eq_false in Ek. destruct Ek. apply Hdom. now rewrite Em.
Qed.

(** X2. Alias resolution is idempotent: a frame whose headers are
    resolved is left as it is, columns and rows. *)
Theorem align_columns_idempotent (df : DataFrame) :
  align_columns (align_columns df) = align_columns df.
Proof.
  unfold align_columns. cbn [columns rows].
  f_equal.
  - rewrite map_map. apply map_ext. intros c. apply alias_of_idempotent.
  - rewrite map_map. apply map_ext. intros r. apply rename_row_fixed.
    + apply List.Forall_forall. intros c Hc. apply in_map_iff in Hc.
      destruct Hc as (c0 & <- & _). apply alias_of_idempotent.
    + intros c. apply rename_row_within.
Qed.

End Normalisation.

(** ** The shape of the result *)

Section Shape.

Context `{NumberSyntax}.

Lemma has_column_assign (c col : string) (f : row -> cell) (w : DataFrame) :
  c <> col -> has_column c (columns (assign col f w)) = has_column c (columns w).
Proof.
  intros Hne. unfold has_column. apply bool_decide_ext.
  rewrite columns_assign. intuition.
Qed.

Lemma has_column_coerce (c col : string) (w : DataFrame) :
  c <> col -> has_column c (columns (coerce_or_zero col w)) = has_column c (columns w).
Proof.
  intros Hne. unfold coerce_or_zero.
  destruct (has_column col (columns w)); now apply has_column_assign.
Qed.

Lemma rows_coerce (col : string) (w : DataFrame) :
  rows (coerce_or_zero col w)
  = map (fun r => <[col := if has_column col (columns w)
                           then CNum (to_numeric (cell_at col r)) else CNum 0]> r)
        (rows w).
Proof. unfold coerce_or_zero. now destruct (has_column col (columns w)). Qed.

Lemma rows_normalize (w : DataFrame) :
  rows (normalize_columns w) = map (normalize_row (columns w)) (rows w).
Proof.
  unfold normalize_columns. cbv zeta.
  rewrite rows_assign.
  rewrite !has_column_coerce, !has_column_assign by discriminate.
  assert (E : rows (if has_column "期数" (columns w)
                    then coerce_or_zero "评论数"
                           (coerce_or_zero "点赞"
                              (assign "播放量" (fun r => CNum (to_numeric (cell_at "播放量" r)))
                                 (assign "渠道"
                                    (fun r => CStr (normalize_channel (cell_at "渠道" r))) w)))
                    else assign "期数" (fun _ => CStr "默认")
                           (coerce_or_zero "评论数"
                              (coerce_or_zero "点赞"
                                 (assign "播放量" (fun r => CNum (to_numeric (cell_at "播放量" r)))
                                    (assign "渠道"
                                       (fun r => CStr (normalize_channel (cell_at "渠道" r)))
                                       w)))))
              = map (fun r =>
                       let r := <["渠道" := CStr (normalize_channel (cell_at "渠道" r))]> r in
                       let r := <["播放量" := CNum (to_numeric (cell_at "播放量" r))]> r in
                       let r := <["点赞" := if has_column "点赞" (columns w)
                                            then CNum (to_numeric (cell_at "点赞" r))
                                            else CNum 0]> r in
                       let r := <["评论数" := if has_column "评论数" (columns w)
                                              then CNum (to_numeric (cell_at "评论数" r))
                                              else CNum 0]> r in
                       if has_column "期数" (columns w) then r
                       else <["期数" := CStr "默认"]> r) (rows w)).
  { destruct (has_column "期数" (columns w));
      repeat first [ rewrite rows_assign | rewrite rows_coerce
                   | rewrite has_column_coerce by discriminate
                   | rewrite has_column_assign by discriminate ];
      rewrite !map_map; reflexivity. }
  rewrite E, map_map. reflexivity.
Qed.

Lemma In_cons_eq {A} (c x : A) (l : list A) : In c (x :: l) <-> c = x \/ In c l.
Proof. cbn. intuition. Qed.

Lemma columns_coerce (c col : string) (w : DataFrame) :
  c ∈ columns (coerce_or_zero col w) <-> c ∈ columns w \/ c = col.
Proof. unfold coerce_or_zero. destruct (has_column col (columns w)); apply columns_assign. Qed.

Lemma columns_normalize (w : DataFrame) (c : string) :
  c ∈ columns (normalize_columns w)
  <-> c ∈ columns w \/ In c ["渠道"; "播放量"; "点赞"; "评论数"; "期数"].
Proof.
  unfold normalize_columns. cbv zeta.
  pose proof (columns_assign c "渠道"
                (fun r => CStr (normalize_channel (cell_at "渠道" r))) w) as H1.
  remember (assign "渠道" (fun r => CStr (normalize_channel (cell_at "渠道" r))) w)
    as w1 eqn:E1. clear E1.
  pose proof (columns_assign c "播放量"
                (fun r => CNum (to_numeric (cell_at "播放量" r))) w1) as H2.
  remember (assign "播放量" (fun r => CNum (to_numeric (cell_at "播放量" r))) w1)
    as w2 eqn:E2. clear E2.
  pose proof (columns_coerce c "点赞" w2) as H3.
  remember (coerce_or_zero "点赞" w2) as w3 eqn:E3. clear E3.
  pose proof (columns_coerce c "评论数" w3) as H4.
  remember (coerce_or_zero "评论数" w3) as w4 eqn:E4. clear E4.
  rewrite columns_assign, !In_cons_eq. cbn [In].
  destruct (has_column "期数" (columns w4)); [| rewrite columns_assign]; tauto.
Qed.

Lemma validate_ok (w : DataFrame) (u : unit) :
  validate w = Ok u ->
  "渠道" ∈ columns w /\ "播放量" ∈ columns w /\ "作品类型" ∈ columns w
  /\ has_identity (columns w) = true.
Proof.
  unfold validate. destruct (missing_base (columns w)) as [| m l] eqn:Em; cbn [is_empty negb];
    [| discriminate].
  destruct (has_identity (columns w)) eqn:Ei; cbn [negb]; [| discriminate]. intros _.
  assert (G : forall c, In c REQUIRED_BASE_COLUMNS -> c ∈ columns w).
  { intros c Hc. destruct (has_column c (columns w)) eqn:E; [now apply has_column_true |].
    assert (Hin : In c (missing_base (columns w))).
    { unfold missing_base. apply filter_In. split; [exact Hc | now rewrite E]. }
    rewrite Em in Hin. destruct Hin. }
  repeat split; try apply G; cbn; auto.
Qed.

(** The frame before the sort, row by row from the aligned dataset. *)
Lemma scored_table_shape (df : DataFrame) (rule : rule_object) (w5 : DataFrame) :
  scored_table df rule = Ok w5 ->
  exists (S0 : Q) (labels : list string),
    incl labels read_columns
    /\ validate (align_columns df) = Ok tt
    /\ rows_within w5
    /\ (forall c, c ∈ columns w5
                  <-> c ∈ columns (align_columns df)
                      \/ In c ["渠道"; "播放量"; "点赞"; "评论数"; "期数"; "账号标识"; "排除原因";
                               "基础奖励"; "限时奖励"; "平台加成"; "优质加成"; "总奖励";
                               "超额标记"; "作品标识"])
    /\ Forall2 (fun a s => exists q,
                   s = score_row (_extract_rule_config rule) S0 labels q
                         (normalize_row (columns (align_columns df)) a))
               (rows (align_columns df)) (rows w5).
Proof.
  intros Ht. unfold scored_table in Ht. cbv zeta in Ht.
  remember (_extract_rule_config rule) as cfg eqn:Ecfg. clear Ecfg.
  apply result_bind_ok in Ht. destruct Ht as (u & Hv & Ht). destruct u.
  pose proof (rows_within_align df) as Hw0.
  remember (align_columns df) as w0 eqn:E0. clear E0.
  pose proof (rows_within_normalize w0 Hw0) as Hwn.
  pose proof (rows_normalize w0) as Hrowsn.
  pose proof (fun c => columns_normalize w0 c) as Hcolsn.
  remember (normalize_columns w0) as wn eqn:En. clear En.
  pose proof (rows_within_mark wn Hwn) as Hw2.
  pose proof (rows_mark wn) as Hrows2.
  pose proof (fun c => columns_mark wn c) as Hcols2.
  pose proof (fun c => columns_assign c "账号标识" (fun r => CStr (pick_identity r)) wn)
    as Hcols1.
  remember (assign "账号标识" (fun r => CStr (pick_identity r)) wn) as w1 eqn:E1. clear E1.
  remember (text_columns w1) as labels eqn:El.
  remember (mark_rows wn) as w2 eqn:E2. clear E2.
  remember (plays_sum cfg (rows w2)) as S0 eqn:ES. clear ES.
  pose proof (rows_within_assign "基础奖励"
                (fun r => CNum (calc_base_reward cfg S0 r)) w2 Hw2) as Hw3.
  change (rows_within (base_rewards cfg S0 w2)) in Hw3.
  pose proof (rows_base_rewards cfg S0 w2) as Hrows3.
  pose proof (fun c => columns_base_rewards cfg S0 w2 c) as Hcols3.
  remember (base_rewards cfg S0 w2) as w3 eqn:E3. clear E3.
  apply result_bind_ok in Ht. destruct Ht as (w4 & Eb & Ht).
  pose proof (rows_within_bonuses cfg w3 w4 Eb Hw3) as Hw4.
  pose proof (bonuses_rows cfg w3 w4 Eb) as Hrows4.
  pose proof (fun c => columns_bonuses cfg w3 w4 c Eb) as Hcols4. clear Eb.
  pose proof (rows_within_totals w4 Hw4) as Hw5.
  pose proof (rows_totals w4) as Hrows5.
  pose proof (fun c => columns_totals w4 c) as Hcols5.
  injection Ht as <-.
  exists S0, labels.
  split; [rewrite El; apply text_columns_read |].
  split; [exact Hv |]. split; [exact Hw5 |]. split.
  - intros c. rewrite Hcols5, Hcols4, Hcols3, Hcols2, Hcols1, Hcolsn.
    rewrite !In_cons_eq. cbn [In]. tauto.
  - rewrite Hrows5. apply Forall2_map_right.
    rewrite Hrows3, Hrows2, Hrowsn, !map_map in Hrows4.
    apply Forall2_map_left in Hrows4.
    eapply Forall2_impl; [exact Hrows4 |]. cbn beta.
    intros a r4 (q & _ & ->). exists q. reflexivity.
Qed.

(** The rows and the columns of the result. *)
Lemma rewards_table_shape (df : DataFrame) (rule : rule_object) (out : DataFrame) :
  rewards_table df rule = Ok out ->
  exists (S0 : Q) (labels : list string) (w5 : DataFrame),
    incl labels read_columns
    /\ validate (align_columns df) = Ok tt
    /\ columns out = ordered_columns (add_status w5)
    /\ (forall c, c ∈ columns w5
                  <-> c ∈ columns (align_columns df)
                      \/ In c ["渠道"; "播放量"; "点赞"; "评论数"; "期数"; "账号标识"; "排除原因";
                               "基础奖励"; "限时奖励"; "平台加成"; "优质加成"; "总奖励";
                               "超额标记"; "作品标识"])
    /\ rows_within w5
    /\ rows out = map with_status (sort_rows (rows w5))
    /\ Forall2 (fun a s => exists q,
                   s = score_row (_extract_rule_config rule) S0 labels q
                         (normalize_row (columns (align_columns df)) a))
               (rows (align_columns df)) (rows w5).
Proof.
  intros Ht. unfold rewards_table in Ht.
  apply result_bind_ok in Ht. destruct Ht as (w5 & Hs & Ht).
  destruct (scored_table_shape df rule w5 Hs) as (S0 & labels & Hl & Hv & Hw & Hc & Hr).
  injection Ht as <-.
  destruct (status_and_select w5 (sort_rows (rows w5)) Hw (sort_rows_perm _))
    as [Hrows _].
  exists S0, labels, w5.
  split; [exact Hl |]. split; [exact Hv |]. split.
  { unfold finish_table. cbn [columns select_columns].
    apply ordered_columns_ext. reflexivity. }
  split; [exact Hc |]. split; [exact Hw |]. split; [exact Hrows | exact Hr].
Qed.

End Shape.

Section Rows.

Context `{NumberSyntax}.

Ltac lookup_through :=
  repeat first [ rewrite lookup_insert_eq
               | rewrite lookup_insert_ne by discriminate ].

Lemma not_in_cons {A} (c x : A) (l : list A) : ~ In c (x :: l) -> c <> x /\ ~ In c l.
Proof. cbn. intuition. Qed.

Lemma score_row_other (cfg : rule_config) (S : Q) (labels : list string) (q : Q)
      (n : row) (c : string) :
  ~ In c ("账号标识" :: written_columns) ->
  with_status (score_row cfg S labels q n) !! c = n !! c.
Proof.
  intros Hc. unfold written_columns in Hc.
  repeat (apply not_in_cons in Hc; destruct Hc as [? Hc]).
  rewrite with_status_other by assumption.
  unfold score_row. rewrite totals_row_other by assumption.
  rewrite lookup_insert_ne by congruence.
  unfold bonus_row, base_row, mark_row, ident_row. cbv zeta.
  now rewrite !lookup_insert_ne by congruence.
Qed.

Lemma score_row_identity (cfg : rule_config) (S : Q) (labels : list string) (q : Q)
      (n : row) :
  with_status (score_row cfg S labels q n) !! "账号标识" = Some (CStr (pick_identity n)).
Proof.
  rewrite with_status_other by discriminate.
  unfold score_row. rewrite totals_row_other by discriminate.
  unfold bonus_row, base_row, mark_row, ident_row. cbv zeta.
  now lookup_through.
Qed.

Lemma normalize_row_other (cols : list string) (a : row) (c : string) :
  ~ In c ["渠道"; "播放量"; "点赞"; "评论数"; "期数"] -> normalize_row cols a !! c = a !! c.
Proof.
  intros Hc. repeat (apply not_in_cons in Hc; destruct Hc as [? Hc]).
  unfold normalize_row. cbv zeta.
  destruct (has_column "期数" cols); now rewrite !lookup_insert_ne by congruence.
Qed.

Lemma normalize_row_channel (cols : list string) (a : row) :
  normalize_row cols a !! "渠道" = Some (CStr (normalize_channel (cell_at "渠道" a))).
Proof.
  unfold normalize_row. cbv zeta.
  destruct (has_column "期数" cols); now lookup_through.
Qed.

Lemma normalize_row_plays (cols : list string) (a : row) :
  normalize_row cols a !! "播放量" = Some (CNum (to_numeric (cell_at "播放量" a))).
Proof.
  unfold normalize_row. cbv zeta.
  destruct (has_column "期数" cols); lookup_through; unfold cell_at; now lookup_through.
Qed.

Lemma normalize_row_likes (cols : list string) (a : row) :
  normalize_row cols a !! "点赞"
  = Some (if has_column "点赞" cols then CNum (to_numeric (cell_at "点赞" a)) else CNum 0).
Proof.
  unfold normalize_row. cbv zeta.
  destruct (has_column "期数" cols); lookup_through; unfold cell_at; now lookup_through.
Qed.

Lemma normalize_row_comments (cols : list string) (a : row) :
  normalize_row cols a !! "评论数"
  = Some (if has_column "评论数" cols then CNum (to_numeric (cell_at "评论数" a)) else CNum 0).
Proof.
  unfold normalize_row. cbv zeta.
  destruct (has_column "期数" cols); lookup_through; unfold cell_at; now lookup_through.
Qed.

Lemma normalize_row_period (cols : list string) (a : row) :
  normalize_row cols a !! "期数"
  = Some (period_text (if has_column "期数" cols then cell_at "期数" a else CStr "默认")).
Proof.
  unfold normalize_row. cbv zeta.
  destruct (has_column "期数" cols); lookup_through; unfold cell_at; now lookup_through.
Qed.

(** Every row of the result comes from a row of the aligned dataset. *)
Lemma result_row_origin (df : DataFrame) (rule : rule_object) (out : DataFrame) (r : row) :
  rewards_table df rule = Ok out -> In r (rows out) ->
  exists (a : row) (S0 q : Q) (labels : list string),
    In a (rows (align_columns df))
    /\ r = with_status (score_row (_extract_rule_config rule) S0 labels q
                          (normalize_row (columns (align_columns df)) a)).
Proof.
  intros Ht Hr.
  destruct (rewards_table_shape df rule out Ht)
    as (S0 & labels & w5 & _ & _ & _ & _ & _ & Hrows & Hall).
  rewrite Hrows in Hr. apply in_map_iff in Hr. destruct Hr as (s & <- & Hs).
  apply (Permutation_in _ (sort_rows_perm _)) in Hs.
  destruct (Forall2_In_r _ _ _ _ Hall Hs) as (a & Ha & q & ->).
  exists a, S0, q, labels. split; [exact Ha | reflexivity].
Qed.

Lemma aligned_row_within (df : DataFrame) (a : row) (c : string) :
  In a (rows (align_columns df)) -> is_Some (a !! c) -> c ∈ columns (align_columns df).
Proof.
  intros Ha. pose proof (rows_within_align df) as Hw. unfold rows_within in Hw.
  rewrite List.Forall_forall in Hw. apply (Hw a Ha).
Qed.

End Rows.

Section Layout.

Context `{NumberSyntax}.

Lemma not_in_by_eqb (c : string) (l : list string) :
  forallb (fun x => negb (String.eqb c x)) l = true -> ~ In c l.
Proof.
  intros G Hin. rewrite forallb_forall in G. specialize (G c Hin).
  now rewrite String.eqb_refl in G.
Qed.

Lemma alias_keys_fresh (kv : string * string) :
  In kv COLUMN_ALIASES ->
  ~ In (fst kv) ("账号标识" :: written_columns)
  /\ ~ In (fst kv) ["渠道"; "播放量"; "点赞"; "评论数"; "期数"].
Proof.
  assert (G : forallb (fun kv : string * string =>
                         forallb (fun x => negb (String.eqb (fst kv) x))
                                 ("账号标识" :: written_columns)
                         && forallb (fun x => negb (String.eqb (fst kv) x))
                                    ["渠道"; "播放量"; "点赞"; "评论数"; "期数"])
                      COLUMN_ALIASES = true) by (vm_compute; reflexivity).
  intros Hin. rewrite forallb_forall in G. specialize (G kv Hin).
  apply andb_true_iff in G. destruct G as [G1 G2].
  split; now apply not_in_by_eqb.
Qed.

Lemma result_columns_iff (df : DataFrame) (rule : rule_object) (out : DataFrame) (c : string) :
  rewards_table df rule = Ok out ->
  c ∈ columns out <-> c ∈ columns (align_columns df) \/ In c produced_columns.
Proof.
  intros Ht.
  destruct (rewards_table_shape df rule out Ht)
    as (S0 & labels & w5 & _ & Hv & Hcols & Hc & _ & _ & _).
  apply validate_ok in Hv. destruct Hv as (Hv1 & Hv2 & _ & _).
  rewrite Hcols, columns_ordered, columns_add_status, Hc.
  unfold produced_columns. rewrite !In_cons_eq. cbn [In].
  split; [| tauto]. intros Hx. decompose [or] Hx; subst; tauto.
Qed.

(** X4. The result has as many rows as the dataset: no row is dropped, an
    excluded row included. *)
Theorem result_row_count (df : DataFrame) (rule : rule_object) (out : DataFrame) :
  rewards_table df rule = Ok out -> List.length (rows out) = List.length (rows df).
Proof.
  intros Ht.
  destruct (rewards_table_rows df rule out Ht) as (S0 & scored & u & _ & Hlen & Hr & _).
  rewrite Hr, length_map, <- Hlen. apply Permutation_length, sort_rows_perm.
Qed.

(** X5. The columns of the result are the columns of the dataset under
    their resolved names, and the thirteen columns the computation makes. *)
Theorem result_columns (df : DataFrame) (rule : rule_object) (out : DataFrame) :
  rewards_table df rule = Ok out ->
  forall c, c ∈ columns out <-> c ∈ map alias_of (columns df) \/ In c produced_columns.
Proof. intros Ht c. apply (result_columns_iff df rule out c Ht). Qed.

(** X3. No column of the result carries an alias name, and no row holds a
    cell under one. *)
Theorem result_has_no_alias_column (df : DataFrame) (rule : rule_object) (out : DataFrame) :
  rewards_table df rule = Ok out ->
  forall kv, In kv COLUMN_ALIASES ->
    (fst kv ∉ columns out) /\ forall r, In r (rows out) -> r !! fst kv = None.
Proof.
  intros Ht kv Hkv. destruct (alias_keys_fresh kv Hkv) as [Hw Hn].
  assert (Hno : fst kv ∉ columns (align_columns df)).
  { cbn [align_columns columns]. intros Hin. apply list_elem_of_In, in_map_iff in Hin.
    destruct Hin as (x & Hx & _). now apply (alias_of_not_key x kv Hkv). }
  split.
  - rewrite (result_columns_iff df rule out _ Ht). intros [Hin | Hin]; [now apply Hno |].
    unfold produced_columns in Hin. unfold written_columns in Hw.
    cbn [In] in Hin, Hw, Hn. tauto.
  - intros r Hr.
    destruct (result_row_origin df rule out r Ht Hr) as (a & S0 & q & labels & Ha & ->).
    rewrite score_row_other by exact Hw. rewrite normalize_row_other by exact Hn.
    destruct (a !! fst kv) as [v |] eqn:Ea; [| reflexivity].
    destruct Hno. apply (aligned_row_within df a _ Ha). now rewrite Ea.
Qed.

Lemma has_column_iff (c : string) (cols cols' : list string) :
  (c ∈ cols <-> c ∈ cols') -> has_column c cols = has_column c cols'.
Proof. intros Hiff. unfold has_column. now apply bool_decide_ext. Qed.

Lemma in_by_eqb (c : string) (l : list string) :
  existsb (String.eqb c) l = true -> In c l.
Proof.
  intros G. apply existsb_exists in G. destruct G as (x & Hx & E).
  apply String.eqb_eq in E. now subst.
Qed.

Lemma filter_all {A} (f : A -> bool) (l : list A) :
  (forall x, In x l -> f x = true) -> List.filter f l = l.
Proof.
  induction l as [| x l IH]; intros Hf; cbn; [reflexivity |].
  rewrite (Hf x) by now left. f_equal. apply IH. intros y Hy. apply Hf. now right.
Qed.

Lemma extra_not_display (cols : list string) :
  Forall (fun c => ~ In c display_cols)
         (List.filter
            (fun c => negb (has_column c
                              (List.filter (fun c => has_column c cols) display_cols)))
            cols).
Proof.
  apply List.Forall_forall. intros c Hc Hd. apply filter_In in Hc. destruct Hc as [Hin Hn].
  apply negb_true_iff in Hn.
  assert (Hp : has_column c (List.filter (fun c => has_column c cols) display_cols) = true).
  { apply has_column_true, list_elem_of_In, filter_In. split; [exact Hd |].
    now apply has_column_true, list_elem_of_In. }
  congruence.
Qed.

(** X6. The result opens with the display columns in their fixed order;
    of these only the three identity columns may be missing, when the
    dataset has none of that name.  The other columns follow. *)
Theorem result_display_order (df : DataFrame) (rule : rule_object) (out : DataFrame) :
  rewards_table df rule = Ok out ->
  exists extra_cols,
    columns out
    = ["期数"; "渠道"; "账号标识"]
        ++ List.filter (fun c => has_column c (map alias_of (columns df))) IDENTITY_COLUMNS
        ++ ["作品标识"; "作品类型"; "播放量"; "点赞"; "评论数"; "基础奖励"; "限时奖励";
            "平台加成"; "优质加成"; "总奖励"; "状态"]
        ++ extra_cols
    /\ Forall (fun c => ~ In c display_cols) extra_cols.
Proof.
  intros Ht.
  destruct (rewards_table_shape df rule out Ht)
    as (S0 & labels & w5 & _ & Hv & Hcols & Hc & _ & _ & _).
  apply validate_ok in Hv. destruct Hv as (Hv1 & Hv2 & Hv3 & _).
  assert (Hmem : forall c, c ∈ columns (add_status w5)
                           <-> c ∈ map alias_of (columns df) \/ In c produced_columns).
  { intros c. rewrite <- (columns_ordered (add_status w5) c), <- Hcols.
    apply (result_columns_iff df rule out c Ht). }
  assert (Hyes : forall c, In c produced_columns \/ c ∈ map alias_of (columns df) ->
                           has_column c (columns (add_status w5)) = true).
  { intros c Hin. apply has_column_true, Hmem. tauto. }
  assert (Hid : forall c, ~ In c produced_columns ->
                          has_column c (columns (add_status w5))
                          = has_column c (map alias_of (columns df))).
  { intros c Hn. apply has_column_iff. rewrite Hmem. tauto. }
  rewrite Hcols. unfold ordered_columns. cbv zeta.
  remember (columns (add_status w5)) as cols eqn:Ecols. clear Ecols Hmem Hcols Hc.
  assert (Hp : List.filter (fun c => has_column c cols) display_cols
               = ["期数"; "渠道"; "账号标识"]
                   ++ List.filter (fun c => has_column c (map alias_of (columns df)))
                        IDENTITY_COLUMNS
                   ++ ["作品标识"; "作品类型"; "播放量"; "点赞"; "评论数"; "基础奖励";
                       "限时奖励"; "平台加成"; "优质加成"; "总奖励"; "状态"]).
  { change display_cols
      with (["期数"; "渠道"; "账号标识"] ++ IDENTITY_COLUMNS
              ++ ["作品标识"; "作品类型"; "播放量"; "点赞"; "评论数"; "基础奖励"; "限时奖励";
                  "平台加成"; "优质加成"; "总奖励"; "状态"]).
    rewrite !List.filter_app. f_equal; [| f_equal].
    - apply filter_all. intros c Hc. apply Hyes.
      cbn [In] in Hc. decompose [or] Hc; subst; try contradiction;
        first [ now right | left; apply in_by_eqb; vm_compute; reflexivity ].
    - apply filter_ext_in. intros c Hc. apply Hid.
      cbn [In IDENTITY_COLUMNS] in Hc. decompose [or] Hc; subst; try contradiction;
        apply not_in_by_eqb; vm_compute; reflexivity.
    - apply filter_all. intros c Hc. apply Hyes.
      cbn [In] in Hc. decompose [or] Hc; subst; try contradiction;
        first [ now right | left; apply in_by_eqb; vm_compute; reflexivity ]. }
  eexists. split; [| apply (extra_not_display cols)].
  rewrite Hp, <- !app_assoc. reflexivity.
Qed.

End Layout.

Section Keys.

Context `{NumberSyntax}.

Ltac lookup_through :=
  repeat first [ rewrite lookup_insert_eq
               | rewrite lookup_insert_ne by discriminate ].

Lemma coalesce_row_agree (cols : list string) (r r' : row) :
  (forall c, In c cols -> r !! c = r' !! c) -> coalesce_row r cols = coalesce_row r' cols.
Proof.
  induction cols as [| col cols IH]; intros Ha; cbn; [reflexivity |].
  rewrite (Ha col) by now left.
  rewrite IH by (intros c Hc; apply Ha; now right). reflexivity.
Qed.

(** The text [coalesce_row] returns is trimmed, and comes from a cell that
    is neither NaN nor None. *)
Lemma coalesce_row_cases (r : row) (cols : list string) :
  coalesce_row r cols = EmptyString
  \/ (coalesce_row r cols <> EmptyString
      /\ exists col c,
           In col cols /\ r !! col = Some c /\ notna c = true
           /\ coalesce_row r cols = Text.strip (str_cell c)).
Proof.
  induction cols as [| col cols IH]; cbn; [now left |].
  destruct (r !! col) as [c |] eqn:Ec.
  - destruct (notna c) eqn:En; cbn [andb].
    + destruct (str_eqb (Text.strip (str_cell c)) EmptyString) eqn:Es; cbn [negb].
      * destruct IH as [IH | (Hne & col' & c' & Hin & Hc & Hn & E)]; [now left | right].
        split; [exact Hne |]. exists col', c'. auto.
      * right. split.
        { intros E. unfold str_eqb in Es. rewrite E in Es. discriminate. }
        exists col, c. auto.
    + destruct IH as [IH | (Hne & col' & c' & Hin & Hc & Hn & E)]; [now left | right].
      split; [exact Hne |]. exists col', c'. auto.
  - destruct IH as [IH | (Hne & col' & c' & Hin & Hc & Hn & E)]; [now left | right].
    split; [exact Hne |]. exists col', c'. auto.
Qed.

Lemma pick_identity_agree (r r' : row) :
  (forall c, In c IDENTITY_COLUMNS -> r !! c = r' !! c) -> pick_identity r = pick_identity r'.
Proof.
  intros Ha. unfold pick_identity.
  now rewrite (coalesce_row_agree ["账号ID"; "账号名称"; "账号昵称"] r r' Ha).
Qed.

Lemma pick_title_agree (r r' : row) :
  (forall c, In c ["视频标题"; "作品标题"; "标题"] -> r !! c = r' !! c) ->
  pick_title r = pick_title r'.
Proof. intros Ha. unfold pick_title. now rewrite (coalesce_row_agree _ r r' Ha). Qed.

Lemma pick_identity_cases (r : row) :
  pick_identity r <> EmptyString
  /\ Text.strip (pick_identity r) = pick_identity r
  /\ (pick_identity r = "未知账号"
      \/ exists col c,
           In col IDENTITY_COLUMNS /\ r !! col = Some c /\ notna c = true
           /\ pick_identity r = Text.strip (str_cell c)).
Proof.
  unfold pick_identity.
  destruct (coalesce_row_cases r ["账号ID"; "账号名称"; "账号昵称"])
    as [E | (Hne & col & c & Hin & Hc & Hn & E)].
  - rewrite E. cbn. repeat split; [discriminate | now left].
  - destruct (str_eqb _ EmptyString) eqn:Es.
    + apply String.eqb_eq in Es. contradiction.
    + repeat split; [exact Hne | rewrite E; apply strip_strip |].
      right. exists col, c. auto.
Qed.

Lemma pick_title_nonempty (r : row) : pick_title r <> EmptyString.
Proof.
  unfold pick_title. destruct (str_eqb _ EmptyString) eqn:Es; [discriminate |].
  intros E. unfold str_eqb in Es. rewrite E in Es. discriminate.
Qed.

Lemma result_identity_cell (df : DataFrame) (rule : rule_object) (out : DataFrame) (r : row) :
  rewards_table df rule = Ok out -> In r (rows out) ->
  r !! "账号标识" = Some (CStr (pick_identity r)).
Proof.
  intros Ht Hr.
  destruct (result_row_origin df rule out r Ht Hr) as (a & S0 & q & labels & Ha & ->).
  rewrite score_row_identity. do 2 f_equal. apply pick_identity_agree.
  intros c Hc. symmetry. apply score_row_other.
  cbn [In IDENTITY_COLUMNS] in Hc. decompose [or] Hc; subst; try contradiction;
    apply not_in_by_eqb; vm_compute; reflexivity.
Qed.

(** X7. The identity key of a result row is the text [pick_identity] reads
    in the row itself: never empty, trimmed, and either the fallback label
    or the trimmed text of an identity cell that is neither NaN nor None. *)
Theorem result_identity_key (df : DataFrame) (rule : rule_object) (out : DataFrame) :
  rewards_table df rule = Ok out ->
  forall r, In r (rows out) ->
    r !! "账号标识" = Some (CStr (pick_identity r))
    /\ pick_identity r <> EmptyString
    /\ Text.strip (pick_identity r) = pick_identity r
    /\ (pick_identity r = "未知账号"
        \/ exists col c,
             In col IDENTITY_COLUMNS /\ r !! col = Some c /\ notna c = true
             /\ pick_identity r = Text.strip (str_cell c)).
Proof.
  intros Ht r Hr. split; [| apply pick_identity_cases].
  apply (result_identity_cell df rule out r Ht Hr).
Qed.

Lemma work_key_agree (r r' : row) :
  (forall c, In c ["账号名称"; "账号标识"; "视频标题"; "作品标题"; "标题"] ->
             r !! c = r' !! c) ->
  work_key r = work_key r'.
Proof.
  intros Ha. unfold work_key.
  rewrite (Ha "账号名称"), (Ha "账号标识") by (cbn; tauto).
  rewrite (pick_title_agree r r'); [reflexivity |].
  intros c Hc. apply Ha. cbn in Hc |- *. tauto.
Qed.

Lemma totals_row_key (r : row) : totals_row r !! "作品标识" = Some (CStr (work_key r)).
Proof.
  unfold totals_row. cbv zeta. lookup_through. do 2 f_equal.
  apply work_key_agree. intros c Hc.
  cbn [In] in Hc. decompose [or] Hc; subst; try contradiction; now lookup_through.
Qed.

(** X10. The work key of a result row is the f-string read on the row
    itself: the account-name cell as text when the dataset has an
    account-name column (a NaN cell prints as nan), else the identity key;
    then the separator and the title, which is never empty. *)
Theorem result_work_key (df : DataFrame) (rule : rule_object) (out : DataFrame) :
  rewards_table df rule = Ok out ->
  forall r, In r (rows out) ->
    r !! "作品标识" = Some (CStr (work_key r))
    /\ work_key r
       = match r !! "账号名称" with
         | Some c => str_cell c
         | None => pick_identity r
         end +:+ "｜" +:+ pick_title r
    /\ pick_title r <> EmptyString.
Proof.
  intros Ht r Hr. pose proof (result_identity_cell df rule out r Ht Hr) as Hid.
  split; [| split; [| apply pick_title_nonempty]].
  - clear Hid.
    destruct (result_row_origin df rule out r Ht Hr) as (a & S0 & q & labels & Ha & ->).
    rewrite with_status_other by discriminate.
    unfold score_row. rewrite totals_row_key. do 2 f_equal.
    apply work_key_agree. intros c Hc.
    rewrite with_status_other, totals_row_other;
      cbn [In] in Hc; decompose [or] Hc; subst; try contradiction;
      (reflexivity || discriminate).
  - unfold work_key. rewrite Hid. now destruct (r !! "账号名称").
Qed.

(** X8. The period of a result row is text; it is the default label when
    the dataset has no period column. *)
Theorem result_period_text (df : DataFrame) (rule : rule_object) (out : DataFrame) :
  rewards_table df rule = Ok out ->
  forall r, In r (rows out) ->
    exists s, r !! "期数" = Some (CStr s)
              /\ ("期数" ∉ map alias_of (columns df) -> s = "默认").
Proof.
  intros Ht r Hr.
  destruct (result_row_origin df rule out r Ht Hr) as (a & S0 & q & labels & Ha & ->).
  rewrite score_row_other by (apply not_in_by_eqb; vm_compute; reflexivity).
  rewrite normalize_row_period. cbn [align_columns columns].
  destruct (has_column "期数" (map alias_of (columns df))) eqn:E.
  - unfold period_text. destruct (notna (cell_at "期数" a)); eexists; split;
      try reflexivity; intros Hn; apply has_column_true in E; contradiction.
  - cbn. eexists; split; reflexivity.
Qed.

(** X9. Plays, likes and comments of a result row are numbers; likes and
    comments are 0 when the dataset has no such column. *)
Theorem result_numeric_columns (df : DataFrame) (rule : rule_object) (out : DataFrame) :
  rewards_table df rule = Ok out ->
  forall r, In r (rows out) ->
    exists plays likes comments : Q,
      r !! "播放量" = Some (CNum plays)
      /\ r !! "点赞" = Some (CNum likes)
      /\ r !! "评论数" = Some (CNum comments)
      /\ ("点赞" ∉ map alias_of (columns df) -> likes = 0%Q)
      /\ ("评论数" ∉ map alias_of (columns df) -> comments = 0%Q).
Proof.
  intros Ht r Hr.
  destruct (result_row_origin df rule out r Ht Hr) as (a & S0 & q & labels & Ha & ->).
  rewrite !score_row_other by (apply not_in_by_eqb; vm_compute; reflexivity).
  rewrite normalize_row_plays, normalize_row_likes, normalize_row_comments.
  cbn [align_columns columns].
  destruct (has_column "点赞" (map alias_of (columns df))) eqn:E1;
    destruct (has_column "评论数" (map alias_of (columns df))) eqn:E2;
    do 3 eexists; repeat split; try reflexivity; intros Hn;
    try (apply has_column_true in E1; contradiction);
    try (apply has_column_true in E2; contradiction).
Qed.

End Keys.

Section Totality.

Context `{NumberSyntax}.

Ltac lookup_through :=
  repeat first [ rewrite lookup_insert_eq
               | rewrite lookup_insert_ne by discriminate ].







End Totality.

(** ** The calculators *)

Section Bonuses.

Context `{NumberSyntax}.

(** *** Tiers *)



(** *** The time bonus *)




(** *** The platform bonus *)

(** X14. A flag cell that is NaN, as an empty cell of the upload is read,
    counts as a set flag: on a Bilibili row a NaN popular flag gives 200,
    and a NaN trending flag gives 100 at least. *)
Theorem bilibili_extra_nan_flag (r : row) :
  cell_at "渠道" r = CStr "B站" ->
  (r !! "B站热门" = Some CNaN -> bilibili_extra r = 200%Z)
  /\ (r !! "B站热搜" = Some CNaN -> (100 <= bilibili_extra r)%Z).
Proof.
  intros Hc. unfold bilibili_extra, bilibili_candidates. rewrite Hc. cbv zeta.
  cbn [cell_is str_eqb negb]. rewrite String.eqb_refl. cbn [negb].
  split; intros ->; cbn [bool_from_any orb];
    destruct (Text.contains "热搜" (type_text r)), (Text.contains "热门" (type_text r));
    try destruct (bool_from_any (r !! "B站热搜") || bool_from_any (r !! "热搜"));
    try destruct (bool_from_any (r !! "B站热门") || bool_from_any (r !! "热门"));
    cbn; lia.
Qed.

End Bonuses.

Section Amounts.

Context `{NumberSyntax}.

(** *** The quality bonus *)






End Amounts.

Section Payout.

Context `{NumberSyntax}.


(** *** Amounts that are not negative *)













End Payout.

(** ** The page *)

Section Page.

Context `{NumberSyntax}.





(** *** The error banner *)




End Page.

(** ** The activity store *)

Section ActivityStore.

Import Store.

Context `{ValueSyntax}.

Ltac dict_lookup :=
  unfold get, get_or, rule_of, mk_dict;
  rewrite ?list_to_map_cons, ?list_to_map_nil;
  repeat first [ rewrite lookup_insert_eq
               | rewrite lookup_insert_ne by discriminate
               | rewrite lookup_empty ];
  cbn [default].

Lemma or_else_truthy (x y : json) : truthy_json y = true -> truthy_json (or_else x y) = true.
Proof. intros Hy. unfold or_else. now destruct (truthy_json x) eqn:E. Qed.

Lemma or_else_same (x y : json) : truthy_json x = true -> or_else x y = x.
Proof. intros Hx. unfold or_else. now rewrite Hx. Qed.

Lemma normalize_item_normal (item : json) (r : dict) :
  normalize_item item = Some r -> normal_rule r.
Proof.
  destruct item as [| | | | | | d]; try discriminate. cbn [normalize_item].
  intros [= <-].
  exists (str_json (get_or "id" (JStr "rule_default") d)),
    (str_json (get_or "name" (JStr "默认规则") d)),
    (str_json (get_or "version" (JStr REWARD_VERSION) d)),
    (or_else (get "table" d) DEFAULT_REWARD_TABLE),
    (or_else (get "quality_rules" d) DEFAULT_QUALITY_RULES),
    (or_else (get "time_rules" d) DEFAULT_TIME_RULES),
    (str_json (get_or "base_mode" (JStr DEFAULT_BASE_MODE) d)),
    (get_or "base_params" DEFAULT_BASE_PARAMS d).
  split; [| split; [| split; [| reflexivity]]]; now apply or_else_truthy.
Qed.

Lemma normalize_rule_of (id name version : string) (table quality_rules time_rules : json)
      (base_mode : string) (base_params : json) :
  truthy_json table = true -> truthy_json quality_rules = true ->
  truthy_json time_rules = true ->
  normalize_item
    (JDict (rule_of id name version table quality_rules time_rules base_mode base_params))
  = Some (rule_of id name version table quality_rules time_rules base_mode base_params).
Proof.
  intros Ht Hq Htm. cbn [normalize_item]. f_equal.
  set (r := rule_of id name version table quality_rules time_rules base_mode base_params).
  assert (E1 : get_or "id" (JStr "rule_default") r = JStr id) by (subst r; now dict_lookup).
  assert (E2 : get_or "name" (JStr "默认规则") r = JStr name) by (subst r; now dict_lookup).
  assert (E3 : get_or "version" (JStr REWARD_VERSION) r = JStr version)
    by (subst r; now dict_lookup).
  assert (E4 : get "table" r = table) by (subst r; now dict_lookup).
  assert (E5 : get "quality_rules" r = quality_rules) by (subst r; now dict_lookup).
  assert (E6 : get "time_rules" r = time_rules) by (subst r; now dict_lookup).
  assert (E7 : get_or "base_mode" (JStr DEFAULT_BASE_MODE) r = JStr base_mode)
    by (subst r; now dict_lookup).
  assert (E8 : get_or "base_params" DEFAULT_BASE_PARAMS r = base_params)
    by (subst r; now dict_lookup).
  rewrite E1, E2, E3, E4, E5, E6, E7, E8, !or_else_same by assumption. reflexivity.
Qed.

Lemma normalize_normal (r : dict) : normal_rule r -> normalize_item (JDict r) = Some r.
Proof.
  intros (id & name & version & table & q & t & mode & bp & Ht & Hq & Htm & ->).
  now apply normalize_rule_of.
Qed.

Lemma omap_normal (rs : list dict) :
  Forall normal_rule rs -> omap normalize_item (map JDict rs) = rs.
Proof.
  induction 1 as [| r rs Hr Hrs IH]; [reflexivity |].
  cbn [map omap list_omap]. fold (omap normalize_item (map JDict rs)).
  rewrite (normalize_normal r Hr), IH. reflexivity.
Qed.

Lemma omap_all_normal (items : list json) :
  Forall normal_rule (omap normalize_item items).
Proof.
  induction items as [| item items IH]; [constructor |].
  cbn [omap list_omap]. fold (omap normalize_item items).
  destruct (normalize_item item) as [r |] eqn:E; [| exact IH].
  constructor; [now apply (normalize_item_normal item) | exact IH].
Qed.

Lemma default_rule_normal : normal_rule _default_rule.
Proof.
  exists "rule_default", "默认规则", REWARD_VERSION, DEFAULT_REWARD_TABLE,
    DEFAULT_QUALITY_RULES, DEFAULT_TIME_RULES, DEFAULT_BASE_MODE, DEFAULT_BASE_PARAMS.
  repeat split; reflexivity.
Qed.

Lemma normalize_rules_normal (rules : json) :
  _normalize_rule_versions rules <> [] /\ Forall normal_rule (_normalize_rule_versions rules).
Proof.
  assert (Hd : [_default_rule] <> [] /\ Forall normal_rule [_default_rule]).
  { split; [discriminate | repeat constructor; apply default_rule_normal]. }
  destruct rules as [| | | | | items |]; try exact Hd. cbn [_normalize_rule_versions].
  pose proof (omap_all_normal items) as Hall.
  destruct (omap normalize_item items) as [| r rs]; cbn [is_empty]; [exact Hd |].
  split; [discriminate | exact Hall].
Qed.

Lemma normalize_rules_fixed (rs : list dict) :
  rs <> [] -> Forall normal_rule rs -> _normalize_rule_versions (JList (map JDict rs)) = rs.
Proof.
  intros Hne Hall. cbn [_normalize_rule_versions]. rewrite (omap_normal rs Hall).
  destruct rs; [contradiction | reflexivity].
Qed.

Ltac dict_eq :=
  apply map_eq; intros ?k;
  unfold rule_of, mk_dict; rewrite ?list_to_map_cons, ?list_to_map_nil;
  rewrite !lookup_insert;
  repeat (case_decide; try congruence); reflexivity.

Lemma rule_of_reset (id name version : string) (table quality_rules time_rules : json)
      (base_mode : string) (base_params : json) :
  <["version" := JStr REWARD_VERSION]>
    (<["base_params" := DEFAULT_BASE_PARAMS]>
       (<["base_mode" := JStr DEFAULT_BASE_MODE]>
          (<["time_rules" := DEFAULT_TIME_RULES]>
             (<["quality_rules" := DEFAULT_QUALITY_RULES]>
                (<["table" := DEFAULT_REWARD_TABLE]>
                   (rule_of id name version table quality_rules time_rules base_mode
                            base_params))))))
  = rule_of id name REWARD_VERSION DEFAULT_REWARD_TABLE DEFAULT_QUALITY_RULES
            DEFAULT_TIME_RULES DEFAULT_BASE_MODE DEFAULT_BASE_PARAMS.
Proof. dict_eq. Qed.

Lemma rule_of_keys (id name version : string) (table quality_rules time_rules : json)
      (base_mode : string) (base_params : json) :
  let r := rule_of id name version table quality_rules time_rules base_mode base_params in
  r !! "id" = Some (JStr id) /\ r !! "name" = Some (JStr name)
  /\ r !! "version" = Some (JStr version) /\ r !! "table" = Some table
  /\ r !! "quality_rules" = Some quality_rules /\ r !! "time_rules" = Some time_rules
  /\ r !! "base_mode" = Some (JStr base_mode) /\ r !! "base_params" = Some base_params.
Proof. cbv zeta. repeat split; now dict_lookup. Qed.

Lemma migrate_first_rule_of (id name version : string)
      (table quality_rules time_rules : json) (base_mode : string) (base_params : json) :
  migrate_first (rule_of id name version table quality_rules time_rules base_mode base_params)
  = if String.eqb version REWARD_VERSION
    then (rule_of id name version table quality_rules time_rules base_mode base_params,
          false)
    else (rule_of id name REWARD_VERSION DEFAULT_REWARD_TABLE DEFAULT_QUALITY_RULES
                  DEFAULT_TIME_RULES DEFAULT_BASE_MODE DEFAULT_BASE_PARAMS, true).
Proof.
  unfold migrate_first.
  assert (Ev : is_text (get "version" (rule_of id name version table quality_rules
                                               time_rules base_mode base_params))
                       REWARD_VERSION
               = String.eqb version REWARD_VERSION) by now dict_lookup.
  rewrite Ev.
  destruct (String.eqb version REWARD_VERSION); cbn [negb]; rewrite ?rule_of_reset;
    cbv beta iota zeta.
  - destruct (rule_of_keys id name version table quality_rules time_rules base_mode
                           base_params) as (_ & _ & _ & _ & Hq & Ht & Hm & Hb).
    cbv zeta in Hq, Ht, Hm, Hb.
    repeat (rewrite ?Hq, ?Ht, ?Hm, ?Hb; rewrite bool_decide_eq_false_2 by discriminate;
            cbv beta iota zeta).
    reflexivity.
  - destruct (rule_of_keys id name REWARD_VERSION DEFAULT_REWARD_TABLE
                           DEFAULT_QUALITY_RULES DEFAULT_TIME_RULES DEFAULT_BASE_MODE
                           DEFAULT_BASE_PARAMS) as (_ & _ & _ & _ & Hq & Ht & Hm & Hb).
    cbv zeta in Hq, Ht, Hm, Hb.
    repeat (rewrite ?Hq, ?Ht, ?Hm, ?Hb; rewrite bool_decide_eq_false_2 by discriminate;
            cbv beta iota zeta).
    reflexivity.
Qed.

End ActivityStore.

Section Loading.

Import Store.

Context `{ValueSyntax}.

Lemma migrate_first_normal (r : dict) :
  normal_rule r ->
  exists r',
    migrate_first r = (r', negb (is_text (get "version" r) REWARD_VERSION))
    /\ normal_rule r'
    /\ migrate_first r' = (r', false)
    /\ r' !! "version" = Some (JStr REWARD_VERSION).
Proof.
  intros (id & name & version & table & q & t & mode & bp & Ht & Hq & Htm & ->).
  destruct (rule_of_keys id name version table q t mode bp) as (_ & _ & Hv & _).
  cbv zeta in Hv.
  assert (Ev : is_text (get "version" (rule_of id name version table q t mode bp))
                       REWARD_VERSION
               = String.eqb version REWARD_VERSION)
    by (unfold get; now rewrite Hv).
  rewrite Ev, migrate_first_rule_of.
  destruct (String.eqb version REWARD_VERSION) eqn:E; cbn [negb].
  - eexists. split; [reflexivity |]. split; [| split].
    + exists id, name, version, table, q, t, mode, bp. auto.
    + now rewrite migrate_first_rule_of, E.
    + apply String.eqb_eq in E. now rewrite <- E.
  - eexists. split; [reflexivity |]. split; [| split].
    + exists id, name, REWARD_VERSION, DEFAULT_REWARD_TABLE, DEFAULT_QUALITY_RULES,
        DEFAULT_TIME_RULES, DEFAULT_BASE_MODE, DEFAULT_BASE_PARAMS.
      repeat split; reflexivity.
    + now rewrite migrate_first_rule_of, String.eqb_refl.
    + apply rule_of_keys.
Qed.

(** An activity whose rules are as the loop leaves them is stable. *)
Lemma stable_of_rules (act : dict) (r0 : dict) (rest : list dict) :
  act !! "rule_versions" = Some (JList (map JDict (r0 :: rest))) ->
  normal_rule r0 -> Forall normal_rule rest -> migrate_first r0 = (r0, false) ->
  stable_activity act.
Proof.
  intros Hact Hr0 Hrest Hm. unfold stable_activity. cbn [migrate_activity].
  unfold get. rewrite Hact. cbn [default].
  rewrite (normalize_rules_fixed (r0 :: rest)) by (discriminate || now constructor).
  rewrite Hm. now rewrite (insert_id act "rule_versions").
Qed.

Lemma migrate_activity_dict (act : dict) :
  exists (r0 : dict) (rest : list dict) (changed : bool),
    migrate_activity (JDict act)
    = inl (<["rule_versions" := JList (map JDict (r0 :: rest))]> act, changed)
    /\ normal_rule r0 /\ Forall normal_rule rest /\ migrate_first r0 = (r0, false)
    /\ r0 !! "version" = Some (JStr REWARD_VERSION).
Proof.
  cbn [migrate_activity].
  destruct (normalize_rules_normal (get "rule_versions" act)) as [Hne Hall].
  destruct (_normalize_rule_versions (get "rule_versions" act)) as [| r rest];
    [contradiction |].
  inversion Hall as [| ? ? Hr Hrest]; subst.
  destruct (migrate_first_normal r Hr) as (r' & -> & Hn & Hm & Hv).
  exists r', rest, (negb (is_text (get "version" r) REWARD_VERSION)).
  repeat split; assumption || reflexivity.
Qed.

Lemma migrate_activity_inv (act : json) (act' : dict) (changed : bool) :
  migrate_activity act = inl (act', changed) ->
  exists (a : dict) (r0 : dict) (rest : list dict),
    act = JDict a
    /\ act' = <["rule_versions" := JList (map JDict (r0 :: rest))]> a
    /\ normal_rule r0 /\ Forall normal_rule rest /\ migrate_first r0 = (r0, false)
    /\ r0 !! "version" = Some (JStr REWARD_VERSION).
Proof.
  destruct act as [| | | | | | a]; try discriminate. intros Hm.
  destruct (migrate_activity_dict a) as (r0 & rest & c & E & Hr & Hrest & Hf & Hv).
  rewrite E in Hm. injection Hm as <- <-. exists a, r0, rest.
  repeat split; assumption || reflexivity.
Qed.

Lemma migrate_activity_stable (act : json) (act' : dict) (changed : bool) :
  migrate_activity act = inl (act', changed) -> stable_activity act'.
Proof.
  intros Hm. destruct (migrate_activity_inv act act' changed Hm)
    as (a & r0 & rest & -> & -> & Hr & Hrest & Hf & _).
  apply (stable_of_rules _ r0 rest); auto. apply lookup_insert_eq.
Qed.

Lemma migrate_all_inv (data : list json) (acts : list dict) (changed : bool) :
  migrate_all data = inl (acts, changed) ->
  Forall2 (fun act act' => exists c, migrate_activity act = inl (act', c)) data acts.
Proof.
  revert acts changed. induction data as [| act data IH]; intros acts changed Hm.
  - injection Hm as <- <-. constructor.
  - cbn [migrate_all] in Hm.
    destruct (migrate_activity act) as [[act' c] | e] eqn:Ea; [| discriminate].
    destruct (migrate_all data) as [[rest c'] | e] eqn:Er; [| discriminate].
    injection Hm as <- <-. constructor; [eauto | now apply (IH rest c')].
Qed.

Lemma migrate_all_stable (data : list json) (acts : list dict) (changed : bool) :
  migrate_all data = inl (acts, changed) -> Forall stable_activity acts.
Proof.
  intros Hm. apply migrate_all_inv in Hm.
  induction Hm as [| act act' data acts (c & Hc) _ IH]; constructor; auto.
  now apply (migrate_activity_stable act act' c).
Qed.

Lemma migrate_all_length (data : list json) (acts : list dict) (changed : bool) :
  migrate_all data = inl (acts, changed) -> List.length acts = List.length data.
Proof. intros Hm. apply migrate_all_inv in Hm. symmetry. exact (Forall2_length _ _ _ Hm). Qed.

Lemma migrate_all_fixed (acts : list dict) :
  Forall stable_activity acts -> migrate_all (map JDict acts) = inl (acts, false).
Proof.
  induction 1 as [| act acts Ha Hacts IH]; [reflexivity |].
  cbn [map migrate_all]. unfold stable_activity in Ha. now rewrite Ha, IH.
Qed.

(** [load_activities] on a file that holds a value. *)
Lemma load_activities_run (uuid : string) (f : file) :
  load_activities uuid f
  = match ensured uuid f with
    | JsonFile _ =>
        match migrate_all (held uuid f) with
        | inl (acts, changed) =>
            (inl acts,
             if changed then JsonFile (JList (map JDict acts)) else ensured uuid f)
        | inr e => (inr e, ensured uuid f)
        end
    | BadFile msg => (inr (JSONDecodeError msg), ensured uuid f)
    | NoFile => (inr (JSONDecodeError EmptyString), ensured uuid f)
    end.
Proof.
  unfold load_activities, bind, ensure_activities_file, held.
  destruct f as [| msg | v]; cbn [ensured save_activities json_load map].
  - cbn [is_empty]. destruct (migrate_all _) as [[acts [|]] | e]; reflexivity.
  - reflexivity.
  - destruct v as [| | | | | [| a l] |]; cbn [is_empty];
      destruct (migrate_all _) as [[acts [|]] | e]; reflexivity.
Qed.

Lemma load_activities_list (uuid : string) (l : list json) :
  l <> [] ->
  load_activities uuid (JsonFile (JList l))
  = match migrate_all l with
    | inl (acts, changed) =>
        (inl acts, if changed then JsonFile (JList (map JDict acts)) else JsonFile (JList l))
    | inr e => (inr e, JsonFile (JList l))
    end.
Proof.
  intros Hne. rewrite load_activities_run. unfold held. cbn [ensured].
  destruct l as [| a l]; [contradiction | reflexivity].
Qed.

(** A file that holds stable activities is read as it is. *)
Lemma load_activities_saved (uuid : string) (acts : list dict) :
  acts <> [] -> Forall stable_activity acts ->
  load_activities uuid (JsonFile (JList (map JDict acts)))
  = (inl acts, JsonFile (JList (map JDict acts))).
Proof.
  intros Hne Hst. rewrite load_activities_run. cbn [ensured]. unfold held. cbn [ensured].
  destruct acts as [| a acts]; [contradiction |]. cbn [map].
  change (JDict a :: map JDict acts) with (map JDict (a :: acts)).
  now rewrite (migrate_all_fixed _ Hst).
Qed.

Lemma load_activities_inv (uuid : string) (f f1 : file) (acts : list dict) :
  load_activities uuid f = (inl acts, f1) ->
  acts <> [] /\ Forall stable_activity acts
  /\ List.length acts = List.length (held uuid f)
  /\ (f1 = JsonFile (JList (map JDict acts))
      \/ (f1 = ensured uuid f /\ migrate_all (held uuid f) = inl (acts, false))).
Proof.
  rewrite load_activities_run. intros Hl.
  assert (Hheld : held uuid f <> []).
  { unfold held. destruct (ensured uuid f) as [| | [| | | | | [| a l] |]]; discriminate. }
  destruct (ensured uuid f) as [| msg | v] eqn:Ef; try discriminate.
  destruct (migrate_all (held uuid f)) as [[acts' changed] | e] eqn:Em; [| discriminate].
  injection Hl as <- <-.
  pose proof (migrate_all_length _ _ _ Em) as Hlen.
  split; [| split; [now apply (migrate_all_stable _ _ _ Em) | split; [exact Hlen |]]].
  - intros ->. destruct (held uuid f); [contradiction | discriminate].
  - destruct changed; [now left | right; auto].
Qed.

End Loading.

Section StoreProperties.

Import Store.

Context `{ValueSyntax}.

Lemma normal_rule_keys (r : dict) :
  normal_rule r ->
  (exists id name version base_mode,
     r !! "id" = Some (JStr id) /\ r !! "name" = Some (JStr name)
     /\ r !! "version" = Some (JStr version) /\ r !! "base_mode" = Some (JStr base_mode))
  /\ truthy_json (get "table" r) = true
  /\ truthy_json (get "quality_rules" r) = true
  /\ truthy_json (get "time_rules" r) = true
  /\ is_Some (r !! "table") /\ is_Some (r !! "quality_rules")
  /\ is_Some (r !! "time_rules") /\ is_Some (r !! "base_params").
Proof.
  intros (id & name & version & table & q & t & mode & bp & Ht & Hq & Htm & ->).
  destruct (rule_of_keys id name version table q t mode bp)
    as (H1 & H2 & H3 & H4 & H5 & H6 & H7 & H8).
  cbv zeta in H1, H2, H3, H4, H5, H6, H7, H8.
  split; [exists id, name, version, mode; auto |].
  unfold get. rewrite H4, H5, H6, H8. cbn [default]. repeat split; eauto.
Qed.

(** X20. Whatever value it is given, [_normalize_rule_versions] returns at
    least one rule, and every rule it returns has its eight keys: identifier,
    name, version and base mode are texts, the table and the two rule lists
    are not empty, the base parameters are present. *)
Theorem normalize_rule_versions_complete (rules : json) :
  _normalize_rule_versions rules <> []
  /\ Forall (fun r : dict =>
               (exists id name version base_mode,
                  r !! "id" = Some (JStr id) /\ r !! "name" = Some (JStr name)
                  /\ r !! "version" = Some (JStr version)
                  /\ r !! "base_mode" = Some (JStr base_mode))
               /\ truthy_json (get "table" r) = true
               /\ truthy_json (get "quality_rules" r) = true
               /\ truthy_json (get "time_rules" r) = true
               /\ is_Some (r !! "table") /\ is_Some (r !! "quality_rules")
               /\ is_Some (r !! "time_rules") /\ is_Some (r !! "base_params"))
            (_normalize_rule_versions rules).
Proof.
  destruct (normalize_rules_normal rules) as [Hne Hall]. split; [exact Hne |].
  eapply List.Forall_impl; [| exact Hall]. intros r. apply normal_rule_keys.
Qed.

(** X21. In the loop of [load_activities] the flag [changed] is set by the
    version test alone: the four tests for a missing key never succeed on a
    rule that [_normalize_rule_versions] has built. *)
Theorem load_changed_by_version_only (act : dict) :
  exists (r0 : dict) (rest : list dict) (act' : dict),
    _normalize_rule_versions (get "rule_versions" act) = r0 :: rest
    /\ migrate_activity (JDict act)
       = inl (act', negb (is_text (get "version" r0) REWARD_VERSION)).
Proof.
  cbn [migrate_activity].
  destruct (normalize_rules_normal (get "rule_versions" act)) as [Hne Hall].
  destruct (_normalize_rule_versions (get "rule_versions" act)) as [| r0 rest];
    [contradiction |].
  inversion Hall as [| ? ? Hr Hrest]; subst.
  destruct (migrate_first_normal r0 Hr) as (r' & -> & _).
  eexists r0, rest, _. split; reflexivity.
Qed.

Lemma stable_activity_rules (act : dict) :
  stable_activity act ->
  exists (r0 : dict) (rest : list dict),
    act !! "rule_versions" = Some (JList (map JDict (r0 :: rest)))
    /\ normal_rule r0 /\ Forall normal_rule rest /\ migrate_first r0 = (r0, false)
    /\ r0 !! "version" = Some (JStr REWARD_VERSION).
Proof.
  intros Hst. unfold stable_activity in Hst.
  destruct (migrate_activity_dict act) as (r0 & rest & c & E & Hr & Hrest & Hf & Hv).
  rewrite E in Hst. injection Hst as Hact _.
  exists r0, rest. repeat split; try assumption.
  rewrite <- Hact at 1. apply lookup_insert_eq.
Qed.

(** X22. When [load_activities] returns, it returns at least one activity,
    as many as the file held, and each of them carries a list of rules that
    is not empty and whose first rule has the current version. *)
Theorem load_activities_result (uuid : string) (f f1 : file) (acts : list dict) :
  load_activities uuid f = (inl acts, f1) ->
  acts <> []
  /\ List.length acts = List.length (held uuid f)
  /\ Forall (fun act : dict =>
               exists (r0 : dict) (rest : list dict),
                 act !! "rule_versions" = Some (JList (map JDict (r0 :: rest)))
                 /\ r0 !! "version" = Some (JStr REWARD_VERSION))
            acts.
Proof.
  intros Hl. destruct (load_activities_inv uuid f f1 acts Hl) as (Hne & Hst & Hlen & _).
  split; [exact Hne |]. split; [exact Hlen |].
  eapply List.Forall_impl; [| exact Hst]. intros act Ha.
  destruct (stable_activity_rules act Ha) as (r0 & rest & Hr & _ & _ & _ & Hv). eauto.
Qed.

Lemma migrate_all_dicts (data : list json) :
  forallb is_dict data = true -> exists acts changed, migrate_all data = inl (acts, changed).
Proof.
  induction data as [| act data IH]; intros Hd; [cbn; eauto |].
  cbn [forallb] in Hd. apply andb_true_iff in Hd. destruct Hd as [Ha Hd].
  destruct act as [| | | | | | a]; try discriminate.
  destruct (migrate_activity_dict a) as (r0 & rest & c & E & _).
  destruct (IH Hd) as (acts & c' & E'). cbn [migrate_all]. rewrite E, E'. eauto.
Qed.

Lemma migrate_all_not_dict (data : list json) :
  forallb is_dict data = false -> migrate_all data = inr AttributeError.
Proof.
  induction data as [| act data IH]; intros Hd; [discriminate |].
  cbn [forallb] in Hd. cbn [migrate_all].
  destruct act as [| | | | | | a]; try reflexivity.
  destruct (migrate_activity_dict a) as (r0 & rest & c & E & _). rewrite E.
  cbn [is_dict andb] in Hd. now rewrite (IH Hd).
Qed.

(** X23. The errors of [load_activities]: a file that is not JSON raises the
    error of the decoder, and a list with an entry that is not a dict raises
    an attribute error, the file being left as it was; on any other file
    the call returns. *)
Theorem load_activities_errors (uuid : string) (f : file) :
  match ensured uuid f with
  | BadFile msg => load_activities uuid f = (inr (JSONDecodeError msg), f)
  | _ =>
      if forallb is_dict (held uuid f)
      then exists acts f1, load_activities uuid f = (inl acts, f1)
      else load_activities uuid f = (inr AttributeError, ensured uuid f)
  end.
Proof.
  rewrite load_activities_run.
  destruct f as [| msg | v]; cbn [ensured]; [| reflexivity |].
  - destruct (migrate_all_dicts (held uuid NoFile)) as (acts & c & ->); [reflexivity |].
    cbn. eauto.
  - destruct (forallb is_dict (held uuid (JsonFile v))) eqn:E.
    + destruct (migrate_all_dicts _ E) as (acts & c & ->). eauto.
    + now rewrite (migrate_all_not_dict _ E).
Qed.

(** X24. Reading is stable: once [load_activities] has returned and the
    file holds a list that is not empty, a second call returns the same
    activities and leaves the file as it is. *)
Theorem load_activities_stable (uuid uuid' : string) (f f1 : file) (acts : list dict) :
  load_activities uuid f = (inl acts, f1) ->
  (exists a l, f1 = JsonFile (JList (a :: l))) ->
  load_activities uuid' f1 = (inl acts, f1).
Proof.
  intros Hl (a & l & Hf1).
  destruct (load_activities_inv uuid f f1 acts Hl) as (Hne & Hst & _ & [-> | [He Hm]]).
  - now apply load_activities_saved.
  - rewrite load_activities_run.
    assert (Hheld : held uuid f = a :: l) by (unfold held; now rewrite <- He, Hf1).
    assert (Hheld' : held uuid' f1 = a :: l) by (unfold held; now rewrite Hf1).
    rewrite Hheld', <- Hheld, Hm, Hf1. reflexivity.
Qed.

End StoreProperties.

Section StoreUpdates.

Import Store.

Context `{ValueSyntax}.

(** *** Deleting *)

Lemma has_id_get (activity_id : string) (act : dict) :
  has_id activity_id act = true <-> get "id" act = JStr activity_id.
Proof.
  unfold has_id, is_text. destruct (get "id" act); try (split; discriminate).
  rewrite String.eqb_eq. split; [now intros -> | now intros [= ->]].
Qed.

Lemma one_with_id (activity_id : string) (acts : list dict) :
  NoDup (map (get "id") acts) ->
  (List.length (List.filter (has_id activity_id) acts) <= 1)%nat.
Proof.
  induction acts as [| a acts IH]; intros Hnd; [cbn; lia |].
  cbn [map] in Hnd. apply NoDup_cons in Hnd. destruct Hnd as [Hnotin Hnd].
  cbn [List.filter]. destruct (has_id activity_id a) eqn:Ea; [| now apply IH].
  assert (Hnone : List.filter (has_id activity_id) acts = []).
  { apply filter_none, List.Forall_forall. intros b Hb.
    destruct (has_id activity_id b) eqn:Eb; [| reflexivity].
    destruct Hnotin. apply has_id_get in Ea, Eb. rewrite Ea, <- Eb.
    apply list_elem_of_In, in_map, Hb. }
  rewrite Hnone. cbn. lia.
Qed.

Lemma filter_split_length {A} (p : A -> bool) (l : list A) :
  (List.length (List.filter p l) + List.length (List.filter (fun x => negb (p x)) l))%nat
  = List.length l.
Proof.
  induction l as [| x l IH]; [reflexivity |]. cbn [List.filter].
  destruct (p x); cbn [negb List.length]; lia.
Qed.

(** X25. [delete_activity] after a successful read.  With one activity or
    none it raises and writes nothing; with no activity of the given
    identifier it writes nothing; otherwise it writes the activities of
    another identifier, in their order.  When the identifiers are distinct
    that is all of them but one, so that an activity is always left. *)
Theorem delete_activity_keeps_one (activity_id uuid : string) (f f1 : file)
        (acts : list dict) :
  load_activities uuid f = (inl acts, f1) ->
  let kept := List.filter (fun act => negb (has_id activity_id act)) acts in
  ((List.length acts <= 1)%nat ->
   delete_activity activity_id uuid f
   = (inr (ValueError "至少保留一个活动，无法删除最后一个活动"), f1))
  /\ ((1 < List.length acts)%nat -> List.length kept = List.length acts ->
      delete_activity activity_id uuid f = (inl tt, f1))
  /\ ((1 < List.length acts)%nat -> List.length kept <> List.length acts ->
      delete_activity activity_id uuid f = (inl tt, JsonFile (JList (map JDict kept))))
  /\ (NoDup (map (get "id") acts) -> (1 < List.length acts)%nat ->
      (List.length acts - 1 <= List.length kept)%nat /\ kept <> []).
Proof.
  intros Hl kept. unfold delete_activity, bind. rewrite Hl.
  change (List.filter (fun act => negb (is_text (get "id" act) activity_id)) acts)
    with kept.
  split; [| split; [| split]].
  - intros Hle. apply Nat.leb_le in Hle. now rewrite Hle.
  - intros Hlt Hk. apply Nat.leb_gt in Hlt. rewrite Hlt.
    apply Nat.eqb_eq in Hk. now rewrite Hk.
  - intros Hlt Hk. apply Nat.leb_gt in Hlt. rewrite Hlt.
    apply Nat.eqb_neq in Hk. now rewrite Hk.
  - intros Hnd Hlt. pose proof (one_with_id activity_id acts Hnd) as Hone.
    pose proof (filter_split_length (has_id activity_id) acts) as Hsplit.
    fold kept in Hsplit.
    assert (Hlen : (List.length acts - 1 <= List.length kept)%nat) by lia.
    split; [exact Hlen |]. intros E. rewrite E in Hlen. cbn in Hlen. lia.
Qed.

(** *** Adding *)

Ltac dict_lookup :=
  unfold get, get_or, rule_of, new_activity, mk_dict;
  rewrite ?list_to_map_cons, ?list_to_map_nil;
  repeat first [ rewrite lookup_insert_eq
               | rewrite lookup_insert_ne by discriminate
               | rewrite lookup_empty ];
  cbn [default].

Lemma find_app_last {A} (p : A -> bool) (l : list A) (x : A) :
  find p (l ++ [x])
  = match find p l with
    | Some y => Some y
    | None => if p x then Some x else None
    end.
Proof.
  induction l as [| y l IH]; cbn [app find]; [reflexivity |].
  now destruct (p y).
Qed.

Lemma find_none_all {A} (p : A -> bool) (l : list A) :
  Forall (fun x => p x = false) l -> find p l = None.
Proof. induction 1 as [| x l Hx Hl IH]; cbn; [reflexivity |]. now rewrite Hx. Qed.

Lemma default_rule_fixed : migrate_first _default_rule = (_default_rule, false).
Proof.
  change _default_rule
    with (rule_of "rule_default" "默认规则" REWARD_VERSION DEFAULT_REWARD_TABLE
                  DEFAULT_QUALITY_RULES DEFAULT_TIME_RULES DEFAULT_BASE_MODE
                  DEFAULT_BASE_PARAMS).
  now rewrite migrate_first_rule_of.
Qed.

Lemma new_activity_stable (payload : gmap string string) (uuid : string) :
  stable_activity (new_activity payload uuid).
Proof.
  apply (stable_of_rules _ _default_rule []).
  - now dict_lookup.
  - apply default_rule_normal.
  - constructor.
  - apply default_rule_fixed.
Qed.

(** X26. What [add_activity] stores, [get_activity_by_id] returns: after
    a successful read, when no activity has the new identifier, the call
    appends the new activity to the file, a later lookup of its identifier
    returns it, and a lookup of another identifier finds what it found
    among the activities read. *)
Theorem add_activity_then_get (payload : gmap string string) (uuid0 uuid uuid1 : string)
        (f f1 : file) (acts : list dict) :
  load_activities uuid0 f = (inl acts, f1) ->
  Forall (fun act => has_id uuid act = false) acts ->
  let added := new_activity payload uuid in
  let f2 := JsonFile (JList (map JDict (acts ++ [added]))) in
  add_activity payload uuid0 uuid f = (inl added, f2)
  /\ get_activity_by_id uuid uuid1 f2 = (inl (Some added), f2)
  /\ forall activity_id, activity_id <> uuid ->
       get_activity_by_id activity_id uuid1 f2
       = (inl (find (has_id activity_id) acts), f2).
Proof.
  intros Hl Hfresh added f2.
  destruct (load_activities_inv uuid0 f f1 acts Hl) as (Hne & Hst & _ & _).
  assert (Hload : load_activities uuid1 f2 = (inl (acts ++ [added]), f2)).
  { apply load_activities_saved; [now destruct acts |].
    apply Forall_app. split; [exact Hst |].
    constructor; [apply new_activity_stable | constructor]. }
  assert (Hid : forall activity_id, has_id activity_id added = String.eqb uuid activity_id).
  { intros activity_id. unfold has_id, added. now dict_lookup. }
  split; [| split].
  - unfold add_activity, bind. rewrite Hl. reflexivity.
  - unfold get_activity_by_id, bind. rewrite Hload. unfold ret. do 2 f_equal.
    change (fun act => is_text (get "id" act) uuid) with (has_id uuid).
    rewrite find_app_last, (find_none_all _ _ Hfresh), Hid, String.eqb_refl. reflexivity.
  - intros activity_id Hneq. unfold get_activity_by_id, bind. rewrite Hload.
    unfold ret. do 2 f_equal.
    change (fun act => is_text (get "id" act) activity_id) with (has_id activity_id).
    rewrite find_app_last, Hid.
    assert (E : String.eqb uuid activity_id = false) by (apply String.eqb_neq; congruence).
    rewrite E. now destruct (find (has_id activity_id) acts).
Qed.

End StoreUpdates.

Section StoreRules.

Import Store.

Context `{ValueSyntax}.

Ltac dict_lookup :=
  unfold get, get_or, rule_of, new_activity, mk_dict;
  rewrite ?list_to_map_cons, ?list_to_map_nil;
  repeat first [ rewrite lookup_insert_eq
               | rewrite lookup_insert_ne by discriminate
               | rewrite lookup_empty ];
  cbn [default].

Lemma find_split {A} (p : A -> bool) (l : list A) (x : A) :
  find p l = Some x ->
  exists pre post, l = pre ++ x :: post /\ p x = true /\ Forall (fun y => p y = false) pre.
Proof. intros E. pose proof (find_first p l) as Hf. now rewrite E in Hf. Qed.

Lemma find_app_first {A} (p : A -> bool) (pre post : list A) (x : A) :
  Forall (fun y => p y = false) pre -> p x = true -> find p (pre ++ x :: post) = Some x.
Proof.
  induction 1 as [| y pre Hy Hpre IH]; intros Hx; cbn [app find]; [now rewrite Hx |].
  rewrite Hy. now apply IH.
Qed.

Lemma update_first_at (activity_id : string) (g : dict -> dict + error)
      (pre post : list dict) (act : dict) :
  Forall (fun a => has_id activity_id a = false) pre -> has_id activity_id act = true ->
  update_first activity_id g (pre ++ act :: post)
  = match g act with
    | inl act' => inl (pre ++ act' :: post)
    | inr e => inr e
    end.
Proof.
  induction 1 as [| a pre Ha Hpre IH]; intros Hact; cbn [app update_first].
  - unfold has_id in Hact. now rewrite Hact.
  - unfold has_id in Ha. rewrite Ha, (IH Hact). now destruct (g act).
Qed.

Lemma migrate_all_app (l1 l2 : list json) (x1 x2 : list dict) (c1 c2 : bool) :
  migrate_all l1 = inl (x1, c1) -> migrate_all l2 = inl (x2, c2) ->
  migrate_all (l1 ++ l2) = inl (x1 ++ x2, c1 || c2).
Proof.
  revert x1 c1. induction l1 as [| a l1 IH]; intros x1 c1 H1 H2.
  - injection H1 as <- <-. exact H2.
  - cbn [app migrate_all] in H1 |- *.
    destruct (migrate_activity a) as [[a' c] | e]; [| discriminate].
    destruct (migrate_all l1) as [[r c'] | e] eqn:E; [| discriminate].
    injection H1 as <- <-. rewrite (IH r c' eq_refl H2).
    now rewrite orb_assoc.
Qed.

(** The rule the loop of [load_activities] reads in the rule
    [update_activity_rule] has written. *)
Lemma normalize_updated_rule (id name version : string) (T Q0 T0 : json) (mode0 : string)
      (bp0 table quality_rules time_rules base_mode base_params : json) :
  normalize_item
    (JDict (<["base_params" := base_params]>
              (<["base_mode" := base_mode]>
                 (<["time_rules" := time_rules]>
                    (<["quality_rules" := quality_rules]>
                       (<["table" := table]>
                          (rule_of id name version T Q0 T0 mode0 bp0)))))))
  = Some (rule_of id name version (or_else table DEFAULT_REWARD_TABLE)
                  (or_else quality_rules DEFAULT_QUALITY_RULES)
                  (or_else time_rules DEFAULT_TIME_RULES) (str_json base_mode) base_params).
Proof.
  cbn [normalize_item]. f_equal.
Qed.

(** X27. What [update_activity_rule] stores, [get_activity_by_id] returns,
    but for the empty lists: after a successful read, the first activity of
    the given identifier gets the new table, rule lists, base mode and base
    parameters in its first rule, and a later lookup returns that activity
    with them, an empty table or rule list being read as the default one. *)
Theorem update_activity_rule_then_get (activity_id uuid0 uuid1 : string) (f f1 : file)
        (acts : list dict) (act : dict)
        (table_records quality_rules time_rules : list json) (base_mode : string)
        (base_params : dict) :
  load_activities uuid0 f = (inl acts, f1) ->
  find (has_id activity_id) acts = Some act ->
  exists (f2 : file) (found r0 : dict) (rest : list json),
    update_activity_rule activity_id (JList table_records) (Some (JList quality_rules))
      (Some (JList time_rules)) (Some (JStr base_mode)) (Some (JDict base_params)) uuid0 f
    = (inl tt, f2)
    /\ get_activity_by_id activity_id uuid1 f2 = (inl (Some found), f2)
    /\ (forall key, key <> "rule_versions" -> found !! key = act !! key)
    /\ found !! "rule_versions" = Some (JList (JDict r0 :: rest))
    /\ r0 !! "table" = Some (or_else (JList table_records) DEFAULT_REWARD_TABLE)
    /\ r0 !! "quality_rules" = Some (or_else (JList quality_rules) DEFAULT_QUALITY_RULES)
    /\ r0 !! "time_rules" = Some (or_else (JList time_rules) DEFAULT_TIME_RULES)
    /\ r0 !! "base_mode" = Some (JStr base_mode)
    /\ r0 !! "base_params" = Some (JDict base_params)
    /\ r0 !! "version" = Some (JStr REWARD_VERSION).
Proof.
  intros Hl Hfind.
  destruct (load_activities_inv uuid0 f f1 acts Hl) as (Hne & Hst & _ & _).
  destruct (find_split _ _ _ Hfind) as (pre & post & -> & Hact & Hpre).
  apply Forall_app in Hst. destruct Hst as [Hst_pre Hst_post].
  apply Forall_cons in Hst_post. destruct Hst_post as [Hst_act Hst_post].
  destruct (stable_activity_rules act Hst_act) as (r & rs & Hrv & Hr & Hrs & _ & Hv).
  destruct Hr as (id & name & version & T & Q0 & T0 & mode0 & bp0 & _ & _ & _ & ->).
  destruct (rule_of_keys id name version T Q0 T0 mode0 bp0) as (_ & _ & Hv' & _).
  cbv zeta in Hv'. rewrite Hv' in Hv. injection Hv as ->.
  set (r1 := <["base_params" := JDict base_params]>
               (<["base_mode" := JStr base_mode]>
                  (<["time_rules" := JList time_rules]>
                     (<["quality_rules" := JList quality_rules]>
                        (<["table" := JList table_records]>
                           (rule_of id name REWARD_VERSION T Q0 T0 mode0 bp0)))))).
  set (r2 := rule_of id name REWARD_VERSION
                     (or_else (JList table_records) DEFAULT_REWARD_TABLE)
                     (or_else (JList quality_rules) DEFAULT_QUALITY_RULES)
                     (or_else (JList time_rules) DEFAULT_TIME_RULES) base_mode
                     (JDict base_params)).
  set (act1 := <["rule_versions" := JList (JDict r1 :: map JDict rs)]> act).
  set (act2 := <["rule_versions" := JList (map JDict (r2 :: rs))]> act1).
  assert (Hupd : update_rule act (JList table_records) (Some (JList quality_rules))
                   (Some (JList time_rules)) (Some (JStr base_mode))
                   (Some (JDict base_params)) = inl act1).
  { unfold update_rule. unfold get at 1. rewrite Hrv. cbn [default map].
    unfold or_else. cbn [truthy_json is_empty negb set_if]. reflexivity. }
  assert (Hmig : migrate_activity (JDict act1) = inl (act2, false)).
  { assert (Hg : get "rule_versions" act1 = JList (JDict r1 :: map JDict rs))
      by (unfold get, act1; now rewrite lookup_insert_eq).
    assert (Hn : _normalize_rule_versions (JList (JDict r1 :: map JDict rs)) = r2 :: rs).
    { cbn [_normalize_rule_versions].
      change (omap normalize_item (JDict r1 :: map JDict rs))
        with (match normalize_item (JDict r1) with
              | Some y => y :: omap normalize_item (map JDict rs)
              | None => omap normalize_item (map JDict rs)
              end).
      unfold r1. rewrite normalize_updated_rule, (omap_normal rs Hrs). reflexivity. }
    cbn [migrate_activity]. rewrite Hg, Hn.
    unfold r2 at 1. rewrite migrate_first_rule_of, String.eqb_refl. reflexivity. }
  assert (Hall : migrate_all (map JDict (pre ++ act1 :: post))
                 = inl (pre ++ act2 :: post, false)).
  { rewrite map_app. cbn [map].
    rewrite (migrate_all_app _ _ pre (act2 :: post) false false);
      [reflexivity | now apply migrate_all_fixed |].
    cbn [migrate_all]. rewrite Hmig, (migrate_all_fixed post Hst_post). reflexivity. }
  set (f2 := JsonFile (JList (map JDict (pre ++ act1 :: post)))).
  assert (Hload : load_activities uuid1 f2 = (inl (pre ++ act2 :: post), f2)).
  { unfold f2. rewrite load_activities_list, Hall; [reflexivity |].
    destruct pre; discriminate. }
  assert (Hid : has_id activity_id act2 = true).
  { unfold has_id, get, act2, act1. rewrite !lookup_insert_ne by discriminate. exact Hact. }
  exists f2, act2, r2, (map JDict rs).
  split; [| split; [| split; [| split]]].
  - unfold update_activity_rule, bind. rewrite Hl, (update_first_at _ _ _ _ _ Hpre Hact), Hupd.
    reflexivity.
  - unfold get_activity_by_id, bind. rewrite Hload. unfold ret. do 2 f_equal.
    now apply find_app_first.
  - intros key Hkey. unfold act2, act1. now rewrite !lookup_insert_ne by congruence.
  - unfold act2. now rewrite lookup_insert_eq.
  - destruct (rule_of_keys id name REWARD_VERSION
                           (or_else (JList table_records) DEFAULT_REWARD_TABLE)
                           (or_else (JList quality_rules) DEFAULT_QUALITY_RULES)
                           (or_else (JList time_rules) DEFAULT_TIME_RULES) base_mode
                           (JDict base_params))
      as (_ & _ & H3 & H4 & H5 & H6 & H7 & H8).
    repeat split; assumption.
Qed.

(** *** The description of an activity *)

Lemma meta_field_insert (key key' : string) (v : json) (payload : gmap string string)
      (act : dict) :
  key <> key' -> meta_field key payload (<[key' := v]> act) = meta_field key payload act.
Proof.
  intros Hne. unfold meta_field, get_or. now rewrite lookup_insert_ne by congruence.
Qed.

(** X28. What [update_activity_meta] stores, [get_activity_by_id] returns:
    after a successful read, the first activity of the given identifier
    gets its six descriptive fields from the payload, a field the payload
    lacks keeping its value (the empty text when the activity lacks it
    too); its identifier and its rules stay, and a later lookup returns
    the activity so changed. *)
Theorem update_activity_meta_then_get (activity_id uuid0 uuid1 : string) (f f1 : file)
        (acts : list dict) (act : dict) (payload : gmap string string) :
  load_activities uuid0 f = (inl acts, f1) ->
  find (has_id activity_id) acts = Some act ->
  exists (f2 : file) (found : dict),
    update_activity_meta activity_id payload uuid0 f = (inl tt, f2)
    /\ get_activity_by_id activity_id uuid1 f2 = (inl (Some found), f2)
    /\ (forall key,
          In key ["name"; "period"; "start_date"; "end_date"; "status"; "remark"] ->
          found !! key = Some (meta_field key payload act))
    /\ (forall key,
          ~ In key ["name"; "period"; "start_date"; "end_date"; "status"; "remark"] ->
          found !! key = act !! key).
Proof.
  intros Hl Hfind.
  destruct (load_activities_inv uuid0 f f1 acts Hl) as (Hne & Hst & _ & _).
  destruct (find_split _ _ _ Hfind) as (pre & post & -> & Hact & Hpre).
  apply Forall_app in Hst. destruct Hst as [Hst_pre Hst_post].
  apply Forall_cons in Hst_post. destruct Hst_post as [Hst_act Hst_post].
  destruct (stable_activity_rules act Hst_act) as (r & rs & Hrv & Hr & Hrs & Hf & _).
  set (act1 := <["remark" := meta_field "remark" payload act]>
                 (<["status" := meta_field "status" payload act]>
                    (<["end_date" := meta_field "end_date" payload act]>
                       (<["start_date" := meta_field "start_date" payload act]>
                          (<["period" := meta_field "period" payload act]>
                             (<["name" := meta_field "name" payload act]> act)))))).
  assert (Hrv1 : act1 !! "rule_versions" = Some (JList (map JDict (r :: rs)))).
  { unfold act1. now rewrite !lookup_insert_ne by discriminate. }
  assert (Hupd : update_meta payload act = inl act1).
  { unfold update_meta. cbv zeta.
    rewrite !meta_field_insert by discriminate. fold act1.
    unfold get. rewrite Hrv1. reflexivity. }
  assert (Hst1 : stable_activity act1) by now apply (stable_of_rules act1 r rs).
  assert (Hall : Forall stable_activity (pre ++ act1 :: post)).
  { apply Forall_app. split; [exact Hst_pre | now constructor]. }
  set (f2 := JsonFile (JList (map JDict (pre ++ act1 :: post)))).
  assert (Hload : load_activities uuid1 f2 = (inl (pre ++ act1 :: post), f2)).
  { apply load_activities_saved; [destruct pre; discriminate | exact Hall]. }
  assert (Hid : has_id activity_id act1 = true).
  { unfold has_id, get, act1. rewrite !lookup_insert_ne by discriminate. exact Hact. }
  exists f2, act1. split; [| split; [| split]].
  - unfold update_activity_meta, bind.
    rewrite Hl, (update_first_at _ _ _ _ _ Hpre Hact), Hupd. reflexivity.
  - unfold get_activity_by_id, bind. rewrite Hload. unfold ret. do 2 f_equal.
    now apply find_app_first.
  - intros key Hkey. unfold act1. cbn [In] in Hkey.
    decompose [or] Hkey; subst; try contradiction;
      repeat first [ rewrite lookup_insert_eq | rewrite lookup_insert_ne by discriminate ];
      reflexivity.
  - intros key Hkey. unfold act1. cbn [In] in Hkey.
    rewrite !lookup_insert_ne by (intros <-; tauto). reflexivity.
Qed.

End StoreRules.

(** ** The further properties at work *)

Section MoreExamples.

#[local] Existing Instance decimal_syntax.

Lemma sample_result :
  exists out, rewards_table sample_frame RuleOther = Ok out.
Proof.
  assert (Hok : is_ok (rewards_table sample_frame RuleOther) = true)
    by (vm_compute; reflexivity).
  destruct (rewards_table sample_frame RuleOther) as [out | e]; [eauto | discriminate Hok].
Qed.

(** The alias of the channel column is gone from the sample result. *)
Lemma result_has_no_alias_column_witness :
  exists out,
    rewards_table sample_frame RuleOther = Ok out
    /\ In ("平台", "渠道") COLUMN_ALIASES
    /\ ("平台" ∉ columns out)
    /\ Forall (fun r : row => r !! "平台" = None) (rows out).
Proof.
  destruct sample_result as (out & E). exists out. split; [exact E |].
  assert (Hin : In ("平台", "渠道") COLUMN_ALIASES) by (left; reflexivity).
  split; [exact Hin |].
  destruct (result_has_no_alias_column sample_frame RuleOther out E _ Hin) as [Hc Hr].
  split; [exact Hc |]. apply List.Forall_forall. exact Hr.
Defined.

Lemma result_row_count_witness :
  exists out,
    rewards_table sample_frame RuleOther = Ok out /\ List.length (rows out) = 3%nat.
Proof.
  destruct sample_result as (out & E). exists out. split; [exact E |].
  exact (result_row_count sample_frame RuleOther out E).
Defined.

Lemma result_columns_witness :
  exists out,
    rewards_table sample_frame RuleOther = Ok out
    /\ "账号名称" ∈ columns out /\ "总奖励" ∈ columns out.
Proof.
  destruct sample_result as (out & E). exists out. split; [exact E |].
  split; apply (result_columns sample_frame RuleOther out E).
  - left. vm_compute. repeat constructor.
  - right. cbn. tauto.
Defined.

Lemma result_display_order_witness :
  exists out extra_cols,
    rewards_table sample_frame RuleOther = Ok out
    /\ columns out
       = ["期数"; "渠道"; "账号标识"; "账号名称"; "作品标识"; "作品类型"; "播放量"; "点赞";
          "评论数"; "基础奖励"; "限时奖励"; "平台加成"; "优质加成"; "总奖励"; "状态"]
           ++ extra_cols.
Proof.
  destruct sample_result as (out & E).
  destruct (result_display_order sample_frame RuleOther out E) as (extra_cols & Hc & _).
  exists out, extra_cols. split; [exact E |]. exact Hc.
Defined.

Lemma result_identity_key_witness :
  exists out,
    rewards_table sample_frame RuleOther = Ok out
    /\ Forall (fun r : row => r !! "账号标识" = Some (CStr (pick_identity r))) (rows out).
Proof.
  destruct sample_result as (out & E). exists out. split; [exact E |].
  apply List.Forall_forall. intros r Hr.
  exact (proj1 (result_identity_key sample_frame RuleOther out E r Hr)).
Defined.

Lemma result_period_text_witness :
  exists out,
    rewards_table sample_frame RuleOther = Ok out
    /\ ("期数" ∉ map alias_of (columns sample_frame))
    /\ Forall (fun r : row => r !! "期数" = Some (CStr "默认")) (rows out).
Proof.
  destruct sample_result as (out & E). exists out. split; [exact E |].
  assert (Hn : "期数" ∉ map alias_of (columns sample_frame)).
  { intros Hin. apply list_elem_of_In in Hin. revert Hin. apply not_in_by_eqb.
    vm_compute. reflexivity. }
  split; [exact Hn |]. apply List.Forall_forall. intros r Hr.
  destruct (result_period_text sample_frame RuleOther out E r Hr) as (s & Hs & Hd).
  now rewrite Hs, (Hd Hn).
Defined.

Lemma result_numeric_columns_witness :
  exists out,
    rewards_table sample_frame RuleOther = Ok out
    /\ ("点赞" ∉ map alias_of (columns sample_frame))
    /\ Forall (fun r : row => r !! "点赞" = Some (CNum 0)) (rows out).
Proof.
  destruct sample_result as (out & E). exists out. split; [exact E |].
  assert (Hn : "点赞" ∉ map alias_of (columns sample_frame)).
  { intros Hin. apply list_elem_of_In in Hin. revert Hin. apply not_in_by_eqb.
    vm_compute. reflexivity. }
  split; [exact Hn |]. apply List.Forall_forall. intros r Hr.
  destruct (result_numeric_columns sample_frame RuleOther out E r Hr)
    as (plays & likes & comments & _ & Hl & _ & Hz & _).
  now rewrite Hl, (Hz Hn).
Defined.

Lemma result_work_key_witness :
  exists out,
    rewards_table sample_frame RuleOther = Ok out
    /\ Forall (fun r : row => r !! "作品标识" = Some (CStr (work_key r))) (rows out).
Proof.
  destruct sample_result as (out & E). exists out. split; [exact E |].
  apply List.Forall_forall. intros r Hr.
  exact (proj1 (result_work_key sample_frame RuleOther out E r Hr)).
Defined.






Lemma bilibili_extra_nan_flag_witness :
  cell_at "渠道" nan_flag_row = CStr "B站"
  /\ nan_flag_row !! "B站热门" = Some CNaN
  /\ bilibili_extra nan_flag_row = 200%Z.
Proof.
  split; [reflexivity |]. split; [reflexivity |].
  exact (proj1 (bilibili_extra_nan_flag nan_flag_row eq_refl) eq_refl).
Defined.







End MoreExamples.

Section StoreExamples.

Import Store.

#[local] Existing Instance sample_values.

Lemma default_activity_id (uuid activity_id : string) :
  has_id activity_id (_default_activity uuid) = String.eqb uuid activity_id.
Proof.
  unfold has_id, get, _default_activity, mk_dict.
  now rewrite list_to_map_cons, lookup_insert_eq.
Qed.

Lemma default_activity_stable (uuid : string) : stable_activity (_default_activity uuid).
Proof.
  apply (stable_of_rules _ _default_rule []).
  - unfold _default_activity, mk_dict. rewrite !list_to_map_cons.
    now rewrite !lookup_insert_ne, lookup_insert_eq by discriminate.
  - apply default_rule_normal.
  - constructor.
  - apply default_rule_fixed.
Qed.

Lemma load_no_file :
  load_activities "u1" NoFile
  = (inl [_default_activity "u1"], JsonFile (JList [JDict (_default_activity "u1")])).
Proof.
  rewrite load_activities_run. cbn [ensured]. unfold held. cbn [ensured].
  change [JDict (_default_activity "u1")] with (map JDict [_default_activity "u1"]).
  rewrite migrate_all_fixed; [reflexivity |].
  constructor; [apply default_activity_stable | constructor].
Qed.

Lemma load_two_activities :
  load_activities "u0" two_activities
  = (inl [_default_activity "a"; _default_activity "b"], two_activities).
Proof.
  apply (load_activities_saved "u0" [_default_activity "a"; _default_activity "b"]);
    [discriminate |].
  repeat (constructor; [apply default_activity_stable |]). constructor.
Qed.

Lemma load_activities_result_witness :
  load_activities "u1" NoFile
  = (inl [_default_activity "u1"], JsonFile (JList [JDict (_default_activity "u1")]))
  /\ List.length [_default_activity "u1"] = List.length (held "u1" NoFile).
Proof.
  split; [exact load_no_file |].
  exact (proj1 (proj2 (load_activities_result "u1" NoFile _ _ load_no_file))).
Defined.

Lemma load_activities_stable_witness :
  load_activities "u1" NoFile
  = (inl [_default_activity "u1"], JsonFile (JList [JDict (_default_activity "u1")]))
  /\ load_activities "u2" (JsonFile (JList [JDict (_default_activity "u1")]))
     = (inl [_default_activity "u1"], JsonFile (JList [JDict (_default_activity "u1")])).
Proof.
  split; [exact load_no_file |].
  apply (load_activities_stable "u1" "u2" NoFile _ _ load_no_file). eauto.
Defined.

Lemma delete_activity_keeps_one_witness :
  load_activities "u0" two_activities
  = (inl [_default_activity "a"; _default_activity "b"], two_activities)
  /\ NoDup (map (get "id") [_default_activity "a"; _default_activity "b"])
  /\ List.filter (fun act => negb (has_id "a" act))
                 [_default_activity "a"; _default_activity "b"] <> [].
Proof.
  assert (Hnd : NoDup (map (get "id") [_default_activity "a"; _default_activity "b"])).
  { cbn [map]. apply NoDup_cons. split; [| apply NoDup_singleton].
    intros Hin. apply list_elem_of_singleton in Hin. discriminate Hin. }
  split; [exact load_two_activities |]. split; [exact Hnd |].
  destruct (delete_activity_keeps_one "a" "u0" two_activities _ _ load_two_activities)
    as (_ & _ & _ & Hk).
  apply (Hk Hnd). cbn. lia.
Defined.

Lemma add_activity_then_get_witness :
  load_activities "u0" two_activities
  = (inl [_default_activity "a"; _default_activity "b"], two_activities)
  /\ get_activity_by_id "c" "u1"
       (JsonFile (JList (map JDict ([_default_activity "a"; _default_activity "b"]
                                      ++ [new_activity ∅ "c"]))))
     = (inl (Some (new_activity ∅ "c")),
        JsonFile (JList (map JDict ([_default_activity "a"; _default_activity "b"]
                                      ++ [new_activity ∅ "c"])))).
Proof.
  split; [exact load_two_activities |].
  apply (add_activity_then_get ∅ "u0" "c" "u1" two_activities _ _ load_two_activities).
  repeat (constructor; [now rewrite default_activity_id |]). constructor.
Defined.

Lemma find_second_activity :
  find (has_id "b") [_default_activity "a"; _default_activity "b"]
  = Some (_default_activity "b").
Proof. cbn [find]. now rewrite !default_activity_id. Qed.

Lemma update_activity_rule_then_get_witness :
  load_activities "u0" two_activities
  = (inl [_default_activity "a"; _default_activity "b"], two_activities)
  /\ find (has_id "b") [_default_activity "a"; _default_activity "b"]
     = Some (_default_activity "b")
  /\ exists f2 found,
       update_activity_rule "b" (JList []) (Some (JList [])) (Some (JList []))
         (Some (JStr "CPM")) (Some (JDict ∅)) "u0" two_activities = (inl tt, f2)
       /\ get_activity_by_id "b" "u1" f2 = (inl (Some found), f2).
Proof.
  split; [exact load_two_activities |]. split; [exact find_second_activity |].
  destruct (update_activity_rule_then_get "b" "u0" "u1" two_activities _ _ _
              [] [] [] "CPM" ∅ load_two_activities find_second_activity)
    as (f2 & found & r0 & rest & Hu & Hg & _).
  exists f2, found. split; assumption.
Defined.

Lemma update_activity_meta_then_get_witness :
  load_activities "u0" two_activities
  = (inl [_default_activity "a"; _default_activity "b"], two_activities)
  /\ find (has_id "b") [_default_activity "a"; _default_activity "b"]
     = Some (_default_activity "b")
  /\ exists f2 found,
       update_activity_meta "b" {["name" := "春季活动"]} "u0" two_activities = (inl tt, f2)
       /\ get_activity_by_id "b" "u1" f2 = (inl (Some found), f2)
       /\ found !! "name" = Some (JStr "春季活动").
Proof.
  split; [exact load_two_activities |]. split; [exact find_second_activity |].
  destruct (update_activity_meta_then_get "b" "u0" "u1" two_activities _ _ _
              {["name" := "春季活动"]} load_two_activities find_second_activity)
    as (f2 & found & Hu & Hg & Hk & _).
  exists f2, found. split; [exact Hu |]. split; [exact Hg |].
  rewrite (Hk "name") by (left; reflexivity). reflexivity.
Defined.

End StoreExamples.
